(** * moneyd-uplink-xrp: a shallow embedding of [index.js]

    The development follows the current [index.js] of the uplink (the module
    exporting [configure] and [commands]).  Pure helpers ([comma], [hmac],
    [formatChannelToRow]) are plain functions; everything that talks to the
    outside (ledger, prompts, console, clock, faucet, [process.exit]) runs in
    a small state-and-exception monad that appends every interaction to a
    chronological trace.  Replies of the outside world are given by oracles
    that may depend on the whole history.  The libraries the module requires
    (crypto, chalk, moment, good-table, ripple-keypairs, the plugin) are
    parameters; JavaScript numbers are IEEE 754 binary64 values, and their
    arithmetic rounds to nearest, ties to even, as the runtime's does;
    [await] is sequential composition. *)

From Stdlib Require Import String Ascii List Bool Arith ZArith Lia.
From Stdlib Require Import DecimalString DecimalNat Zify ZifyNat SpecFloat.
Import ListNotations.

Local Open Scope list_scope.
Local Open Scope string_scope.

(** ** JavaScript values used by the program *)

Module Js.

(** An [Error] object: the class name and the [message] property. *)
Record Error := mkError { err_name : string; err_message : string }.

(** [new Error(msg)] *)
Definition new_Error (msg : string) : Error := mkError "Error" msg.

(** What the runtime throws on [undefined.prop]. *)
Definition TypeError_undefined (prop : string) : Error :=
  mkError "TypeError" ("Cannot read property '" ++ prop ++ "' of undefined").

(** Truthiness of a string: only [''] is falsy. *)
Definition truthy (s : string) : bool :=
  match s with EmptyString => false | String _ _ => true end.

(** [s || dflt] on strings. *)
Definition or_else (s dflt : string) : string :=
  if truthy s then s else dflt.

(** [String(i)] / [i.toString()] for an array index. *)
Definition String_of_index (i : nat) : string :=
  NilEmpty.string_of_uint (Nat.to_uint i).

(** [s.split('')]: one single-character string per character. *)
Fixpoint split_chars (s : string) : list string :=
  match s with
  | EmptyString => []
  | String c rest => String c EmptyString :: split_chars rest
  end.

(** [arr.join('')] *)
Definition join_empty (l : list string) : string := String.concat "" l.

(** [arr.map((e, i) => f(e, i))], the index starting at [i]. *)
Fixpoint map_indexed {A B} (f : A -> nat -> B) (i : nat) (l : list A) : list B :=
  match l with
  | [] => []
  | e :: rest => f e i :: map_indexed f (S i) rest
  end.

(** *** Numbers

    A JavaScript number is a binary64 floating-point value: 53 bits of
    precision, largest exponent 1024.  [+], [-] and [*] round the exact
    result to the nearest value, ties to even; [<] and [<=] are the IEEE
    comparisons, both false as soon as one side is [NaN].  The operations
    are those of the library's specification of binary64 arithmetic. *)

Definition number : Set := spec_float.

Definition prec : Z := 53.
Definition emax : Z := 1024.

Definition NaN : number := S754_nan.

(** The number an integer literal denotes. *)
Definition number_of_Z (n : Z) : number := binary_normalize prec emax n 0 false.

(** The integer a number is, when it is one. *)
Definition integer_value (x : number) : option Z :=
  match x with
  | S754_zero false => Some 0%Z
  | S754_finite s m e =>
      let v := if s then Z.neg m else Z.pos m in
      (if 0 <=? e then Some (v * 2 ^ e)
       else if Z.pos m mod 2 ^ (- e) =? 0 then Some (v / 2 ^ (- e))
       else None)%Z
  | _ => None
  end.

(** [a + b], [a - b], [a * b] *)
Definition add (a b : number) : number := SFadd prec emax a b.
Definition sub (a b : number) : number := SFsub prec emax a b.
Definition mul (a b : number) : number := SFmul prec emax a b.

(** [a < b], [a <= b] *)
Definition ltb (a b : number) : bool := SFltb a b.
Definition leb (a b : number) : bool := SFleb a b.

End Js.

Declare Scope number_scope.
Delimit Scope number_scope with number.
Bind Scope number_scope with Js.number.
Number Notation spec_float Js.number_of_Z Js.integer_value : number_scope.
Infix "+" := Js.add : number_scope.
Infix "-" := Js.sub : number_scope.
Infix "*" := Js.mul : number_scope.
Infix "<?" := Js.ltb : number_scope.
Infix "<=?" := Js.leb : number_scope.

(** ** [comma]: thousands separators (index.js, function [comma]) *)

Definition comma (a : string) : string :=
  Js.join_empty
    (Js.map_indexed
       (fun e i =>
          if (((String.length a - i) mod 3 =? 1) && (i <? String.length a - 1))%nat
          then e ++ ","
          else e)
       0 (Js.split_chars a)).

(** ** Data exchanged with the ledger and the configuration record *)

(** The optional [expiration] member of a channel of [account_channels]. *)
Inductive Expiration :=
| ExpAbsent            (* the property is missing: [undefined] *)
| ExpNull              (* [null] *)
| ExpNum (n : Z).      (* seconds since the ledger epoch *)

Record Channel := mkChannel {
  channel_id : string;
  destination_account : string;
  amount : string;
  balance : string;
  expiration : Expiration
}.

Record AccountInfo := mkAccountInfo {
  xrpBalance : string;
  ownerCount : Js.number
}.

Record ValidatedLedger := mkValidatedLedger {
  reserveBaseXRP : string;
  reserveIncrementXRP : string
}.

Record ServerInfo := mkServerInfo { validatedLedger : ValidatedLedger }.

Record FaucetAccount := mkFaucetAccount {
  faucet_address : string;
  faucet_secret : string
}.

Record Keypair := mkKeypair { publicKey : string; privateKey : string }.

Record Balance := mkBalance {
  minimum : string;
  maximum : string;
  settleThreshold : string;
  settleTo : string
}.

Record PluginOptions := mkPluginOptions {
  server : string;
  secret : string;
  address : string;
  xrpServer : string
}.

Record UplinkConfig := mkUplinkConfig {
  relation : string;
  plugin : string;
  assetCode : string;
  assetScale : Z;
  cfg_balance : Balance;
  sendRoutes : bool;
  receiveRoutes : bool;
  options : PluginOptions
}.

(** [new RippleAPI({ server })] *)
Record RippleAPI := new_RippleAPI { api_server : string }.

(** The object returned by [createSubmitter(api, address, secret)]. *)
Record Submitter := createSubmitter {
  sub_api : RippleAPI;
  sub_address : string;
  sub_secret : string
}.

(** What an awaited call of a collaborator yields: a value or a thrown error. *)
Inductive reply (A : Type) :=
| Ok (a : A)
| Fail (e : Js.Error).
Arguments Ok {A} a.
Arguments Fail {A} e.

(** ** Observable interactions, in the order they happen *)

Inductive event :=
| EvConsoleLog (args : list string)
| EvConsoleError (args : list string)
| EvPrompt (name : string) (answer : string)
| EvCheckbox (choices : list string) (marked : list string)
| EvFetchFaucet (r : reply FaucetAccount)
| EvSetTimeout (ms : Z)
| EvConnect (srv : string) (r : reply unit)
| EvGetAccountInfo (srv addr : string) (r : reply AccountInfo)
| EvGetServerInfo (srv : string) (r : reply ServerInfo)
| EvAccountChannels (srv addr : string) (r : reply (list Channel))
| EvSubscribe (srv addr : string) (r : reply unit)
| EvSubmit (addr channel : string) (close : bool) (r : reply unit)
| EvPluginConnect (r : reply unit)
| EvPluginSendMoney (amt : string) (r : reply unit)
| EvDateNow (t : Z)
| EvProcessExit (code : Z).

Definition trace := list event.

(** ** Libraries the module requires (pure functions and constants)

    None of these is code of this repository; the model is parametric in
    them.  [connectorList] and [rippledList] are the two JSON tables the
    module loads. *)

Record ServerTable := mkServerTable { test : list string; live : list string }.

Record Lib := mkLib {
  (* crypto.createHmac('sha256', key).update(message).digest() *)
  hmac_sha256 : list Byte.byte -> list Byte.byte -> list Byte.byte;
  (* buf.toString('base64') *)
  toString_base64 : list Byte.byte -> string;
  chalk_green : string -> string;
  chalk_yellow : string -> string;
  chalk_blue : string -> string;
  (* good-table *)
  table : list (list string) -> string;
  (* moment.duration(ms).humanize() *)
  humanize : Z -> string;
  (* Number(s), +s on the decimal strings ripple-lib returns *)
  Number_of_string : string -> Js.number;
  (* the string a number concatenates as *)
  String_of_Number : Js.number -> string;
  isValidSeed : string -> bool;
  deriveKeypair : string -> reply Keypair;
  deriveAddress : string -> string;
  connectorList : ServerTable;
  rippledList : ServerTable;
  (* require.resolve('ilp-plugin-xrp-asym-client') *)
  plugin_path : string;
  (* +Plugin.OUTGOING_CHANNEL_DEFAULT_AMOUNT *)
  OUTGOING_CHANNEL_DEFAULT_AMOUNT : Js.number
}.

(** ** The outside world: replies as functions of the history so far *)

Record World := mkWorld {
  (* Math.floor(Math.random() * n), for the k-th draw *)
  random_floor : nat -> nat -> nat;
  (* crypto.randomBytes(n) *)
  randomBytes : nat -> list Byte.byte;
  (* the answer inquirer resolves an input prompt with *)
  prompt_input : trace -> string -> option string -> string;
  (* the marked choices of a checkbox prompt *)
  prompt_checkbox : trace -> list string -> list string;
  (* fetch(faucet, POST), resp.json() and the reading of json.account *)
fetch_faucet : trace -> reply FaucetAccount;
  api_connect : trace -> string -> reply unit;
  api_getAccountInfo : trace -> string -> string -> reply AccountInfo;
  api_getServerInfo : trace -> string -> reply ServerInfo;
  request_account_channels : trace -> string -> string -> reply (list Channel);
  request_subscribe : trace -> string -> string -> reply unit;
  submitter_submit : trace -> Submitter -> string -> bool -> reply unit;
  plugin_connect : trace -> PluginOptions -> reply unit;
  plugin_sendMoney : trace -> PluginOptions -> string -> reply unit;
  Date_now : trace -> Z
}.

(** ** The effect monad: receiver object, trace, and three ways to finish *)

Inductive completion (A : Type) :=
| Normal (a : A)            (* the promise resolves / the function returns *)
| Thrown (e : Js.Error)     (* the promise rejects / the function throws *)
| Exited (code : Z).        (* [process.exit(code)] ended the process *)
Arguments Normal {A} a.
Arguments Thrown {A} e.
Arguments Exited {A} code.

Record Run (T A : Type) := mkRun {
  result : completion A;
  this_after : T;
  trace_after : trace
}.
Arguments mkRun {T A} _ _ _.
Arguments result {T A} _.
Arguments this_after {T A} _.
Arguments trace_after {T A} _.

Definition M (T A : Type) : Type := T -> trace -> Run T A.

Definition ret {T A} (a : A) : M T A := fun this tr => mkRun (Normal a) this tr.

Definition bind {T A B} (m : M T A) (k : A -> M T B) : M T B :=
  fun this tr =>
    let r := m this tr in
    match result r with
    | Normal a => k a (this_after r) (trace_after r)
    | Thrown e => mkRun (Thrown e) (this_after r) (trace_after r)
    | Exited c => mkRun (Exited c) (this_after r) (trace_after r)
    end.

Notation "x <- c1 ;; c2" := (bind c1 (fun x => c2))
  (at level 61, c1 at next level, right associativity).
Notation "c1 ;; c2" := (bind c1 (fun _ => c2))
  (at level 61, right associativity).

Definition throw {T A} (e : Js.Error) : M T A :=
  fun this tr => mkRun (Thrown e) this tr.

(** [try { body } catch (err) { handler }], also [promise.catch(handler)]:
    only a thrown error reaches the handler, a process exit does not. *)
Definition try_catch {T A} (body : M T A) (handler : Js.Error -> M T A) : M T A :=
  fun this tr =>
    let r := body this tr in
    match result r with
    | Thrown e => handler e (this_after r) (trace_after r)
    | _ => r
    end.

Definition get_this {T} : M T T := fun this tr => mkRun (Normal this) this tr.

Definition set_this {T} (this' : T) : M T unit :=
  fun _ tr => mkRun (Normal tt) this' tr.

(** Append one interaction to the history. *)
Definition emit {T} (e : event) : M T unit :=
  fun this tr => mkRun (Normal tt) this (tr ++ [e])%list.

(** Await a collaborator: ask the world, log the exchange, settle. *)
Definition await {T A} (ask : trace -> reply A) (ev : reply A -> event) : M T A :=
  fun this tr =>
    let r := ask tr in
    mkRun (match r with Ok a => Normal a | Fail e => Thrown e end)
          this (tr ++ [ev r])%list.

(** A value the world hands over without being able to fail. *)
Definition observe {T A} (ask : trace -> A) (ev : A -> event) : M T A :=
  fun this tr => let a := ask tr in mkRun (Normal a) this (tr ++ [ev a])%list.

Definition console_log {T} (args : list string) : M T unit := emit (EvConsoleLog args).
Definition console_error {T} (args : list string) : M T unit := emit (EvConsoleError args).

(** [process.exit(code)] never returns. *)
Definition process_exit {T A} (code : Z) : M T A :=
  fun this tr => mkRun (Exited code) this (tr ++ [EvProcessExit code])%list.

(** [for (const x of xs) { body }] *)
Fixpoint for_of {T A} (xs : list A) (body : A -> M T unit) : M T unit :=
  match xs with
  | [] => ret tt
  | x :: rest => body x ;; for_of rest body
  end.

(** [await]-free [xs.map((e, i) => f(e, i))] whose callback has effects. *)
Fixpoint map_indexedM {T A B} (f : A -> nat -> M T B) (i : nat) (xs : list A)
  : M T (list B) :=
  match xs with
  | [] => ret []
  | x :: rest =>
      y <- f x i ;;
      ys <- map_indexedM f (S i) rest ;;
      ret (y :: ys)
  end.

(** ** Buffers and strings *)

Inductive BinaryLike :=
| Str (s : string)
| Buf (b : list Byte.byte).

Definition bytes_of (x : BinaryLike) : list Byte.byte :=
  match x with
  | Str s => list_byte_of_string s
  | Buf b => b
  end.

Definition hex_digit (n : N) : ascii :=
  nth (N.to_nat n) (list_ascii_of_string "0123456789abcdef") "0"%char.

(** [buf.toString('hex')] *)
Fixpoint toString_hex (buf : list Byte.byte) : string :=
  match buf with
  | [] => ""
  | b :: rest =>
      let n := Byte.to_N b in
      String (hex_digit (n / 16)) (String (hex_digit (n mod 16)) (toString_hex rest))
  end.

(** [s.replace(/=/g, '').replace(/\+/g, '-').replace(/\//g, '_')] *)
Fixpoint replace_all (from : ascii) (to : string) (s : string) : string :=
  match s with
  | EmptyString => ""
  | String c rest =>
      if Ascii.eqb c from then to ++ replace_all from to rest
      else String c (replace_all from to rest)
  end.

Definition dquote : string := String (ascii_of_nat 34) "".

Definition parentBtpHmacKey : string := "parent_btp_uri".

(** [+index] for the decimal index strings offered as checkbox choices;
    [None] stands for a string that names no array index. *)
Definition index_of_string (s : string) : option nat :=
  option_map Nat.of_uint (NilEmpty.uint_of_string s).

(** A thrown-or-returned pure library call. *)
Definition of_reply {T A} (r : reply A) : M T A :=
  match r with
  | Ok a => ret a
  | Fail e => throw e
  end.

(** A field descriptor handed to [inquirer.prompt]. *)
Record Field := mkField {
  f_type : string;
  f_name : string;
  f_message : string;
  f_default : option string;        (* [None] is [undefined] *)
  f_validate : string -> bool
}.

(** The members of [res] filled by the loop over [fields]. *)
Record Answers := mkAnswers {
  res_parent : string;
  res_name : string;
  res_secret : string;
  res_xrpServer : string
}.

Section Program.

Context (L : Lib) (W : World).

(** *** Module-level helpers *)

Definition base64url (buf : list Byte.byte) : string :=
  replace_all "/" "_" (replace_all "+" "-" (replace_all "=" "" (toString_base64 L buf))).

Definition hmac (key message : BinaryLike) : list Byte.byte :=
  hmac_sha256 L (bytes_of key) (bytes_of message).

Definition formatChannelExpiration {T} (exp : Expiration) : M T string :=
  match exp with
  | ExpAbsent | ExpNull | ExpNum 0 => ret ""
  | ExpNum exp =>
      let unixExp := ((exp + 0x386D4380) * 1000)%Z in
      now <- observe (Date_now W) EvDateNow ;;
      if (unixExp <=? now)%Z then ret (chalk_blue L "ready to close")
      else
        now' <- observe (Date_now W) EvDateNow ;;
        ret (chalk_yellow L ("in " ++ humanize L (unixExp - now')))
  end.

Definition formatChannelToRow {T} (c : Channel) (i : nat) : M T (list string) :=
  label <- formatChannelExpiration (expiration c) ;;
  ret [ Js.String_of_index i;
        substring 0 8 (channel_id c) ++ "...";
        destination_account c;
        comma (amount c);
        comma (balance c);
        label ].

(** *** [validateAddress] *)

(** The expression bound to [minBalance]. *)
Definition minBalance_of (ledger : ValidatedLedger) (accountInfo : AccountInfo)
  : Js.number :=
  (Number_of_string L (reserveBaseXRP ledger)
   + Number_of_string L (reserveIncrementXRP ledger) * ownerCount accountInfo
   + Number_of_string L (reserveIncrementXRP ledger)
   + OUTGOING_CHANNEL_DEFAULT_AMOUNT L
   + 1)%number.

Definition validateAddress {T} (server address : string) : M T unit :=
  let api := new_RippleAPI server in
  await (fun tr => api_connect W tr (api_server api)) (EvConnect (api_server api)) ;;
  accountInfo <-
    try_catch
      (await (fun tr => api_getAccountInfo W tr (api_server api) address)
             (EvGetAccountInfo (api_server api) address))
      (fun err =>
         if negb (Js.err_message err =? "actNotFound") then throw err
         else throw (Js.new_Error
                       ("Address " ++ dquote ++ address ++ dquote
                        ++ " does not exist on " ++ server))) ;;
  serverInfo <-
    await (fun tr => api_getServerInfo W tr (api_server api))
          (EvGetServerInfo (api_server api)) ;;
  let minBalance := minBalance_of (validatedLedger serverInfo) accountInfo in
  let currentBalance := Number_of_string L (xrpBalance accountInfo) in
  if (currentBalance <? minBalance)%number then
    throw (Js.new_Error
             ("account balance is too low (must be at least "
              ++ String_of_Number L minBalance ++ ")"))
  else ret tt.

(** *** [configure] *)

Definition field_parent (defaultParent : option string) : Field :=
  mkField "input" "parent" "BTP host of parent connector:" defaultParent
          (fun _ => true).

Definition field_name : Field :=
  mkField "input" "name" "Name to assign to this channel:"
          (Some (base64url (randomBytes W 32))) (fun _ => true).

Definition field_secret (testnet : bool) : Field :=
  mkField "input" "secret"
          ("XRP secret" ++ (if testnet then " (optional):" else ":"))
          (if testnet then Some "" else None)
          (fun secret =>
             (testnet && (String.length secret =? 0)%nat) || isValidSeed L secret).

Definition field_xrpServer (defaultRippled : option string) : Field :=
  mkField "input" "xrpServer" "Rippled server:" defaultRippled (fun _ => true).

(** [(await inquirer.prompt(field))[field.name]] *)
Definition inquirer_prompt {T} (field : Field) : M T string :=
  observe (fun tr => prompt_input W tr (f_name field) (f_default field))
          (EvPrompt (f_name field)).

(** One turn of the loop over [fields]: the value stored in
    [res[field.name]]. *)
Definition fill_field {T} (advanced : bool) (field : Field) : M T string :=
  match f_default field with
  | None => inquirer_prompt field
  | Some dflt => if advanced then inquirer_prompt field else ret dflt
  end.

Definition pick_server (draw : nat) (servers : list string) : option string :=
  nth_error servers (random_floor W draw (List.length servers)).

(** [for (const field of fields) { res[field.name] = ... }], the four
    literal descriptors taken in array order. *)
Definition prompt_fields {T} (testnet advanced : bool) : M T Answers :=
  let servers := if testnet then test (connectorList L) else live (connectorList L) in
  let defaultParent := pick_server 0 servers in
  let rippledServers := if testnet then test (rippledList L) else live (rippledList L) in
  let defaultRippled := pick_server 1 rippledServers in
  parent <- fill_field advanced (field_parent defaultParent) ;;
  name <- fill_field advanced field_name ;;
  secret <- fill_field advanced (field_secret testnet) ;;
  xrpServer <- fill_field advanced (field_xrpServer defaultRippled) ;;
  ret {| res_parent := parent; res_name := name;
         res_secret := secret; res_xrpServer := xrpServer |}.

Definition configure (testnet advanced : bool) : M unit UplinkConfig :=
  res <- prompt_fields testnet advanced ;;
  let res_parent := res_parent res in
  let res_name := res_name res in
  let res_xrpServer := res_xrpServer res in
  account <-
    (if testnet && negb (Js.truthy (res_secret res)) then
       console_log ["acquiring testnet account..."] ;;
       json <- await (fetch_faucet W) EvFetchFaucet ;;
       console_log ["got testnet address " ++ dquote ++ faucet_address json ++ dquote] ;;
       console_log ["waiting for testnet API to fund address..."] ;;
       emit (EvSetTimeout 10000) ;;
       ret (faucet_address json, faucet_secret json)
     else
       (* [res] has no [address] member yet, so it is always derived *)
       keypair <- of_reply (deriveKeypair L (res_secret res)) ;;
       let res_address := deriveAddress L (publicKey keypair) in
       (* Ensure that the given account exists and has enough XRP to
          create a channel. *)
       try_catch (validateAddress res_xrpServer res_address)
         (fun err =>
            console_error ["Error configuring uplink: " ++ Js.err_message err] ;;
            process_exit 1) ;;
       ret (res_address, res_secret res)) ;;
  let res_address := fst account in
  let res_secret := snd account in
  let btpName := Js.or_else res_name "" in
  let btpSecret :=
    toString_hex
      (hmac (Buf (hmac (Str parentBtpHmacKey) (Str (res_parent ++ btpName))))
            (Str res_secret)) in
  let btpServer := "btp+wss://" ++ btpName ++ ":" ++ btpSecret ++ "@" ++ res_parent in
  ret {| relation := "parent";
         plugin := plugin_path L;
         assetCode := "XRP";
         assetScale := 6;
         cfg_balance := {| minimum := "-Infinity";
                           maximum := "20000";
                           settleThreshold := "5000";
                           settleTo := "10000" |};
         sendRoutes := false;
         receiveRoutes := false;
         options := {| server := btpServer;
                       secret := res_secret;
                       address := res_address;
                       xrpServer := res_xrpServer |} |}.

(** *** class [XrpUplink] *)

Record XrpUplink := mkXrpUplink {
  config : UplinkConfig;
  pluginOpts : PluginOptions;
  api : option RippleAPI;         (* [None] is [null] *)
  subscribed : bool
}.

(** [constructor (config)] *)
Definition new_XrpUplink (config : UplinkConfig) : XrpUplink :=
  {| config := config; pluginOpts := options config; api := None; subscribed := false |}.

Definition makeUplink (config : UplinkConfig) : XrpUplink := new_XrpUplink config.

Definition set_api (a : RippleAPI) (this : XrpUplink) : XrpUplink :=
  {| config := config this; pluginOpts := pluginOpts this;
     api := Some a; subscribed := subscribed this |}.

Definition set_subscribed (b : bool) (this : XrpUplink) : XrpUplink :=
  {| config := config this; pluginOpts := pluginOpts this;
     api := api this; subscribed := b |}.

Definition _rippleApi : M XrpUplink RippleAPI :=
  this <- get_this ;;
  match api this with
  | Some a => ret a
  | None =>
      let a := new_RippleAPI (xrpServer (pluginOpts this)) in
      set_this (set_api a this) ;;
      await (fun tr => api_connect W tr (api_server a)) (EvConnect (api_server a)) ;;
      ret a
  end.

Definition _submitter : M XrpUplink Submitter :=
  api <- _rippleApi ;;
  this <- get_this ;;
  (if negb (subscribed this) then
     set_this (set_subscribed true this) ;;
     await (fun tr => request_subscribe W tr (api_server api) (address (pluginOpts this)))
           (EvSubscribe (api_server api) (address (pluginOpts this)))
   else ret tt) ;;
  ret (createSubmitter api (address (pluginOpts this)) (secret (pluginOpts this))).

Definition _listChannels : M XrpUplink (list Channel) :=
  api <- _rippleApi ;;
  console_log ["fetching channels..."] ;;
  this <- get_this ;;
  await (fun tr => request_account_channels W tr (api_server api) (address (pluginOpts this)))
        (EvAccountChannels (api_server api) (address (pluginOpts this))).

Definition _printChannels (channels : list Channel) : M XrpUplink unit :=
  console_log ["connecting to xrp ledger..."] ;;
  api <- _rippleApi ;;
  this <- get_this ;;
  res <- await (fun tr => api_getAccountInfo W tr (api_server api) (address (pluginOpts this)))
               (EvGetAccountInfo (api_server api) (address (pluginOpts this))) ;;
  serverInfo <- await (fun tr => api_getServerInfo W tr (api_server api))
                      (EvGetServerInfo (api_server api)) ;;
  let reserveBase := Number_of_string L (reserveBaseXRP (validatedLedger serverInfo)) in
  let reserveInc := Number_of_string L (reserveIncrementXRP (validatedLedger serverInfo)) in
  let reserved := (ownerCount res * reserveInc + reserveBase)%number in
  console_log [chalk_green L "account:"; address (pluginOpts this)] ;;
  console_log [chalk_green L "balance:"; xrpBalance res ++ " XRP"] ;;
  console_log [chalk_yellow L "  reserved:"; String_of_Number L reserved ++ " XRP"] ;;
  console_log [chalk_yellow L "  available:";
               String_of_Number L (Number_of_string L (xrpBalance res) - reserved)%number
               ++ " XRP"] ;;
  console_log [] ;;
  match channels with
  | [] => console_error ["No channels found"]
  | _ =>
      rows <- map_indexedM formatChannelToRow 0 channels ;;
      console_log
        [table L ([ chalk_green L "index";
                    chalk_green L "channel id";
                    chalk_green L "destination";
                    chalk_green L "amount (drops)";
                    chalk_green L "balance (drops)";
                    chalk_green L "expiry" ] :: rows)]
  end.

Definition printChannels : M XrpUplink unit :=
  channels <- _listChannels ;;
  _printChannels channels.

(** [allChannels[+index]]; [None] is [undefined]. *)
Definition channel_at (allChannels : list Channel) (index : string) : option Channel :=
  match index_of_string index with
  | Some i => nth_error allChannels i
  | None => None
  end.

(** The body of the closing loop, for one element of [channels]. *)
Definition closeChannel (submitter : Submitter) (channel : option Channel)
  : M XrpUplink unit :=
  channelId <- match channel with
               | Some c => ret (channel_id c)
               | None => throw (Js.TypeError_undefined "channel_id")
               end ;;
  console_log ["Closing channel " ++ channelId] ;;
  try_catch
    (await (fun tr => submitter_submit W tr submitter channelId true)
           (EvSubmit (sub_address submitter) channelId true))
    (fun err =>
       console_error ["Warning for channel " ++ channelId ++ ":"; Js.err_message err]).

(** [for (const channel of channels) { ... }] of [cleanupChannels]. *)
Definition closeChannels (submitter : Submitter) (channels : list (option Channel))
  : M XrpUplink unit :=
  for_of channels (closeChannel submitter).

Definition cleanupChannels : M XrpUplink unit :=
  allChannels <- _listChannels ;;
  _printChannels allChannels ;;
  match allChannels with
  | [] => ret tt
  | _ =>
      let choices := Js.map_indexed (fun _ i => Js.String_of_index i) 0 allChannels in
      marked <- observe (fun tr => prompt_checkbox W tr choices) (EvCheckbox choices) ;;
      let channels := map (channel_at allChannels) marked in
      submitter <- _submitter ;;
      closeChannels submitter channels
  end.

Definition topup (amount : string) : M XrpUplink unit :=
  this <- get_this ;;
  let plugin := pluginOpts this in
  await (fun tr => plugin_connect W tr plugin) EvPluginConnect ;;
  await (fun tr => plugin_sendMoney W tr plugin amount) (EvPluginSendMoney amount).

End Program.

(** * Specification-side definitions *)

(** ** Thousands separators *)

Module CommaSpec.

Definition chars : string -> list ascii := list_ascii_of_string.

Definition is_digit (c : ascii) : bool :=
  let n := nat_of_ascii c in ((48 <=? n) && (n <=? 57))%nat.

Definition is_digits (a : string) : bool := forallb is_digit (chars a).

(** The spec's words: a separator follows the digit at index [i] when the
    number of digits after it is a positive multiple of three. *)
Definition separator_after (len i : nat) : bool :=
  let after := (len - 1 - i)%nat in
  ((0 <? after) && (after mod 3 =? 0))%nat.

Definition comma_spec (a : string) : string :=
  Js.join_empty
    (Js.map_indexed
       (fun e i => if separator_after (String.length a) i then e ++ "," else e)
       0 (Js.split_chars a)).

(** Grouping in threes, written on the digits read from the right: every
    complete group that is followed by a further digit gets a separator. *)
Fixpoint group3 (r : list ascii) : list ascii :=
  match r with
  | x :: y :: z :: ((_ :: _) as more) => x :: y :: z :: ","%char :: group3 more
  | _ => r
  end.

Definition remove_commas (l : list ascii) : list ascii :=
  filter (fun c => negb (Ascii.eqb c ",")) l.

(** The same function seen from the suffix that is still to be emitted:
    [a.length - i] is the length of that suffix. *)
Fixpoint sep_suffix (l : list ascii) : list ascii :=
  match l with
  | [] => []
  | e :: rest =>
      if ((S (List.length rest) mod 3 =? 1) && (0 <? List.length rest))%nat
      then e :: ","%char :: sep_suffix rest
      else e :: sep_suffix rest
  end.

End CommaSpec.

Import CommaSpec.

(** What it means for [out] to be [a] with thousands separators. *)
Definition thousands_separated (a out : string) : Prop :=
  out = comma_spec a
  /\ chars out = rev (group3 (rev (chars a)))
  /\ remove_commas (chars out) = chars a
  /\ (forall rest, out <> String "," rest)
  /\ (forall front, out <> front ++ ",")
  /\ ((String.length a <= 3)%nat -> out = a).

(** ** Credentials *)

Module CredentialSpec.

(** The reference derivation, in the spec's words:
    hex(HMAC-SHA256(key = HMAC-SHA256(key = "parent_btp_uri",
    message = parentHost + channelName), message = seed)). *)
Definition deriveSecret (L : Lib) (parentHost channelName seed : string) : string :=
  let inner :=
    hmac_sha256 L (list_byte_of_string "parent_btp_uri")
                  (list_byte_of_string (parentHost ++ channelName)) in
  toString_hex (hmac_sha256 L inner (list_byte_of_string seed)).

Definition connection_uri (L : Lib) (parentHost channelName seed : string) : string :=
  "btp+wss://" ++ channelName ++ ":" ++ deriveSecret L parentHost channelName seed
               ++ "@" ++ parentHost.

End CredentialSpec.

(** ** Expiration *)

(** Wall-clock milliseconds of a ledger timestamp. *)
Definition wall_clock_ms (expiration : Z) : Z := ((expiration + 0x386D4380) * 1000)%Z.

(** ** What can be read off a trace *)

Definition is_subscribe (e : event) : bool :=
  match e with EvSubscribe _ _ _ => true | _ => false end.

Definition subscribe_count (tr : trace) : nat := List.length (filter is_subscribe tr).

Definition is_connect (e : event) : bool :=
  match e with EvConnect _ _ => true | _ => false end.

(** [validateAddress] opens its own ledger connection first; inside
    [configure] nothing else connects. *)
Definition validation_started (evs : list event) : bool := existsb is_connect evs.

Definition is_fetch_faucet (e : event) : bool :=
  match e with EvFetchFaucet _ => true | _ => false end.

Definition faucet_requested (evs : list event) : bool := existsb is_fetch_faucet evs.

(** The channel ids submitted for closing, in order. *)
Definition submit_attempts (evs : list event) : list string :=
  flat_map (fun e => match e with EvSubmit _ ch true _ => [ch] | _ => [] end) evs.

(** The submissions that were rejected: channel id and error message. *)
Definition failed_submits (evs : list event) : list (string * string) :=
  flat_map (fun e => match e with
                     | EvSubmit _ ch _ (Fail err) => [(ch, Js.err_message err)]
                     | _ => []
                     end) evs.

Definition console_logs (evs : list event) : list (list string) :=
  flat_map (fun e => match e with EvConsoleLog args => [args] | _ => [] end) evs.

Definition console_errors (evs : list event) : list (list string) :=
  flat_map (fun e => match e with EvConsoleError args => [args] | _ => [] end) evs.

Definition mentions (needle s : string) : bool :=
  match index 0 needle s with Some _ => true | None => false end.

(** Some console line speaks of "channels closed", as a closing
    "N of M channels closed" summary would. *)
Definition final_report_present (evs : list event) : bool :=
  existsb (existsb (mentions "channels closed")) (console_logs evs ++ console_errors evs)%list.

Definition warning_line (failure : string * string) : list string :=
  ["Warning for channel " ++ fst failure ++ ":"; snd failure].

Definition closing_line (c : Channel) : list string :=
  ["Closing channel " ++ channel_id c].

Definition last_event (tr : trace) : option event := List.last (map Some tr) None.

(** What closing one channel leaves in the trace, given the ledger's reply. *)
Definition channel_events (addr : string) (c : Channel) (rep : reply unit) : list event :=
  [EvConsoleLog (closing_line c); EvSubmit addr (channel_id c) true rep]
  ++ match rep with
     | Ok _ => []
     | Fail err => [EvConsoleError (warning_line (channel_id c, Js.err_message err))]
     end.

Definition batch_events (addr : string) (outcomes : list (Channel * reply unit))
  : list event :=
  flat_map (fun o => channel_events addr (fst o) (snd o)) outcomes.

(** [n] successive calls of [_submitter] on one instance, whatever each of
    them returned or threw. *)
Fixpoint invoke_submitter (W : World) (n : nat) (this : XrpUplink) (tr : trace)
  : XrpUplink * trace :=
  match n with
  | O => (this, tr)
  | S k =>
      let r := _submitter W this tr in
      invoke_submitter W k (this_after r) (trace_after r)
  end.

(** ** Contracts of collaborators used as assumptions *)

(** inquirer resolves the secret prompt only with an answer its [validate]
    accepted. *)
Definition inquirer_validates (L : Lib) (W : World) (testnet : bool) : Prop :=
  forall tr,
    f_validate (field_secret L testnet)
      (prompt_input W tr "secret" (f_default (field_secret L testnet))) = true.

(** ripple-keypairs derives a key pair from every valid seed. *)
Definition valid_seed_derives (L : Lib) : Prop :=
  forall s, isValidSeed L s = true -> exists kp, deriveKeypair L s = Ok kp.

(** ** A concrete library and concrete worlds, to run the program on *)

Module Sample.

(** *** [Number(s)] on decimal numerals

    The strings read are an optional sign followed by [ddd], [ddd.ddd],
    [ddd.] or [.ddd], and the empty string, which is [0]; the value is the
    binary64 number nearest to the decimal.  Every other string gives [NaN]:
    exponents, hexadecimal literals, [Infinity] and white space are not
    read. *)

(** The number nearest to [n / d]: the division rounds the exact quotient
    of the two integers once. *)
Definition nearest_quotient (n d : positive) : Js.number :=
  SFdiv Js.prec Js.emax (S754_finite false n 0) (S754_finite false d 0).

Definition digits_value (s : string) : option Z :=
  option_map Z.of_uint (NilEmpty.uint_of_string s).

Definition number_of_unsigned (s : string) : Js.number :=
  match index 0 "." s with
  | None =>
      match digits_value s with
      | Some n => Js.number_of_Z n
      | None => Js.NaN
      end
  | Some i =>
      let whole := substring 0 i s in
      let frac := substring (S i) (String.length s - S i) s in
      match digits_value (whole ++ frac) with
      | Some (Zpos n) =>
          nearest_quotient n (Z.to_pos (10 ^ Z.of_nat (String.length frac)))
      | Some _ => if (String.length s =? 1)%nat then Js.NaN else Js.number_of_Z 0
      | None => Js.NaN
      end
  end.

Definition number_of_string (s : string) : Js.number :=
  match s with
  | String "-" (String _ _ as rest) => SFopp (number_of_unsigned rest)
  | String "+" (String _ _ as rest) => number_of_unsigned rest
  | _ => number_of_unsigned s
  end.

(** *** [String(x)]: the shortest decimal that reads back as [x]

    A positive number [m * 2^e] is [x4 / den4]; [lo / den4] and [hi / den4]
    are the midpoints to its neighbours, which read back as [x] exactly when
    [m] is even. *)

(** [x] lies in [[10^(n-1), 10^n)]. *)
Fixpoint magnitude_up (fuel : nat) (num den n : Z) : Z :=
  match fuel with
  | O => n
  | S fuel' =>
      if (if 0 <=? n then den * 10 ^ n <=? num else den <=? num * 10 ^ (- n))%Z
      then magnitude_up fuel' num den (n + 1)%Z
      else n
  end.

Fixpoint magnitude_down (fuel : nat) (num den n : Z) : Z :=
  match fuel with
  | O => n
  | S fuel' =>
      let n1 := (n - 1)%Z in
      if (if 0 <=? n1 then num <? den * 10 ^ n1 else num * 10 ^ (- n1) <? den)%Z
      then magnitude_down fuel' num den n1
      else n
  end.

Definition magnitude (num den : Z) : Z :=
  magnitude_down 400 num den (magnitude_up 400 num den 0).

(** Does [c * 10^p] read back as the number between [lo] and [hi]? *)
Definition reads_back (closed : bool) (lo hi den4 c p : Z) : bool :=
  let '(a, b) :=
    (if 0 <=? p then (c * 10 ^ p * den4, 1) else (c * den4, 10 ^ (- p)))%Z in
  if closed then ((lo * b <=? a) && (a <=? hi * b))%Z
  else ((lo * b <? a) && (a <? hi * b))%Z.

(** The fewest digits [k], from [k] on, with a [k]-digit decimal
    [c * 10^(n-k)] that reads back; of two such decimals the nearer one, the
    even one when they are equally near.  The result is [(c, k, n)]. *)
Fixpoint shortest (fuel : nat) (closed : bool) (lo x4 hi den4 n k : Z) : Z * Z * Z :=
  let p := (n - k)%Z in
  let s := (if 0 <=? p then x4 / (den4 * 10 ^ p) else (x4 * 10 ^ (- p)) / den4)%Z in
  let '(below, above) :=
    (if 0 <=? p
     then (x4 - s * 10 ^ p * den4, (s + 1) * 10 ^ p * den4 - x4)
     else (x4 * 10 ^ (- p) - s * den4, (s + 1) * den4 - x4 * 10 ^ (- p)))%Z in
  let pick :=
    match reads_back closed lo hi den4 s p, reads_back closed lo hi den4 (s + 1) p with
    | true, true =>
        if (below <? above)%Z then Some s
        else if (above <? below)%Z then Some (s + 1)%Z
        else Some (if Z.even s then s else s + 1)%Z
    | true, false => Some s
    | false, true => Some (s + 1)%Z
    | false, false => None
    end in
  match pick, fuel with
  | Some c, _ => if (c =? 10 ^ k)%Z then (1, 1, n + 1)%Z else (c, k, n)
  | None, S fuel' => shortest fuel' closed lo x4 hi den4 n (k + 1)
  | None, O => (s, k, n)
  end.

Definition digits_of (c : Z) : string := NilEmpty.string_of_uint (N.to_uint (Z.to_N c)).

Definition zeros (n : Z) : string :=
  string_of_list_ascii (repeat "0"%char (Z.to_nat n)).

(** The digits [ds] ([k] of them) of a number in [[10^(n-1), 10^n)], laid
    out as [Number.prototype.toString] does. *)
Definition layout (ds : string) (k n : Z) : string :=
  if ((k <=? n) && (n <=? 21))%Z then ds ++ zeros (n - k)
  else if ((0 <? n) && (n <=? 21))%Z then
    substring 0 (Z.to_nat n) ds ++ "." ++ substring (Z.to_nat n) (Z.to_nat (k - n)) ds
  else if ((-6 <? n) && (n <=? 0))%Z then "0." ++ zeros (- n) ++ ds
  else
    let e := (n - 1)%Z in
    (if (k =? 1)%Z then ds
     else substring 0 1 ds ++ "." ++ substring 1 (Z.to_nat (k - 1)) ds)
    ++ "e" ++ (if (0 <=? e)%Z then "+" else "-") ++ digits_of (Z.abs e).

Definition string_of_positive_number (m : positive) (e : Z) : string :=
  let '(num, den) :=
    (if 0 <=? e then (Z.pos m * 2 ^ e, 1) else (Z.pos m, 2 ^ (- e)))%Z in
  let u := (if 0 <=? e then 2 ^ e else 1)%Z in
  let den4 := (4 * den)%Z in
  let x4 := (4 * num)%Z in
  let hi := (x4 + 2 * u)%Z in
  let lo := (if (Z.pos m =? 2 ^ 52) && (-1074 <? e) then x4 - u else x4 - 2 * u)%Z in
  let '(c, k, n) := shortest 17 (Z.even (Z.pos m)) lo x4 hi den4 (magnitude num den) 1 in
  layout (digits_of c) k n.

Definition string_of_number (x : Js.number) : string :=
  match x with
  | S754_zero _ => "0"
  | S754_nan => "NaN"
  | S754_infinity s => if s then "-Infinity" else "Infinity"
  | S754_finite s m e => (if s then "-" else "") ++ string_of_positive_number m e
  end.

Definition lib : Lib :=
  {| hmac_sha256 := fun key message => (key ++ message)%list;
     toString_base64 := string_of_list_byte;
     chalk_green := fun s => s;
     chalk_yellow := fun s => s;
     chalk_blue := fun s => s;
     table := fun rows => String.concat ";" (map (String.concat " ") rows);
     humanize := fun ms => NilEmpty.string_of_int (Z.to_int (ms / 60000)) ++ " minutes";
     Number_of_string := number_of_string;
     String_of_Number := string_of_number;
     isValidSeed := fun s => prefix "s" s;
     deriveKeypair := fun s => Ok (mkKeypair ("pub-" ++ s) ("prv-" ++ s));
     deriveAddress := fun pk => "r-" ++ pk;
     connectorList := {| test := ["client.test.example"]; live := ["client.live.example"] |};
     rippledList := {| test := ["wss://test.example"]; live := ["wss://live.example"] |};
     plugin_path := "/node_modules/ilp-plugin-xrp-asym-client/index.js";
     OUTGOING_CHANNEL_DEFAULT_AMOUNT := 1000000 |}.

Definition chanA : Channel := mkChannel "AAAAAAAAAAAA0001" "rDestA" "10000000" "2500" ExpAbsent.
Definition chanB : Channel := mkChannel "BBBBBBBBBBBB0002" "rDestB" "5000000" "0" (ExpNum 600000000).
Definition chanC : Channel := mkChannel "CCCCCCCCCCCC0003" "rDestC" "1000" "1000" (ExpNum 900000000).

(** A healthy ledger: an account with 1000040 XRP owning three objects,
    reserves 20 and 5; the user accepts every default and types a seed. *)
Definition world : World :=
  {| random_floor := fun _ _ => 0%nat;
     randomBytes := fun n => repeat Byte.x41 n;
     prompt_input := fun _ _ dflt => match dflt with
                                     | Some d => d
                                     | None => "sSeedOfTheUser"
                                     end;
     prompt_checkbox := fun _ choices => choices;
     fetch_faucet := fun _ => Ok (mkFaucetAccount "rFaucet" "sFaucet");
     api_connect := fun _ _ => Ok tt;
     api_getAccountInfo := fun _ _ _ => Ok (mkAccountInfo "1000040" 3);
     api_getServerInfo := fun _ _ => Ok (mkServerInfo (mkValidatedLedger "20" "5"));
     request_account_channels := fun _ _ _ => Ok [chanA; chanB; chanC];
     request_subscribe := fun _ _ _ => Ok tt;
     submitter_submit := fun _ _ _ _ => Ok tt;
     plugin_connect := fun _ _ => Ok tt;
     plugin_sendMoney := fun _ _ _ => Ok tt;
     Date_now := fun _ => 1600000000000%Z |}.

Definition with_account (info : reply AccountInfo) (W : World) : World :=
  {| random_floor := random_floor W; randomBytes := randomBytes W;
     prompt_input := prompt_input W; prompt_checkbox := prompt_checkbox W;
     fetch_faucet := fetch_faucet W; api_connect := api_connect W;
     api_getAccountInfo := fun _ _ _ => info;
     api_getServerInfo := api_getServerInfo W;
     request_account_channels := request_account_channels W;
     request_subscribe := request_subscribe W;
     submitter_submit := submitter_submit W;
     plugin_connect := plugin_connect W; plugin_sendMoney := plugin_sendMoney W;
     Date_now := Date_now W |}.

Definition with_connect (r : reply unit) (W : World) : World :=
  {| random_floor := random_floor W; randomBytes := randomBytes W;
     prompt_input := prompt_input W; prompt_checkbox := prompt_checkbox W;
     fetch_faucet := fetch_faucet W; api_connect := fun _ _ => r;
     api_getAccountInfo := api_getAccountInfo W;
     api_getServerInfo := api_getServerInfo W;
     request_account_channels := request_account_channels W;
     request_subscribe := request_subscribe W;
     submitter_submit := submitter_submit W;
     plugin_connect := plugin_connect W; plugin_sendMoney := plugin_sendMoney W;
     Date_now := Date_now W |}.

Definition with_subscribe (r : reply unit) (W : World) : World :=
  {| random_floor := random_floor W; randomBytes := randomBytes W;
     prompt_input := prompt_input W; prompt_checkbox := prompt_checkbox W;
     fetch_faucet := fetch_faucet W; api_connect := api_connect W;
     api_getAccountInfo := api_getAccountInfo W;
     api_getServerInfo := api_getServerInfo W;
     request_account_channels := request_account_channels W;
     request_subscribe := fun _ _ _ => r;
     submitter_submit := submitter_submit W;
     plugin_connect := plugin_connect W; plugin_sendMoney := plugin_sendMoney W;
     Date_now := Date_now W |}.

(** The ledger rejects the claim on channel B and accepts the others. *)
Definition with_B_rejected (W : World) : World :=
  {| random_floor := random_floor W; randomBytes := randomBytes W;
     prompt_input := prompt_input W; prompt_checkbox := prompt_checkbox W;
     fetch_faucet := fetch_faucet W; api_connect := api_connect W;
     api_getAccountInfo := api_getAccountInfo W;
     api_getServerInfo := api_getServerInfo W;
     request_account_channels := request_account_channels W;
     request_subscribe := request_subscribe W;
     submitter_submit := fun _ _ ch _ =>
       if ch =? channel_id chanB then Fail (Js.mkError "Error" "tecNO_PERMISSION")
       else Ok tt;
     plugin_connect := plugin_connect W; plugin_sendMoney := plugin_sendMoney W;
     Date_now := Date_now W |}.

Definition connect_error : Js.Error := Js.mkError "NotConnectedError" "connect ETIMEDOUT".
Definition subscribe_error : Js.Error := Js.mkError "RippledError" "noNetwork".
Definition not_found_error : Js.Error := Js.mkError "RippledError" "actNotFound".

Definition opts : PluginOptions :=
  mkPluginOptions "btp+wss://name:00@client.live.example" "sSeedOfTheUser"
                  "rAccount" "wss://live.example".

Definition cfg : UplinkConfig :=
  mkUplinkConfig "parent" (plugin_path lib) "XRP" 6
                 (mkBalance "-Infinity" "20000" "5000" "10000") false false opts.

(** A ledger on which the user's account is funded well enough. *)
Definition funded_world : World :=
  with_account (Ok (mkAccountInfo "2000000" 3)) world.

(** What [configure] returns on the testnet with every default accepted. *)
Definition testnet_cfg : UplinkConfig :=
  Eval vm_compute in
    match result (configure lib world true false tt []) with
    | Normal c => c
    | _ => cfg
    end.

(** A plugin whose channels take 10 XRP, and a ledger with reserves of 10
    and 0.2 XRP on which the account owns 112 objects and holds 43.6 XRP. *)
Definition small_lib : Lib :=
  {| hmac_sha256 := hmac_sha256 lib; toString_base64 := toString_base64 lib;
     chalk_green := chalk_green lib; chalk_yellow := chalk_yellow lib;
     chalk_blue := chalk_blue lib; table := table lib; humanize := humanize lib;
     Number_of_string := Number_of_string lib;
     String_of_Number := String_of_Number lib;
     isValidSeed := isValidSeed lib; deriveKeypair := deriveKeypair lib;
     deriveAddress := deriveAddress lib; connectorList := connectorList lib;
     rippledList := rippledList lib; plugin_path := plugin_path lib;
     OUTGOING_CHANNEL_DEFAULT_AMOUNT := 10 |}.

Definition fractional_world : World :=
  {| random_floor := random_floor world; randomBytes := randomBytes world;
     prompt_input := prompt_input world; prompt_checkbox := prompt_checkbox world;
     fetch_faucet := fetch_faucet world; api_connect := api_connect world;
     api_getAccountInfo := fun _ _ _ => Ok (mkAccountInfo "43.6" 112);
     api_getServerInfo := fun _ _ => Ok (mkServerInfo (mkValidatedLedger "10" "0.2"));
     request_account_channels := request_account_channels world;
     request_subscribe := request_subscribe world;
     submitter_submit := submitter_submit world;
     plugin_connect := plugin_connect world; plugin_sendMoney := plugin_sendMoney world;
     Date_now := Date_now world |}.

(** The session used in the examples, and a ledger that rejects
    subscriptions. *)
Definition session : XrpUplink := new_XrpUplink cfg.

Definition deaf_world : World := with_subscribe (Fail subscribe_error) world.

End Sample.

(** * The rest of the module: commands, operation sequences, footprints *)

(** ** Kinds of events *)

Definition count (f : event -> bool) (tr : trace) : nat := List.length (filter f tr).

Definition is_console (e : event) : bool :=
  match e with EvConsoleLog _ | EvConsoleError _ => true | _ => false end.

(** Queries that change nothing on the ledger, and clock readings. *)
Definition is_read (e : event) : bool :=
  match e with
  | EvGetAccountInfo _ _ _ | EvGetServerInfo _ _ | EvAccountChannels _ _ _
  | EvDateNow _ => true
  | _ => false
  end.

Definition is_submit (e : event) : bool :=
  match e with EvSubmit _ _ _ _ => true | _ => false end.

Definition is_checkbox (e : event) : bool :=
  match e with EvCheckbox _ _ => true | _ => false end.

Definition is_prompt (e : event) : bool :=
  match e with EvPrompt _ _ => true | _ => false end.

Definition is_plugin (e : event) : bool :=
  match e with EvPluginConnect _ | EvPluginSendMoney _ _ => true | _ => false end.

Definition is_date_now (e : event) : bool :=
  match e with EvDateNow _ => true | _ => false end.

(** What [validateAddress] may ask of the ledger. *)
Definition is_validation (e : event) : bool :=
  match e with
  | EvConnect _ _ | EvGetAccountInfo _ _ _ | EvGetServerInfo _ _ => true
  | _ => false
  end.

Definition prompted_names (evs : list event) : list string :=
  flat_map (fun e => match e with EvPrompt name _ => [name] | _ => [] end) evs.

(** ** Predicates kept by a computation *)

(** [m] keeps [P]: if [P] holds of the receiver and the history before the
    call, it holds of them after it, however the call ended. *)
Definition preserves {T A : Type} (P : T -> trace -> Prop) (m : M T A) : Prop :=
  forall this tr, P this tr -> P (this_after (m this tr)) (trace_after (m this tr)).

(** [P] is not disturbed by appending an event of kind [kind]. *)
Definition closed_under {T : Type} (P : T -> trace -> Prop) (kind : event -> bool) : Prop :=
  forall this tr e, kind e = true -> P this tr -> P this (tr ++ [e])%list.

(** [P] does not look at the receiver. *)
Definition trace_only {T : Type} (P : T -> trace -> Prop) : Prop :=
  forall this this' tr, P this tr -> P this' tr.

(** The history grew from [tr0] by events of kind [kind] only. *)
Definition grew_by {T : Type} (kind : event -> bool) (tr0 : trace) : T -> trace -> Prop :=
  fun _ tr => exists evs, tr = (tr0 ++ evs)%list /\ forallb kind evs = true.

(** Anything but the two requests a session makes lazily. *)
Definition is_neutral (e : event) : bool := negb (is_connect e) && negb (is_subscribe e).

Definition has_api (this : XrpUplink) : bool :=
  match api this with Some _ => true | None => false end.

(** The two lazily set members of a session agree with the history: the
    ledger was connected to once if [this.api] is set and never otherwise,
    and likewise for [this.subscribed] and the subscribe request; [config]
    and [pluginOpts] are those the session was created with. *)
Definition session_inv (cfg : UplinkConfig) (tr0 : trace) (this : XrpUplink) (tr : trace)
  : Prop :=
  config this = cfg
  /\ pluginOpts this = options cfg
  /\ count is_connect tr
     = (count is_connect tr0 + if has_api this then 1 else 0)%nat
  /\ subscribe_count tr
     = (subscribe_count tr0 + if subscribed this then 1 else 0)%nat
  /\ (api this = None -> subscribed this = false).

(** ** The [commands] table and sequences of method calls *)

Inductive operation :=
| OpPrintChannels
| OpCleanupChannels
| OpTopup (amount : string)
| OpListChannels
| OpRippleApi
| OpSubmitter.

Definition run_operation (L : Lib) (W : World) (op : operation) : M XrpUplink unit :=
  match op with
  | OpPrintChannels => printChannels L W
  | OpCleanupChannels => cleanupChannels L W
  | OpTopup amount => topup W amount
  | OpListChannels => _listChannels W ;; ret tt
  | OpRippleApi => _rippleApi W ;; ret tt
  | OpSubmitter => _submitter W ;; ret tt
  end.

(** Method calls made one after the other on the same instance, whatever
    each of them returned or threw. *)
Fixpoint run_operations (L : Lib) (W : World) (ops : list operation)
         (this : XrpUplink) (tr : trace) : XrpUplink * trace :=
  match ops with
  | [] => (this, tr)
  | op :: rest =>
      let r := run_operation L W op this tr in
      run_operations L W rest (this_after r) (trace_after r)
  end.

(** An entry of [commands]; [handler] gets the configuration and the
    [amount] argument (used by [topup] only). *)
Record Command := mkCommand {
  command : string;
  describe : string;
  demands_amount : bool;
  handler : UplinkConfig -> string -> trace -> Run XrpUplink unit
}.

Definition info_command (L : Lib) (W : World) : Command :=
  mkCommand "info" "Get info about your XRP account and payment channels" false
            (fun config _ => printChannels L W (makeUplink config)).

Definition cleanup_command (L : Lib) (W : World) : Command :=
  mkCommand "cleanup" "Clean up unused payment channels" false
            (fun config _ => cleanupChannels L W (makeUplink config)).

Definition topup_command (W : World) : Command :=
  mkCommand "topup" "Pre-fund your balance with connector" true
            (fun config amount => topup W amount (makeUplink config)).

Definition commands (L : Lib) (W : World) : list Command :=
  [info_command L W; cleanup_command L W; topup_command W].

(** ** More concrete worlds *)

Module Sample2.

(** A ledger on which the account owns no channel. *)
Definition no_channels : World :=
  {| random_floor := random_floor Sample.world; randomBytes := randomBytes Sample.world;
     prompt_input := prompt_input Sample.world;
     prompt_checkbox := prompt_checkbox Sample.world;
     fetch_faucet := fetch_faucet Sample.world; api_connect := api_connect Sample.world;
     api_getAccountInfo := api_getAccountInfo Sample.world;
     api_getServerInfo := api_getServerInfo Sample.world;
     request_account_channels := fun _ _ _ => Ok [];
     request_subscribe := request_subscribe Sample.world;
     submitter_submit := submitter_submit Sample.world;
     plugin_connect := plugin_connect Sample.world;
     plugin_sendMoney := plugin_sendMoney Sample.world;
     Date_now := Date_now Sample.world |}.

(** The faucet is down. *)
Definition no_faucet : World :=
  {| random_floor := random_floor Sample.world; randomBytes := randomBytes Sample.world;
     prompt_input := prompt_input Sample.world;
     prompt_checkbox := prompt_checkbox Sample.world;
     fetch_faucet := fun _ => Fail (Js.mkError "FetchError" "ECONNREFUSED");
     api_connect := api_connect Sample.world;
     api_getAccountInfo := api_getAccountInfo Sample.world;
     api_getServerInfo := api_getServerInfo Sample.world;
     request_account_channels := request_account_channels Sample.world;
     request_subscribe := request_subscribe Sample.world;
     submitter_submit := submitter_submit Sample.world;
     plugin_connect := plugin_connect Sample.world;
     plugin_sendMoney := plugin_sendMoney Sample.world;
     Date_now := Date_now Sample.world |}.

(** The ledger answers the connection and the account lookup, but not the
    request for the server's reserves. *)
Definition no_server_info : World :=
  {| random_floor := random_floor Sample.world; randomBytes := randomBytes Sample.world;
     prompt_input := prompt_input Sample.world;
     prompt_checkbox := prompt_checkbox Sample.world;
     fetch_faucet := fetch_faucet Sample.world; api_connect := api_connect Sample.world;
     api_getAccountInfo := api_getAccountInfo Sample.world;
     api_getServerInfo := fun _ _ => Fail (Js.mkError "TimeoutError" "timeout");
     request_account_channels := request_account_channels Sample.world;
     request_subscribe := request_subscribe Sample.world;
     submitter_submit := submitter_submit Sample.world;
     plugin_connect := plugin_connect Sample.world;
     plugin_sendMoney := plugin_sendMoney Sample.world;
     Date_now := Date_now Sample.world |}.

(** A user who accepts every default and types nothing where there is
    none. *)
Definition silent_user : World :=
  {| random_floor := random_floor Sample.world; randomBytes := randomBytes Sample.world;
     prompt_input := fun _ _ dflt => match dflt with Some d => d | None => "" end;
     prompt_checkbox := prompt_checkbox Sample.world;
     fetch_faucet := fetch_faucet Sample.world; api_connect := api_connect Sample.world;
     api_getAccountInfo := api_getAccountInfo Sample.world;
     api_getServerInfo := api_getServerInfo Sample.world;
     request_account_channels := request_account_channels Sample.world;
     request_subscribe := request_subscribe Sample.world;
     submitter_submit := submitter_submit Sample.world;
     plugin_connect := plugin_connect Sample.world;
     plugin_sendMoney := plugin_sendMoney Sample.world;
     Date_now := Date_now Sample.world |}.

End Sample2.

(** ** Encodings *)

(** What [base64url] does to one character that is not padding. *)
Definition url_safe (c : ascii) : ascii :=
  if Ascii.eqb c "+" then "-"%char else if Ascii.eqb c "/" then "_"%char else c.

Definition is_padding (c : ascii) : bool := Ascii.eqb c "=".

Definition is_lower_hex (c : ascii) : bool :=
  existsb (Ascii.eqb c) (list_ascii_of_string "0123456789abcdef").

(** ** Reading [res] and the fields *)

Definition is_exit (e : event) : bool :=
  match e with EvProcessExit _ => true | _ => false end.

(** [res[name]] for the four members the loop fills. *)
Definition answer (res : Answers) (name : string) : string :=
  if name =? "parent" then res_parent res
  else if name =? "name" then res_name res
  else if name =? "secret" then res_secret res
  else res_xrpServer res.

(** The literal [fields] array of [configure]. *)
Definition fields (L : Lib) (W : World) (testnet : bool) : list Field :=
  [ field_parent (pick_server W 0 (if testnet then test (connectorList L)
                                   else live (connectorList L)));
    field_name L W;
    field_secret L testnet;
    field_xrpServer (pick_server W 1 (if testnet then test (rippledList L)
                                      else live (rippledList L))) ].

(** The loop's test [advanced || field.default === undefined]. *)
Definition asks (advanced : bool) (f : Field) : bool :=
  advanced || match f_default f with None => true | Some _ => false end.

Definition is_set_timeout (e : event) : bool :=
  match e with EvSetTimeout _ => true | _ => false end.

(** Everything [configure] can do to the outside, by network. *)
Definition configure_kind (testnet : bool) (e : event) : bool :=
  is_prompt e || is_validation e || is_console e || is_exit e
  || (testnet && (is_fetch_faucet e || is_set_timeout e)).

(** * The earlier, class-based [index.js] ([XrpUplink.buildConfig]) *)

Module Legacy.

Definition DEFAULT_RIPPLED : string := "wss://s1.ripple.com".
Definition DEFAULT_TESTNET_RIPPLED : string := "wss://s.altnet.rippletest.net:51233".

(** The [options] member of what [buildConfig] returns; [None] is
    [undefined]. *)
Record Options := mkOptions {
  server : string;
  secret : string;
  address : option string;
  xrpServer : string
}.

Record Config := mkConfig {
  relation : string;
  plugin : string;
  assetCode : string;
  assetScale : Z;
  balance : Balance;
  options : Options
}.

(** The answers object of the single [inquirer.prompt] call. *)
Record Res := mkRes {
  parent : string;
  name : string;
  res_secret : string;
  res_address : string;
  res_xrpServer : string
}.

(** [inquirer.prompt([...])]: the five questions, asked in array order. *)
Definition prompt_all {T} (L : Lib) (W : World) (testnet : bool) : M T Res :=
  let servers := if testnet then test (connectorList L) else live (connectorList L) in
  let defaultParent := pick_server W 0 servers in
  p <- inquirer_prompt W (mkField "input" "parent" "BTP host of parent connector:"
                                  defaultParent (fun _ => true)) ;;
  n <- inquirer_prompt W
         (mkField "input" "name"
                  "Name to assign to this channel. Must be changed if other parameters are changed."
                  (Some "") (fun _ => true)) ;;
  s <- inquirer_prompt W
         (mkField "input" "secret"
                  ("XRP secret" ++ (if testnet then " (optional):" else ":"))
                  None
                  (* Secret is optional when testnet is set. *)
                  (fun secret => testnet || negb (String.length secret =? 0)%nat)) ;;
  a <- inquirer_prompt W (mkField "input" "address" "XRP address (optional):"
                                  None (fun _ => true)) ;;
  x <- inquirer_prompt W
         (mkField "input" "xrpServer" "Rippled server:"
                  (Some (if testnet then DEFAULT_TESTNET_RIPPLED else DEFAULT_RIPPLED))
                  (fun _ => true)) ;;
  ret (mkRes p n s a x).

(** [static async buildConfig (inquirer, { testnet })].  Inside the
    [if] block, [const res] is a new binding for the fetch response: the
    assignments to [res.address] and [res.secret] there set members of the
    response object and leave the answers untouched. *)
Definition buildConfig (L : Lib) (W : World) (testnet : bool) : M unit Config :=
  res <- prompt_all L W testnet ;;
  let btpName := Js.or_else (name res) "" in
  let btpSecret :=
    toString_hex
      (hmac L (Buf (hmac L (Str parentBtpHmacKey) (Str (parent res ++ btpName))))
            (Str (res_secret res))) in
  let btpServer := "btp+wss://" ++ btpName ++ ":" ++ btpSecret ++ "@" ++ parent res in
  (if testnet && negb (Js.truthy (res_secret res)) then
     console_log ["acquiring testnet account..."] ;;
     json <- await (fetch_faucet W) EvFetchFaucet ;;
     (* the response object now has [address] and [secret] members *)
     let response_address := faucet_address json in
     console_log ["got testnet address " ++ dquote ++ response_address ++ dquote] ;;
     console_log ["waiting for testnet API to fund address..."] ;;
     emit (EvSetTimeout 10000)
   else ret tt) ;;
  ret {| relation := "parent";
         plugin := plugin_path L;
         assetCode := "XRP";
         assetScale := 6;
         balance := {| minimum := "-Infinity";
                       maximum := "20000";
                       settleThreshold := "5000";
                       settleTo := "10000" |};
         options := {| server := btpServer;
                       secret := res_secret res;
                       address := if Js.truthy (res_address res)
                                  then Some (res_address res) else None;
                       xrpServer := res_xrpServer res |} |}.

End Legacy.

(** * Properties *)

(** ** Sanity checks of the helpers *)

Example comma_1234567 : comma "1234567" = "1,234,567".
Proof. reflexivity. Qed.

Example comma_100 : comma "100" = "100".
Proof. reflexivity. Qed.

Example comma_1000 : comma "1000" = "1,000".
Proof. reflexivity. Qed.

Example comma_empty : comma "" = "".
Proof. reflexivity. Qed.

Example toString_hex_bytes :
  toString_hex [Byte.x00; Byte.x0f; Byte.xa5; Byte.xff] = "000fa5ff".
Proof. reflexivity. Qed.


Ltac Zify.zify_post_hook ::= Z.div_mod_to_equations.


Lemma append_empty_r (s : string) : s ++ "" = s.
Proof. induction s as [|c s IH]; simpl; [reflexivity | now rewrite IH]. Qed.

Lemma join_empty_cons (x : string) (xs : list string) :
  Js.join_empty (x :: xs) = x ++ Js.join_empty xs.
Proof.
  unfold Js.join_empty. destruct xs as [|y ys]; simpl.
  - now rewrite append_empty_r.
  - reflexivity.
Qed.

Lemma chars_append (s t : string) : chars (s ++ t) = (chars s ++ chars t)%list.
Proof. induction s as [|c s IH]; simpl; [reflexivity | now rewrite IH]. Qed.

Lemma chars_length (s : string) : List.length (chars s) = String.length s.
Proof. induction s as [|c s IH]; simpl; [reflexivity | now rewrite IH]. Qed.

Lemma chars_inj (s t : string) : chars s = chars t -> s = t.
Proof.
  intros H. rewrite <- (string_of_list_ascii_of_string s),
    <- (string_of_list_ascii_of_string t). unfold chars in H. now rewrite H.
Qed.

Ltac nat_bool :=
  repeat match goal with
         | |- context [(?a =? ?b)%nat] => destruct (Nat.eqb_spec a b)
         | |- context [(?a <? ?b)%nat] => destruct (Nat.ltb_spec a b)
         | |- context [(?a <=? ?b)%nat] => destruct (Nat.leb_spec a b)
         end;
  cbn [andb orb negb]; try reflexivity; try discriminate; try lia;
  try (exfalso; lia).

(** An indexed map that appends a separator where [cond] holds, started at
    index [i] on the suffix [s] of a string of length [n]. *)
Lemma indexed_loop_suffix (n : nat) (cond : nat -> bool) (s : string) (i : nat) :
  n = (i + String.length s)%nat ->
  (forall j, (i <= j < n)%nat ->
             cond j = ((S (n - 1 - j) mod 3 =? 1) && (0 <? n - 1 - j))%nat) ->
  chars (Js.join_empty
           (Js.map_indexed (fun e j => if cond j then e ++ "," else e)
                           i (Js.split_chars s)))
  = sep_suffix (chars s).
Proof.
  revert i. induction s as [|c s IH]; intros i Hn Hc; [reflexivity|].
  cbn [Js.split_chars Js.map_indexed]. rewrite join_empty_cons, chars_append.
  cbn [String.length] in Hn.
  rewrite (IH (S i)) by (try lia; intros j Hj; apply Hc; lia).
  cbn [chars list_ascii_of_string sep_suffix]. fold (chars s). rewrite chars_length.
  rewrite (Hc i) by lia.
  replace (n - 1 - i)%nat with (String.length s) by lia.
  destruct ((S (String.length s) mod 3 =? 1)%nat && (0 <? String.length s)%nat);
    reflexivity.
Qed.

Lemma comma_chars (a : string) : chars (comma a) = sep_suffix (chars a).
Proof.
  unfold comma.
  apply (indexed_loop_suffix (String.length a)
           (fun j => (((String.length a - j) mod 3 =? 1) && (j <? String.length a - 1))%nat));
    [reflexivity|].
  intros j Hj. replace (String.length a - j)%nat with (S (String.length a - 1 - j)) by lia.
  nat_bool.
Qed.

Lemma comma_spec_chars (a : string) : chars (comma_spec a) = sep_suffix (chars a).
Proof.
  unfold comma_spec.
  apply (indexed_loop_suffix (String.length a) (separator_after (String.length a)));
    [reflexivity|].
  intros j Hj. unfold separator_after. nat_bool.
Qed.

Lemma group3_snoc (r : list ascii) (e : ascii) :
  group3 (r ++ [e])%list =
  if ((0 <? List.length r) && (List.length r mod 3 =? 0))%nat
  then (group3 r ++ [","%char; e])%list
  else (group3 r ++ [e])%list.
Proof.
  remember (List.length r) as n eqn:Hn. revert r Hn.
  induction n as [n IH] using lt_wf_ind. intros r Hn.
  destruct r as [|x [|y [|z [|w more]]]]; try (subst n; reflexivity).
  change (group3 ((x :: y :: z :: w :: more) ++ [e])%list)
    with (x :: y :: z :: ","%char :: group3 ((w :: more) ++ [e]))%list.
  rewrite (IH (List.length (w :: more))) by (subst n; simpl; lia || reflexivity).
  change (group3 (x :: y :: z :: w :: more))
    with (x :: y :: z :: ","%char :: group3 (w :: more))%list.
  replace ((0 <? n) && (n mod 3 =? 0))%nat
    with ((0 <? List.length (w :: more)) && (List.length (w :: more) mod 3 =? 0))%nat.
  - destruct ((0 <? List.length (w :: more)) && (List.length (w :: more) mod 3 =? 0))%nat;
      reflexivity.
  - subst n. cbn [List.length]. nat_bool.
Qed.

Lemma sep_suffix_group3 (l : list ascii) : sep_suffix l = rev (group3 (rev l)).
Proof.
  induction l as [|e rest IH]; [reflexivity|].
  cbn [rev sep_suffix]. rewrite group3_snoc, length_rev, IH.
  replace ((S (List.length rest) mod 3 =? 1) && (0 <? List.length rest))%nat
    with ((0 <? List.length rest) && (List.length rest mod 3 =? 0))%nat by nat_bool.
  destruct ((0 <? List.length rest) && (List.length rest mod 3 =? 0))%nat;
    rewrite rev_app_distr; reflexivity.
Qed.

Lemma sep_suffix_short (l : list ascii) :
  (List.length l <= 3)%nat -> sep_suffix l = l.
Proof.
  induction l as [|e rest IH]; intros Hlen; [reflexivity|].
  cbn [sep_suffix List.length] in *. rewrite IH by lia.
  replace ((S (List.length rest) mod 3 =? 1) && (0 <? List.length rest))%nat
    with false by nat_bool.
  reflexivity.
Qed.

Lemma sep_suffix_hd (l : list ascii) : hd_error (sep_suffix l) = hd_error l.
Proof.
  destruct l as [|e rest]; [reflexivity|]. cbn [sep_suffix].
  destruct ((S (List.length rest) mod 3 =? 1) && (0 <? List.length rest))%nat;
    reflexivity.
Qed.

Lemma sep_suffix_nonempty (e : ascii) (rest : list ascii) :
  sep_suffix (e :: rest) <> [].
Proof.
  cbn [sep_suffix].
  destruct ((S (List.length rest) mod 3 =? 1) && (0 <? List.length rest))%nat;
    discriminate.
Qed.

Lemma sep_suffix_cons (e : ascii) (rest : list ascii) :
  sep_suffix (e :: rest) =
  if ((S (List.length rest) mod 3 =? 1) && (0 <? List.length rest))%nat
  then e :: ","%char :: sep_suffix rest
  else e :: sep_suffix rest.
Proof. reflexivity. Qed.

Lemma sep_suffix_last (l : list ascii) (d : ascii) :
  last (sep_suffix l) d = last l d.
Proof.
  induction l as [|e rest IH]; [reflexivity|].
  destruct rest as [|e' rest']; [reflexivity|].
  assert (Hne := sep_suffix_nonempty e' rest').
  change (last (e :: e' :: rest') d) with (last (e' :: rest') d).
  rewrite <- IH, (sep_suffix_cons e).
  destruct (sep_suffix (e' :: rest')) as [|t0 t']; [congruence|].
  destruct ((S (List.length (e' :: rest')) mod 3 =? 1)
            && (0 <? List.length (e' :: rest')))%nat; reflexivity.
Qed.

Lemma remove_commas_sep_suffix (l : list ascii) :
  remove_commas (sep_suffix l) = remove_commas l.
Proof.
  induction l as [|e rest IH]; [reflexivity|].
  cbn [sep_suffix].
  destruct ((S (List.length rest) mod 3 =? 1) && (0 <? List.length rest))%nat;
    unfold remove_commas in *; cbn [filter]; rewrite ?Ascii.eqb_refl;
    cbn [negb]; rewrite IH; reflexivity.
Qed.

Lemma remove_commas_digits (l : list ascii) :
  forallb is_digit l = true -> remove_commas l = l.
Proof.
  induction l as [|e rest IH]; [reflexivity|].
  cbn [forallb]. intros [He Hr]%andb_true_iff.
  unfold remove_commas in *. cbn [filter].
  destruct (Ascii.eqb_spec e ","%char) as [->|_]; [discriminate He|].
  cbn [negb]. now rewrite IH.
Qed.

Lemma last_cons_In {A} (l : list A) (y d : A) : In (last (y :: l) d) (y :: l).
Proof.
  revert y. induction l as [|x l IH]; intros y; [left; reflexivity|].
  right. apply IH.
Qed.

Lemma comma_thousands_separated (a : string) :
  is_digits a = true -> a <> "" -> thousands_separated a (comma a).
Proof.
  intros Hd Hne. unfold is_digits in Hd.
  assert (Hc := comma_chars a).
  repeat split.
  - apply chars_inj. now rewrite Hc, comma_spec_chars.
  - now rewrite Hc, sep_suffix_group3.
  - now rewrite Hc, remove_commas_sep_suffix, remove_commas_digits.
  - intros rest E. assert (Hh := sep_suffix_hd (chars a)).
    rewrite <- Hc, E in Hh. destruct a as [|c a']; [congruence|].
    cbn in Hh, Hd. injection Hh as <-. discriminate Hd.
  - intros front E. assert (Hl := sep_suffix_last (chars a) "0"%char).
    rewrite <- Hc, E, chars_append in Hl. cbn [chars list_ascii_of_string] in Hl.
    rewrite last_last in Hl.
    destruct a as [|c a']; [congruence|].
    assert (Hin : In (last (chars (String c a')) "0"%char) (chars (String c a'))).
    { apply last_cons_In. }
    rewrite <- Hl in Hin. rewrite forallb_forall in Hd.
    apply Hd in Hin. discriminate Hin.
  - intros Hlen. apply chars_inj. rewrite Hc. apply sep_suffix_short.
    now rewrite chars_length.
Qed.

(** ** Running the monad *)

Ltac munfold :=
  unfold console_log, console_error, of_reply in *;
  unfold bind, ret, throw, try_catch, get_this, set_this, emit, await, observe,
    process_exit in *;
  cbn [result this_after trace_after] in *.

(** ** Expiration labels *)

Example epoch_offset_is_2000 : wall_clock_ms 0 = (946684800 * 1000)%Z.
Proof. reflexivity. Qed.

(** C8.  A missing, null or zero expiration renders as the empty label;
    any other expiration is turned into wall-clock milliseconds
    [(expiration + 0x386D4380) * 1000] and renders as "ready to close" when
    that instant is not after the clock reading, and as "in" followed by the
    humanized distance to it when it lies strictly in the future. *)
Theorem formatChannelExpiration_label
        (L : Lib) (W : World) (T : Type) (this : T) (tr : trace) (exp : Expiration) :
  let r := formatChannelExpiration L W exp this tr in
  let now := Date_now W tr in
  let now' := Date_now W (tr ++ [EvDateNow now])%list in
  (exp = ExpAbsent \/ exp = ExpNull \/ exp = ExpNum 0 -> result r = Normal "")
  /\ (forall n, exp = ExpNum n -> n <> 0%Z -> (wall_clock_ms n <= now)%Z ->
                result r = Normal (chalk_blue L "ready to close"))
  /\ (forall n, exp = ExpNum n -> n <> 0%Z -> (now < wall_clock_ms n)%Z ->
                result r = Normal (chalk_yellow L
                                     ("in " ++ humanize L (wall_clock_ms n - now')))).
Proof.
  cbv zeta. repeat split.
  - intros [->|[->| ->]]; reflexivity.
  - intros n -> Hn Hle. unfold formatChannelExpiration, wall_clock_ms in *.
    destruct n as [|p|p]; [congruence| |]; munfold;
      match goal with
      | |- context [(?a <=? ?b)%Z] => destruct (Z.leb_spec a b); [reflexivity | lia]
      end.
  - intros n -> Hn Hlt. unfold formatChannelExpiration, wall_clock_ms in *.
    destruct n as [|p|p]; [congruence| |]; munfold;
      match goal with
      | |- context [(?a <=? ?b)%Z] => destruct (Z.leb_spec a b); [lia | reflexivity]
      end.
Qed.

Lemma formatChannelExpiration_label_witness :
  ExpNum 600000000 = ExpNum 600000000
  /\ 600000000%Z <> 0%Z
  /\ (wall_clock_ms 600000000 <= Date_now Sample.world [])%Z
  /\ result (formatChannelExpiration Sample.lib Sample.world (ExpNum 600000000) tt [])
     = Normal "ready to close".
Proof.
  split; [reflexivity|]. split; [discriminate|]. split; [vm_compute; discriminate|].
  destruct (formatChannelExpiration_label Sample.lib Sample.world unit tt []
              (ExpNum 600000000)) as (_ & Hpast & _).
  apply (Hpast 600000000%Z); [reflexivity | discriminate | vm_compute; discriminate].
Defined.

Lemma formatChannelExpiration_returns
      (L : Lib) (W : World) (T : Type) (this : T) (tr : trace) (exp : Expiration) :
  exists label evs,
    formatChannelExpiration L W exp this tr = mkRun (Normal label) this (tr ++ evs)%list.
Proof.
  unfold formatChannelExpiration.
  destruct exp as [| |[|p|p]];
    try (exists "", []; munfold; now rewrite app_nil_r);
    munfold;
    match goal with
    | |- context [(?a <=? ?b)%Z] => destruct (a <=? b)%Z
    end;
    eexists; eexists; try rewrite <- app_assoc; reflexivity.
Qed.

(** C9.  [comma] separates thousands: for every non-empty digit string it
    puts a separator after exactly the digits followed by a positive multiple
    of three digits (grouping in threes from the right), adds nothing else,
    produces no leading or trailing separator and returns strings of at most
    three digits unchanged; and the amount and balance columns of a channel
    row are the channel's amount and balance passed through [comma]. *)
Theorem channel_amounts_thousands_separated :
  (forall a, is_digits a = true -> a <> "" -> thousands_separated a (comma a))
  /\ (forall (L : Lib) (W : World) (T : Type) (this : T) (tr : trace)
             (c : Channel) (i : nat),
         exists label,
           result (formatChannelToRow L W c i this tr)
           = Normal [ Js.String_of_index i;
                      substring 0 8 (channel_id c) ++ "...";
                      destination_account c;
                      comma (amount c);
                      comma (balance c);
                      label ]).
Proof.
  split; [exact comma_thousands_separated|].
  intros L W T this tr c i. unfold formatChannelToRow.
  destruct (formatChannelExpiration_returns L W T this tr (expiration c))
    as (label & evs & E).
  exists label. munfold. rewrite E. reflexivity.
Qed.

Lemma channel_amounts_thousands_separated_witness :
  is_digits "1234567" = true
  /\ "1234567" <> ""
  /\ thousands_separated "1234567" (comma "1234567")
  /\ comma "1234567" = "1,234,567".
Proof.
  split; [reflexivity|]. split; [discriminate|]. split; [|reflexivity].
  apply (proj1 channel_amounts_thousands_separated "1234567");
    [reflexivity | discriminate].
Defined.

(** ** Account validation *)

(** The IEEE comparison read from the other side. *)
Lemma SFcompare_swap (a b : spec_float) :
  SFcompare b a = option_map CompOpp (SFcompare a b).
Proof.
  destruct a as [sa|sa| |sa ma ea], b as [sb|sb| |sb mb eb];
    try reflexivity;
    try (destruct sa; reflexivity);
    try (destruct sb; reflexivity);
    try (destruct sa, sb; reflexivity).
  cbn [SFcompare option_map].
  rewrite (Z.compare_antisym ea eb).
  change (Pos.compare_cont Eq mb ma) with (Pos.compare mb ma).
  change (Pos.compare_cont Eq ma mb) with (Pos.compare ma mb).
  rewrite (Pos.compare_antisym ma mb).
  destruct sa, sb; try reflexivity;
    destruct (ea ?= eb)%Z; cbn [CompOpp]; try reflexivity;
    destruct (ma ?= mb)%positive; reflexivity.
Qed.

(** [b <= a] excludes [a < b]. *)
Lemma leb_not_ltb (a b : Js.number) :
  (b <=? a)%number = true -> (a <? b)%number = false.
Proof.
  unfold Js.leb, Js.ltb, SFleb, SFltb. rewrite (SFcompare_swap a b).
  destruct (SFcompare a b) as [[| |]|]; cbn [option_map CompOpp];
    intros H; try reflexivity; discriminate H.
Qed.

(** What [validateAddress] does once the connection is up and the account
    and the reserves were delivered. *)
Lemma validateAddress_checked
      (L : Lib) (W : World) (T : Type) (this : T) (tr : trace)
      (server address : string) (info : AccountInfo) (ledger : ValidatedLedger) :
  api_connect W tr server = Ok tt ->
  api_getAccountInfo W (tr ++ [EvConnect server (Ok tt)])%list server address = Ok info ->
  api_getServerInfo W ((tr ++ [EvConnect server (Ok tt)])
                         ++ [EvGetAccountInfo server address (Ok info)])%list server
  = Ok (mkServerInfo ledger) ->
  result (validateAddress L W server address this tr)
  = if (Number_of_string L (xrpBalance info) <? minBalance_of L ledger info)%number
    then Thrown (Js.new_Error
                   ("account balance is too low (must be at least "
                    ++ String_of_Number L (minBalance_of L ledger info) ++ ")"))
    else Normal tt.
Proof.
  intros Hc Ha Hs. unfold validateAddress. munfold. cbn [api_server].
  rewrite Hc. cbn [result this_after trace_after].
  rewrite Ha. cbn [result this_after trace_after].
  rewrite Hs. cbn [result this_after trace_after validatedLedger].
  destruct (Js.ltb _ _); reflexivity.
Qed.

(** C2.  With the account found and the reserves known, validation fails
    with the balance-too-low error carrying the computed minimum exactly when
    the current balance is below
    [baseReserve + incrementReserve * ownerCount + incrementReserve
     + OUTGOING_CHANNEL_DEFAULT_AMOUNT + 1]; at or above it validation
    succeeds.  The sum and the comparison are those of JavaScript numbers:
    every [+] and [*] rounds to binary64, in the order written, and a [NaN]
    on either side is neither below nor at or above, in which case validation
    succeeds. *)
Theorem validateAddress_insufficient_balance_iff
        (L : Lib) (W : World) (T : Type) (this : T) (tr : trace)
        (server address : string) (info : AccountInfo) (ledger : ValidatedLedger) :
  api_connect W tr server = Ok tt ->
  api_getAccountInfo W (tr ++ [EvConnect server (Ok tt)])%list server address = Ok info ->
  api_getServerInfo W ((tr ++ [EvConnect server (Ok tt)])
                         ++ [EvGetAccountInfo server address (Ok info)])%list server
  = Ok (mkServerInfo ledger) ->
  let baseReserve := Number_of_string L (reserveBaseXRP ledger) in
  let incrementReserve := Number_of_string L (reserveIncrementXRP ledger) in
  let minBalance :=
    (baseReserve + incrementReserve * ownerCount info + incrementReserve
     + OUTGOING_CHANNEL_DEFAULT_AMOUNT L + 1)%number in
  let currentBalance := Number_of_string L (xrpBalance info) in
  let InsufficientBalance :=
    Js.new_Error ("account balance is too low (must be at least "
                  ++ String_of_Number L minBalance ++ ")") in
  let r := validateAddress L W server address this tr in
  (result r = Thrown InsufficientBalance <-> (currentBalance <? minBalance)%number = true)
  /\ ((exists e, result r = Thrown e) <-> (currentBalance <? minBalance)%number = true)
  /\ ((minBalance <=? currentBalance)%number = true -> result r = Normal tt)
  /\ (result r = Normal tt <-> (currentBalance <? minBalance)%number = false).
Proof.
  intros Hc Ha Hs. cbv zeta.
  rewrite (validateAddress_checked L W T this tr server address info ledger Hc Ha Hs).
  unfold minBalance_of.
  split; [|split; [|split]].
  - destruct (Js.ltb _ _); split; intros H; try reflexivity; discriminate H.
  - destruct (Js.ltb _ _); split; intros H; try reflexivity.
    + eexists; reflexivity.
    + destruct H as [e H]. discriminate H.
    + discriminate H.
  - intros H. rewrite (leb_not_ltb _ _ H). reflexivity.
  - destruct (Js.ltb _ _); split; intros H; try reflexivity; discriminate H.
Qed.

(** On a ledger with reserves of 10 and 0.2 XRP, an account owning 112
    objects and holding 43.6 XRP is refused when channels take 10 XRP: the
    sum of the written terms is 43.6, the numbers add up to
    43.60000000000001. *)
Lemma validateAddress_insufficient_balance_iff_witness :
  api_connect Sample.fractional_world [] "wss://live.example" = Ok tt
  /\ api_getAccountInfo Sample.fractional_world [EvConnect "wss://live.example" (Ok tt)]
                        "wss://live.example" "rAccount"
     = Ok (mkAccountInfo "43.6" 112)
  /\ api_getServerInfo Sample.fractional_world
       [EvConnect "wss://live.example" (Ok tt);
        EvGetAccountInfo "wss://live.example" "rAccount" (Ok (mkAccountInfo "43.6" 112))]
       "wss://live.example"
     = Ok (mkServerInfo (mkValidatedLedger "10" "0.2"))
  /\ result (validateAddress Sample.small_lib Sample.fractional_world
                             "wss://live.example" "rAccount" tt [])
     = Thrown (Js.new_Error
                 "account balance is too low (must be at least 43.60000000000001)").
Proof.
  repeat (split; [reflexivity|]).
  apply (proj2 (proj1 (validateAddress_insufficient_balance_iff
                         Sample.small_lib Sample.fractional_world unit tt []
                         "wss://live.example" "rAccount"
                         (mkAccountInfo "43.6" 112) (mkValidatedLedger "10" "0.2")
                         eq_refl eq_refl eq_refl))).
  vm_compute. reflexivity.
Defined.

Example validateAddress_below_the_minimum :
  result (validateAddress Sample.lib Sample.world "wss://live.example" "rAccount" tt [])
  = Thrown (Js.new_Error "account balance is too low (must be at least 1000041)").
Proof. vm_compute. reflexivity. Qed.

Example validateAddress_at_the_minimum :
  result (validateAddress Sample.lib
            (Sample.with_account (Ok (mkAccountInfo "1000041" 3)) Sample.world)
            "wss://live.example" "rAccount" tt [])
  = Normal tt.
Proof. vm_compute. reflexivity. Qed.

(** A balance that is no number is not below the minimum. *)
Example validateAddress_balance_not_a_number :
  result (validateAddress Sample.lib
            (Sample.with_account (Ok (mkAccountInfo "n/a" 3)) Sample.world)
            "wss://live.example" "rAccount" tt [])
  = Normal tt.
Proof. vm_compute. reflexivity. Qed.

(** The numbers of the examples, as the runtime prints them. *)
Example numbers_round_as_the_runtime :
  Sample.string_of_number (Sample.number_of_string "0.2" * 112)%number
  = "22.400000000000002"
  /\ Sample.string_of_number
       (Sample.number_of_string "0.1" + Sample.number_of_string "0.2")%number
     = "0.30000000000000004"
  /\ Sample.string_of_number (Sample.number_of_string "43.6") = "43.6"
  /\ Sample.string_of_number (Sample.number_of_string "1000000000000000000000") = "1e+21"
  /\ Sample.string_of_number (Sample.number_of_string "9007199254740993")
     = "9007199254740992"
  /\ Sample.string_of_number (Sample.number_of_string "0.0000001") = "1e-7".
Proof. vm_compute. repeat split. Qed.

(** C6.  When the account lookup is answered with the ledger's
    [actNotFound], validation throws a new error whose message names the
    address and the server, and not the ledger's own error; any other error
    of the lookup is rethrown as it is.  Either way nothing further is asked
    of the ledger. *)
Theorem validateAddress_account_lookup_error
        (L : Lib) (W : World) (T : Type) (this : T) (tr : trace)
        (server address : string) (err : Js.Error) :
  api_connect W tr server = Ok tt ->
  api_getAccountInfo W (tr ++ [EvConnect server (Ok tt)])%list server address = Fail err ->
  let AccountNotFound :=
    Js.new_Error ("Address " ++ dquote ++ address ++ dquote
                  ++ " does not exist on " ++ server) in
  let r := validateAddress L W server address this tr in
  (Js.err_message err = "actNotFound" ->
     result r = Thrown AccountNotFound
     /\ AccountNotFound <> err
     /\ Js.err_message AccountNotFound <> "actNotFound")
  /\ (Js.err_message err <> "actNotFound" -> result r = Thrown err)
  /\ trace_after r = (tr ++ [EvConnect server (Ok tt);
                             EvGetAccountInfo server address (Fail err)])%list.
Proof.
  intros Hc Ha. cbv zeta.
  unfold validateAddress. munfold. cbn [api_server].
  rewrite Hc. cbn [result this_after trace_after].
  rewrite Ha. cbn [result this_after trace_after].
  destruct (String.eqb_spec (Js.err_message err) "actNotFound") as [E|E];
    cbn [negb result this_after trace_after].
  - repeat split.
    + intros Heq. rewrite <- Heq in E. discriminate E.
    + discriminate.
    + intros H. contradiction.
    + now rewrite <- app_assoc.
  - repeat split.
    + contradiction.
    + contradiction.
    + contradiction.
    + now rewrite <- app_assoc.
Qed.

Lemma validateAddress_account_lookup_error_witness :
  api_connect (Sample.with_account (Fail Sample.not_found_error) Sample.world)
              [] "wss://live.example" = Ok tt
  /\ api_getAccountInfo (Sample.with_account (Fail Sample.not_found_error) Sample.world)
                        [EvConnect "wss://live.example" (Ok tt)]
                        "wss://live.example" "rGhost"
     = Fail Sample.not_found_error
  /\ Js.err_message Sample.not_found_error = "actNotFound"
  /\ result (validateAddress Sample.lib
               (Sample.with_account (Fail Sample.not_found_error) Sample.world)
               "wss://live.example" "rGhost" tt [])
     = Thrown (Js.new_Error
                 ("Address " ++ dquote ++ "rGhost" ++ dquote
                  ++ " does not exist on wss://live.example")).
Proof.
  repeat (split; [reflexivity|]).
  apply (proj1 (validateAddress_account_lookup_error
                  Sample.lib
                  (Sample.with_account (Fail Sample.not_found_error) Sample.world)
                  unit tt [] "wss://live.example" "rGhost" Sample.not_found_error
                  eq_refl eq_refl)).
  reflexivity.
Defined.

(** ** The subscription flag of a session *)

Lemma subscribe_count_snoc (tr : trace) (e : event) :
  subscribe_count (tr ++ [e])%list
  = (subscribe_count tr + if is_subscribe e then 1 else 0)%nat.
Proof.
  unfold subscribe_count. rewrite filter_app, length_app. cbn [filter].
  destruct (is_subscribe e); reflexivity.
Qed.

(** One call on a session whose flag is already set: no subscribe request. *)
Lemma submitter_when_subscribed (W : World) (this : XrpUplink) (tr : trace) :
  subscribed this = true ->
  subscribe_count (trace_after (_submitter W this tr)) = subscribe_count tr
  /\ subscribed (this_after (_submitter W this tr)) = true.
Proof.
  intros Hs. unfold _submitter, _rippleApi. munfold.
  destruct (api this) as [a|]; cbn [result this_after trace_after].
  - rewrite Hs. cbn. split; [reflexivity | assumption].
  - destruct (api_connect W tr _) as [[]|e];
      cbn [result this_after trace_after set_api subscribed];
      rewrite ?Hs; cbn [negb result this_after trace_after set_api subscribed];
      rewrite subscribe_count_snoc; cbn [is_subscribe]; split; (lia || assumption).
Qed.

(** One call on a session whose flag is clear and whose connection step
    does not throw: exactly one subscribe request, and the flag is set
    whatever the request's outcome. *)
Lemma submitter_first_subscribe (W : World) (this : XrpUplink) (tr : trace) :
  subscribed this = false ->
  (api this = None -> api_connect W tr (xrpServer (pluginOpts this)) = Ok tt) ->
  subscribe_count (trace_after (_submitter W this tr)) = S (subscribe_count tr)
  /\ subscribed (this_after (_submitter W this tr)) = true.
Proof.
  intros Hs Hc. unfold _submitter, _rippleApi. munfold.
  destruct (api this) as [a|]; cbn [result this_after trace_after].
  - rewrite Hs. cbn [negb result this_after trace_after].
    destruct (request_subscribe W tr _ _) as [[]|e];
      cbn [result this_after trace_after set_subscribed subscribed];
      rewrite subscribe_count_snoc; cbn [is_subscribe]; split; (lia || reflexivity).
  - cbn [api_server]. rewrite (Hc eq_refl).
    cbn [result this_after trace_after set_api subscribed]. rewrite Hs.
    cbn [negb result this_after trace_after].
    destruct (request_subscribe W _ _ _) as [[]|e];
      cbn [result this_after trace_after set_subscribed subscribed];
      rewrite !subscribe_count_snoc; cbn [is_subscribe]; split; (lia || reflexivity).
Qed.

(** One call on a fresh session whose connection attempt throws: no
    subscribe request, the flag stays clear, but [this.api] is now set. *)
Lemma submitter_connect_fails (W : World) (this : XrpUplink) (tr : trace) (e : Js.Error) :
  subscribed this = false ->
  api this = None ->
  api_connect W tr (xrpServer (pluginOpts this)) = Fail e ->
  result (_submitter W this tr) = Thrown e
  /\ subscribe_count (trace_after (_submitter W this tr)) = subscribe_count tr
  /\ subscribed (this_after (_submitter W this tr)) = false
  /\ api (this_after (_submitter W this tr)) <> None.
Proof.
  intros Hs Ha Hc. unfold _submitter, _rippleApi. munfold.
  rewrite Ha. cbn [result this_after trace_after api_server]. rewrite Hc.
  cbn [result this_after trace_after set_api subscribed api].
  rewrite subscribe_count_snoc. cbn [is_subscribe].
  repeat split; (lia || assumption || discriminate).
Qed.

Lemma invoke_when_subscribed (W : World) (n : nat) (this : XrpUplink) (tr : trace) :
  subscribed this = true ->
  subscribe_count (snd (invoke_submitter W n this tr)) = subscribe_count tr
  /\ subscribed (fst (invoke_submitter W n this tr)) = true.
Proof.
  revert this tr. induction n as [|n IH]; intros this tr Hs;
    [cbn; split; [reflexivity | assumption]|].
  cbn [invoke_submitter].
  destruct (submitter_when_subscribed W this tr Hs) as [Hcount Hflag].
  destruct (IH _ (trace_after (_submitter W this tr)) Hflag) as [IHc IHf].
  split; [now rewrite IHc | assumption].
Qed.

Lemma invoke_first_subscribe (W : World) (n : nat) (this : XrpUplink) (tr : trace) :
  subscribed this = false ->
  (api this = None -> api_connect W tr (xrpServer (pluginOpts this)) = Ok tt) ->
  subscribe_count (snd (invoke_submitter W (S n) this tr)) = S (subscribe_count tr).
Proof.
  intros Hs Hc. cbn [invoke_submitter].
  destruct (submitter_first_subscribe W this tr Hs Hc) as [Hcount Hflag].
  destruct (invoke_when_subscribed W n _ (trace_after (_submitter W this tr)) Hflag)
    as [Hn _].
  now rewrite Hn.
Qed.

(** Whatever the ledger does, a session never subscribes twice. *)
Lemma invoke_at_most_once (W : World) (n : nat) (this : XrpUplink) (tr : trace) :
  subscribed this = false ->
  (subscribe_count (snd (invoke_submitter W n this tr)) <= S (subscribe_count tr))%nat
  /\ ((2 <= n)%nat ->
      subscribe_count (snd (invoke_submitter W n this tr)) = S (subscribe_count tr)).
Proof.
  intros Hs. destruct n as [|n]; [cbn [invoke_submitter snd]; split; lia|].
  destruct (api this) as [a|] eqn:Ha.
  - rewrite invoke_first_subscribe by (assumption || congruence). split; lia.
  - destruct (api_connect W tr (xrpServer (pluginOpts this))) as [[]|e] eqn:Hc.
    + rewrite invoke_first_subscribe by (assumption || auto). split; lia.
    + destruct (submitter_connect_fails W this tr e Hs Ha Hc) as (_ & Hcount & Hflag & Hapi).
      cbn [invoke_submitter]. destruct n as [|n].
      * cbn [invoke_submitter snd]. rewrite Hcount. split; lia.
      * rewrite invoke_first_subscribe by (assumption || intros; contradiction).
        rewrite Hcount. split; lia.
Qed.

(** C4, as stated, fails: on a fresh session whose connection attempt
    throws, a single call of [_submitter] ends before the subscribe request,
    so the request was issued zero times, not once. *)
Lemma subscribe_exactly_once_counterexample :
  invoke_submitter (Sample.with_connect (Fail Sample.connect_error) Sample.world) 1
                   (new_XrpUplink Sample.cfg) []
  = ({| config := Sample.cfg; pluginOpts := Sample.opts;
        api := Some (new_RippleAPI "wss://live.example"); subscribed := false |},
     [EvConnect "wss://live.example" (Fail Sample.connect_error)])
  /\ ~ (forall (W : World) (cfg : UplinkConfig) (n : nat),
           (1 <= n)%nat ->
           subscribe_count (snd (invoke_submitter W n (new_XrpUplink cfg) [])) = 1%nat).
Proof.
  split; [reflexivity|].
  intros H.
  specialize (H (Sample.with_connect (Fail Sample.connect_error) Sample.world)
                Sample.cfg 1%nat (le_n 1)).
  vm_compute in H. discriminate H.
Qed.

(** C4, amended.  On a session that has not subscribed yet, any number of
    calls of [_submitter] issues the subscribe request at most once; once two
    or more calls were made it was issued exactly once; when the first
    call's connection step does not throw, the first call issues it and all
    later calls issue none; when it throws, the first call issues none. *)
Theorem submitter_subscribes_at_most_once
        (W : World) (this : XrpUplink) (tr : trace) (n : nat) :
  subscribed this = false ->
  let count k := subscribe_count (snd (invoke_submitter W k this tr)) in
  (count n <= S (subscribe_count tr))%nat
  /\ ((2 <= n)%nat -> count n = S (subscribe_count tr))
  /\ ((api this = None -> api_connect W tr (xrpServer (pluginOpts this)) = Ok tt) ->
      (1 <= n)%nat ->
      count 1%nat = S (subscribe_count tr) /\ count n = S (subscribe_count tr))
  /\ (forall e,
        api this = None ->
        api_connect W tr (xrpServer (pluginOpts this)) = Fail e ->
        count 1%nat = subscribe_count tr).
Proof.
  intros Hs. cbv zeta.
  destruct (invoke_at_most_once W n this tr Hs) as [Hle Htwo].
  split; [assumption|]. split; [assumption|]. split.
  - intros Hc Hn. split.
    + now apply invoke_first_subscribe.
    + destruct n as [|n]; [lia|]. now apply invoke_first_subscribe.
  - intros e Ha Hc. cbn [invoke_submitter snd].
    now destruct (submitter_connect_fails W this tr e Hs Ha Hc) as (_ & Hcount & _).
Qed.

Lemma submitter_subscribes_at_most_once_witness :
  subscribed (new_XrpUplink Sample.cfg) = false
  /\ (api (new_XrpUplink Sample.cfg) = None ->
      api_connect Sample.world [] (xrpServer (pluginOpts (new_XrpUplink Sample.cfg))) = Ok tt)
  /\ (1 <= 3)%nat
  /\ subscribe_count (snd (invoke_submitter Sample.world 1 (new_XrpUplink Sample.cfg) []))
     = 1%nat
  /\ subscribe_count (snd (invoke_submitter Sample.world 3 (new_XrpUplink Sample.cfg) []))
     = 1%nat.
Proof.
  split; [reflexivity|]. split; [reflexivity|]. split; [lia|].
  apply (proj1 (proj2 (proj2 (submitter_subscribes_at_most_once
                                Sample.world (new_XrpUplink Sample.cfg) [] 3 eq_refl))));
    [reflexivity | lia].
Defined.

(** C10.  When the one subscribe request of a session throws, the error
    reaches the caller of [_submitter], the flag is nevertheless set, and no
    later call of [_submitter] on that session issues the request again. *)
Theorem failed_subscribe_is_never_retried
        (W : World) (this : XrpUplink) (tr : trace) (err : Js.Error) :
  subscribed this = false ->
  (api this = None -> api_connect W tr (xrpServer (pluginOpts this)) = Ok tt) ->
  request_subscribe W
    (match api this with
     | Some _ => tr
     | None => tr ++ [EvConnect (xrpServer (pluginOpts this)) (Ok tt)]
     end)%list
    (match api this with
     | Some a => api_server a
     | None => xrpServer (pluginOpts this)
     end)
    (address (pluginOpts this)) = Fail err ->
  let r := _submitter W this tr in
  result r = Thrown err
  /\ subscribed (this_after r) = true
  /\ subscribe_count (trace_after r) = S (subscribe_count tr)
  /\ forall m,
       subscribe_count (snd (invoke_submitter W m (this_after r) (trace_after r)))
       = subscribe_count (trace_after r)
       /\ subscribed (fst (invoke_submitter W m (this_after r) (trace_after r))) = true.
Proof.
  intros Hs Hc Hsub. cbv zeta.
  destruct (submitter_first_subscribe W this tr Hs Hc) as [Hcount Hflag].
  split; [|split; [assumption|split; [assumption|]]].
  - unfold _submitter, _rippleApi. munfold.
    destruct (api this) as [a|]; cbn [result this_after trace_after].
    + rewrite Hs. cbn [negb result this_after trace_after]. now rewrite Hsub.
    + cbn [api_server]. rewrite (Hc eq_refl).
      cbn [result this_after trace_after set_api subscribed pluginOpts].
      rewrite Hs. cbn [negb result this_after trace_after api_server].
      now rewrite Hsub.
  - intros m. now apply invoke_when_subscribed.
Qed.

Lemma failed_subscribe_is_never_retried_witness :
  subscribed Sample.session = false
  /\ (api Sample.session = None ->
      api_connect Sample.deaf_world [] (xrpServer (pluginOpts Sample.session)) = Ok tt)
  /\ request_subscribe Sample.deaf_world [EvConnect "wss://live.example" (Ok tt)]
                       "wss://live.example" "rAccount"
     = Fail Sample.subscribe_error
  /\ result (_submitter Sample.deaf_world Sample.session []) = Thrown Sample.subscribe_error
  /\ subscribed (this_after (_submitter Sample.deaf_world Sample.session [])) = true
  /\ subscribe_count
       (snd (invoke_submitter Sample.deaf_world 4
               (this_after (_submitter Sample.deaf_world Sample.session []))
               (trace_after (_submitter Sample.deaf_world Sample.session []))))
     = 1%nat.
Proof.
  split; [reflexivity|]. split; [reflexivity|]. split; [reflexivity|].
  destruct (failed_subscribe_is_never_retried
              Sample.deaf_world Sample.session [] Sample.subscribe_error
              eq_refl (fun _ => eq_refl) eq_refl) as (Hres & Hflag & Hcount & Hlater).
  split; [exact Hres|]. split; [exact Hflag|].
  rewrite (proj1 (Hlater 4%nat)). exact Hcount.
Defined.

(** ** Closing a batch of channels *)

Lemma index_of_string_of_index (i : nat) :
  index_of_string (Js.String_of_index i) = Some i.
Proof.
  unfold index_of_string, Js.String_of_index.
  rewrite NilEmpty.usu. cbn [option_map]. now rewrite DecimalNat.Unsigned.of_to.
Qed.

(** A marked choice is the decimal index of a listed channel and selects it. *)
Lemma channel_at_choice (allChannels : list Channel) (i : nat) :
  channel_at allChannels (Js.String_of_index i) = nth_error allChannels i.
Proof. unfold channel_at. now rewrite index_of_string_of_index. Qed.

(** One turn of the loop never throws: a rejected submission is reported
    and swallowed. *)
Lemma closeChannel_run
      (W : World) (submitter : Submitter) (c : Channel) (this : XrpUplink) (tr : trace) :
  closeChannel W submitter (Some c) this tr
  = mkRun (Normal tt) this
          (tr ++ channel_events (sub_address submitter) c
                   (submitter_submit W (tr ++ [EvConsoleLog (closing_line c)])%list
                                     submitter (channel_id c) true))%list.
Proof.
  unfold closeChannel, channel_events, closing_line, warning_line. munfold.
  destruct (submitter_submit W _ submitter (channel_id c) true) as [[]|err];
    cbn [result this_after trace_after fst snd app];
    rewrite <- ?app_assoc; reflexivity.
Qed.

Lemma closeChannels_run
      (W : World) (submitter : Submitter) (chs : list Channel)
      (this : XrpUplink) (tr : trace) :
  exists replies,
    List.length replies = List.length chs
    /\ closeChannels W submitter (map Some chs) this tr
       = mkRun (Normal tt) this
               (tr ++ batch_events (sub_address submitter) (combine chs replies))%list.
Proof.
  revert tr. induction chs as [|c chs IH]; intros tr.
  - exists []. split; [reflexivity|]. cbn. now rewrite app_nil_r.
  - unfold closeChannels in *. cbn [map for_of]. unfold bind at 1.
    rewrite closeChannel_run. cbn [result this_after trace_after].
    match goal with
    | |- context [for_of _ _ this ?t] => destruct (IH t) as (replies & Hlen & Hrun)
    end.
    exists (submitter_submit W (tr ++ [EvConsoleLog (closing_line c)])%list
                             submitter (channel_id c) true :: replies).
    split; [cbn; now rewrite Hlen|].
    rewrite Hrun. unfold batch_events. cbn [combine flat_map fst snd].
    now rewrite <- app_assoc.
Qed.

Lemma submit_attempts_batch (addr : string) (chs : list Channel) :
  forall replies,
    List.length replies = List.length chs ->
    submit_attempts (batch_events addr (combine chs replies)) = map channel_id chs
    /\ console_logs (batch_events addr (combine chs replies)) = map closing_line chs
    /\ console_errors (batch_events addr (combine chs replies))
       = map warning_line (failed_submits (batch_events addr (combine chs replies))).
Proof.
  induction chs as [|c chs IH]; intros [|rep replies] Hlen; try discriminate Hlen.
  - repeat split.
  - injection Hlen as Hlen. destruct (IH replies Hlen) as (Ha & Hl & He).
    unfold batch_events, submit_attempts, console_logs, console_errors, failed_submits in *.
    cbn [combine flat_map fst snd]. rewrite !flat_map_app.
    rewrite Ha, Hl, He.
    destruct rep as [[]|err]; repeat split.
Qed.

(** C3, as stated, fails: the spec's own scenario, three selected channels
    of which the second is rejected.  All three are attempted and exactly
    one failure is reported, but only through the warning printed when it
    happened: the operation ends with the third submission, and no line of
    the whole output is an "N of M channels closed" report. *)
Lemma cleanup_final_report_counterexample :
  let W := Sample.with_B_rejected Sample.world in
  let r := cleanupChannels Sample.lib W (new_XrpUplink Sample.cfg) [] in
  result r = Normal tt
  /\ submit_attempts (trace_after r)
     = ["AAAAAAAAAAAA0001"; "BBBBBBBBBBBB0002"; "CCCCCCCCCCCC0003"]
  /\ failed_submits (trace_after r) = [("BBBBBBBBBBBB0002", "tecNO_PERMISSION")]
  /\ console_errors (trace_after r)
     = [["Warning for channel BBBBBBBBBBBB0002:"; "tecNO_PERMISSION"]]
  /\ last_event (trace_after r)
     = Some (EvSubmit "rAccount" "CCCCCCCCCCCC0003" true (Ok tt))
  /\ final_report_present (trace_after r) = false.
Proof. vm_compute. repeat split. Qed.

(** C3, amended.  In the closing loop every selected channel is submitted
    for closing, once and in order, whatever happened to the earlier ones: a
    rejected submission is caught, reported at once by a warning line that
    names the channel and carries the error's message, and the loop goes on;
    the loop itself always completes normally and leaves the session as it
    was.  The console output of the loop consists of one "Closing channel"
    line per channel and one warning per failure, and of nothing else. *)
Theorem closeChannels_attempts_every_channel
        (W : World) (submitter : Submitter) (chs : list Channel)
        (this : XrpUplink) (tr : trace) :
  exists replies,
    List.length replies = List.length chs
    /\ let r := closeChannels W submitter (map Some chs) this tr in
       let evs := batch_events (sub_address submitter) (combine chs replies) in
       result r = Normal tt
       /\ this_after r = this
       /\ trace_after r = (tr ++ evs)%list
       /\ submit_attempts evs = map channel_id chs
       /\ console_logs evs = map closing_line chs
       /\ console_errors evs = map warning_line (failed_submits evs).
Proof.
  destruct (closeChannels_run W submitter chs this tr) as (replies & Hlen & Hrun).
  exists replies. split; [assumption|]. cbv zeta. rewrite Hrun.
  cbn [result this_after trace_after].
  destruct (submit_attempts_batch (sub_address submitter) chs replies Hlen)
    as (Ha & Hl & He).
  repeat split; assumption.
Qed.

Example closeChannels_second_rejected :
  let submitter := createSubmitter (new_RippleAPI "wss://live.example")
                                   "rAccount" "sSeedOfTheUser" in
  trace_after (closeChannels (Sample.with_B_rejected Sample.world) submitter
                             (map Some [Sample.chanA; Sample.chanB; Sample.chanC])
                             (new_XrpUplink Sample.cfg) [])
  = [ EvConsoleLog ["Closing channel AAAAAAAAAAAA0001"];
      EvSubmit "rAccount" "AAAAAAAAAAAA0001" true (Ok tt);
      EvConsoleLog ["Closing channel BBBBBBBBBBBB0002"];
      EvSubmit "rAccount" "BBBBBBBBBBBB0002" true
               (Fail (Js.mkError "Error" "tecNO_PERMISSION"));
      EvConsoleError ["Warning for channel BBBBBBBBBBBB0002:"; "tecNO_PERMISSION"];
      EvConsoleLog ["Closing channel CCCCCCCCCCCC0003"];
      EvSubmit "rAccount" "CCCCCCCCCCCC0003" true (Ok tt) ].
Proof. vm_compute. reflexivity. Qed.

(** ** Configuration *)

Lemma fill_field_returns
      (W : World) (T : Type) (advanced : bool) (f : Field) (this : T) (tr : trace) :
  exists v tr', fill_field W advanced f this tr = mkRun (Normal v) this tr'.
Proof.
  unfold fill_field, inquirer_prompt. munfold.
  destruct (f_default f) as [d|]; [destruct advanced|]; eexists; eexists; reflexivity.
Qed.

(** The secret the loop stores is empty only in testnet mode, and is a
    valid seed otherwise, as inquirer only resolves with validated answers. *)
Lemma fill_field_secret
      (L : Lib) (W : World) (T : Type) (testnet advanced : bool) (this : T) (tr : trace) :
  inquirer_validates L W testnet ->
  exists v tr',
    fill_field W advanced (field_secret L testnet) this tr = mkRun (Normal v) this tr'
    /\ (testnet && negb (Js.truthy v) = false -> isValidSeed L v = true).
Proof.
  intros Hv. unfold fill_field, inquirer_prompt. munfold.
  assert (Hans : forall t, let a := prompt_input W t "secret"
                                      (f_default (field_secret L testnet)) in
                           testnet && negb (Js.truthy a) = false ->
                           isValidSeed L a = true).
  { intros t a Hc. specialize (Hv t). fold a in Hv.
    cbn [f_validate field_secret] in Hv.
    destruct testnet; cbn [andb orb] in *; [|exact Hv].
    destruct a as [|ch a']; [discriminate Hc | exact Hv]. }
  cbn [f_default f_name field_secret] in *.
  destruct testnet; [destruct advanced|]; eexists; eexists;
    (split; [reflexivity|]); try apply Hans.
  cbn. discriminate.
Qed.

Lemma prompt_fields_returns
      (L : Lib) (W : World) (T : Type) (testnet advanced : bool) (this : T) (tr : trace) :
  inquirer_validates L W testnet ->
  exists res tr',
    prompt_fields L W testnet advanced this tr = mkRun (Normal res) this tr'
    /\ (testnet && negb (Js.truthy (res_secret res)) = false ->
        isValidSeed L (res_secret res) = true).
Proof.
  intros Hv. unfold prompt_fields. cbv zeta.
  unfold bind at 1.
  destruct (fill_field_returns W T advanced
              (field_parent (pick_server W 0
                 (if testnet then test (connectorList L) else live (connectorList L))))
              this tr) as (parent & tr1 & E1).
  rewrite E1. cbn [result this_after trace_after]. unfold bind at 1.
  destruct (fill_field_returns W T advanced (field_name L W) this tr1) as (name & tr2 & E2).
  rewrite E2. cbn [result this_after trace_after]. unfold bind at 1.
  destruct (fill_field_secret L W T testnet advanced this tr2 Hv) as (sec & tr3 & E3 & Hsec).
  rewrite E3. cbn [result this_after trace_after]. unfold bind at 1.
  destruct (fill_field_returns W T advanced
              (field_xrpServer (pick_server W 1
                 (if testnet then test (rippledList L) else live (rippledList L))))
              this tr3) as (srv & tr4 & E4).
  rewrite E4. cbn [result this_after trace_after]. unfold ret.
  eexists; eexists; split; [reflexivity | exact Hsec].
Qed.

(** [validateAddress] starts by connecting, and leaves [this] alone. *)
Lemma validateAddress_connects_first
      (L : Lib) (W : World) (T : Type) (this : T) (tr : trace) (server address : string) :
  exists evs,
    trace_after (validateAddress L W server address this tr)
    = (tr ++ EvConnect server (api_connect W tr server) :: evs)%list
    /\ this_after (validateAddress L W server address this tr) = this
    /\ (forall c, result (validateAddress L W server address this tr) <> Exited c).
Proof.
  unfold validateAddress. munfold. cbn [api_server].
  destruct (api_connect W tr server) as [[]|e]; cbn [result this_after trace_after].
  2:{ exists []. repeat split; discriminate. }
  destruct (api_getAccountInfo W _ server address) as [info|e];
    cbn [result this_after trace_after].
  2:{ eexists. rewrite <- app_assoc.
      destruct (negb (Js.err_message e =? "actNotFound"));
        cbn [result this_after trace_after]; repeat split; discriminate. }
  destruct (api_getServerInfo W _ server) as [info'|e];
    cbn [result this_after trace_after].
  2:{ eexists. rewrite <- !app_assoc. repeat split; discriminate. }
  eexists. rewrite <- !app_assoc.
  destruct (Js.ltb _ _); cbn [result this_after trace_after]; repeat split; discriminate.
Qed.

(** C7.  [configure] first fills [res] from the prompts.  In testnet mode
    with no secret supplied it takes the faucet path and never validates the
    account.  On every other path it validates the derived address on the
    chosen ledger server before anything else: the configuration is returned
    only after validation has completed without error, and a validation
    error ends the process with exit code 1 instead of returning a
    configuration. *)
Theorem configure_validates_unless_faucet
        (L : Lib) (W : World) (testnet advanced : bool) (tr : trace) :
  inquirer_validates L W testnet ->
  valid_seed_derives L ->
  let p := prompt_fields L W testnet advanced tt tr in
  let r := configure L W testnet advanced tt tr in
  exists res evs,
    result p = Normal res
    /\ trace_after r = (trace_after p ++ evs)%list
    /\ if testnet && negb (Js.truthy (res_secret res))
       then validation_started evs = false
            /\ faucet_requested evs = true
            /\ (forall c, result r <> Exited c)
       else exists kp,
              deriveKeypair L (res_secret res) = Ok kp
              /\ let addr := deriveAddress L (publicKey kp) in
                 let v := validateAddress L W (res_xrpServer res) addr tt (trace_after p) in
                 validation_started evs = true
                 /\ match result v with
                    | Normal _ =>
                        trace_after r = trace_after v
                        /\ exists cfg,
                             result r = Normal cfg
                             /\ address (options cfg) = addr
                             /\ xrpServer (options cfg) = res_xrpServer res
                    | Thrown err =>
                        result r = Exited 1
                        /\ trace_after r
                           = (trace_after v
                              ++ [EvConsoleError
                                    [("Error configuring uplink: "
                                      ++ Js.err_message err)%string];
                                  EvProcessExit 1])%list
                    | Exited _ => False
                    end.
Proof.
  intros Hv Hd. cbv zeta.
  destruct (prompt_fields_returns L W unit testnet advanced tt tr Hv)
    as (res & tr' & Ep & Hsec).
  exists res.
  remember (configure L W testnet advanced tt tr) as r eqn:Er.
  unfold configure in Er. unfold bind at 1 in Er. rewrite Ep in Er. rewrite Ep.
  cbn [result this_after trace_after] in *.
  destruct (testnet && negb (Js.truthy (res_secret res))) eqn:Hcond.
  - (* the faucet path *)
    munfold. destruct (fetch_faucet W _) as [json|e];
      cbn [result this_after trace_after] in Er; subst r;
      cbn [result this_after trace_after];
      eexists; (split; [reflexivity|]); rewrite <- ?app_assoc;
      (split; [reflexivity|]); repeat split; (reflexivity || discriminate).
  - (* every other path *)
    destruct (Hd _ (Hsec eq_refl)) as [kp Hkp].
    destruct (validateAddress_connects_first L W unit tt tr' (res_xrpServer res)
                (deriveAddress L (publicKey kp))) as (evs & Htr & _ & Hne).
    rewrite Hkp in Er. munfold.
    destruct (result (validateAddress L W (res_xrpServer res)
                        (deriveAddress L (publicKey kp)) tt tr')) as [[]|err|c] eqn:Hres;
      cbn [result this_after trace_after] in Er; rewrite ?Hres in Er;
      cbn [result this_after trace_after] in Er.
    + exists (EvConnect (res_xrpServer res) (api_connect W tr' (res_xrpServer res)) :: evs).
      subst r. cbn [result this_after trace_after].
      split; [reflexivity|]. split; [exact Htr|].
      exists kp. split; [exact Hkp|]. cbv zeta. rewrite Hres.
      split; [reflexivity|]. split; [reflexivity|].
      eexists. split; [reflexivity|]. split; reflexivity.
    + exists ((EvConnect (res_xrpServer res) (api_connect W tr' (res_xrpServer res))
               :: evs)
              ++ [EvConsoleError [("Error configuring uplink: "
                                   ++ Js.err_message err)%string];
                  EvProcessExit 1])%list.
      subst r. cbn [result this_after trace_after].
      split; [reflexivity|]. split; [rewrite Htr; now rewrite <- !app_assoc|].
      exists kp. split; [exact Hkp|]. cbv zeta. rewrite Hres.
      split; [reflexivity|]. split; [reflexivity|]. now rewrite <- !app_assoc.
    + exfalso. exact (Hne c eq_refl).
Qed.

Lemma configure_validates_unless_faucet_witness :
  inquirer_validates Sample.lib Sample.funded_world false
  /\ valid_seed_derives Sample.lib
  /\ exists evs,
       trace_after (configure Sample.lib Sample.funded_world false false tt [])
       = (trace_after (prompt_fields Sample.lib Sample.funded_world false false tt [])
          ++ evs)%list
       /\ validation_started evs = true.
Proof.
  assert (Hv : inquirer_validates Sample.lib Sample.funded_world false)
    by (intros tr; reflexivity).
  assert (Hd : valid_seed_derives Sample.lib)
    by (intros s _; eexists; reflexivity).
  split; [exact Hv|]. split; [exact Hd|].
  destruct (configure_validates_unless_faucet
              Sample.lib Sample.funded_world false false [] Hv Hd)
    as (res & evs & _ & Htr & Hbranch).
  exists evs. split; [exact Htr|].
  cbn [andb] in Hbranch. destruct Hbranch as (kp & _ & Hstarted & _).
  exact Hstarted.
Defined.

Example configure_live_funded :
  exists cfg,
    result (configure Sample.lib Sample.funded_world false false tt []) = Normal cfg
    /\ address (options cfg) = "r-pub-sSeedOfTheUser"
    /\ secret (options cfg) = "sSeedOfTheUser".
Proof. eexists. vm_compute. repeat split. Qed.

Example configure_live_underfunded_exits :
  result (configure Sample.lib Sample.world false false tt []) = Exited 1.
Proof. vm_compute. reflexivity. Qed.

Example configure_testnet_skips_validation :
  validation_started (trace_after (configure Sample.lib Sample.world true false tt []))
  = false.
Proof. vm_compute. reflexivity. Qed.

(** ** The BTP credential *)

Lemma bind_normal_inv {T A B : Type} (m : M T A) (k : A -> M T B)
      (this : T) (tr : trace) (b : B) :
  result (bind m k this tr) = Normal b ->
  exists a,
    result (m this tr) = Normal a
    /\ result (k a (this_after (m this tr)) (trace_after (m this tr))) = Normal b.
Proof.
  unfold bind. destruct (result (m this tr)) as [a|e|c]; cbn [result]; intros H;
    [exists a; split; [reflexivity | exact H] | discriminate H | discriminate H].
Qed.

Lemma or_else_empty (s : string) : Js.or_else s "" = s.
Proof. destruct s; reflexivity. Qed.

(** The [server] member of a returned configuration, in terms of what the
    prompts delivered and of the [secret] member stored next to it. *)
Lemma configure_server
      (L : Lib) (W : World) (testnet advanced : bool) (tr : trace) (cfg : UplinkConfig) :
  result (configure L W testnet advanced tt tr) = Normal cfg ->
  exists res,
    result (prompt_fields L W testnet advanced tt tr) = Normal res
    /\ server (options cfg)
       = CredentialSpec.connection_uri L (res_parent res) (res_name res)
                                       (secret (options cfg)).
Proof.
  intros H. unfold configure in H.
  apply bind_normal_inv in H. destruct H as (res & Hp & H).
  exists res. split; [exact Hp|].
  apply bind_normal_inv in H. destruct H as (account & _ & H).
  unfold ret in H. cbn [result] in H. injection H as <-.
  cbn [options server secret].
  unfold CredentialSpec.connection_uri, CredentialSpec.deriveSecret, hmac,
    parentBtpHmacKey.
  cbn [bytes_of]. now rewrite or_else_empty.
Qed.

(** C1.  Whenever [configure] returns a configuration, its [server] is
    'btp+wss://' + channelName + ':' + secretHex + '@' + parentHost with
    secretHex = hex(HMAC-SHA256(key = HMAC-SHA256(key = "parent_btp_uri",
    message = parentHost + channelName), message = seed)), where parentHost
    and channelName are the values gathered for [parent] and [name] and seed
    is the stored [secret]; two configurations built from the same three
    values therefore carry the same URI. *)
Theorem configure_btp_credential
        (L : Lib) (W : World) (testnet advanced : bool) (tr : trace) (cfg : UplinkConfig) :
  result (configure L W testnet advanced tt tr) = Normal cfg ->
  exists res,
    result (prompt_fields L W testnet advanced tt tr) = Normal res
    /\ server (options cfg)
       = "btp+wss://" ++ res_name res ++ ":"
         ++ CredentialSpec.deriveSecret L (res_parent res) (res_name res)
                                        (secret (options cfg))
         ++ "@" ++ res_parent res
    /\ forall (W' : World) (testnet' advanced' : bool) (tr' : trace)
              (cfg' : UplinkConfig) (res' : Answers),
         result (configure L W' testnet' advanced' tt tr') = Normal cfg' ->
         result (prompt_fields L W' testnet' advanced' tt tr') = Normal res' ->
         res_parent res' = res_parent res ->
         res_name res' = res_name res ->
         secret (options cfg') = secret (options cfg) ->
         server (options cfg') = server (options cfg).
Proof.
  intros H. destruct (configure_server L W testnet advanced tr cfg H) as (res & Hp & Hs).
  exists res. split; [exact Hp|]. split; [exact Hs|].
  intros W' testnet' advanced' tr' cfg' res' H' Hp' Eparent Ename Esecret.
  destruct (configure_server L W' testnet' advanced' tr' cfg' H') as (res2 & Hp2 & Hs2).
  rewrite Hp' in Hp2. injection Hp2 as <-.
  rewrite Hs, Hs2, Eparent, Ename, Esecret. reflexivity.
Qed.

Lemma configure_btp_credential_witness :
  result (configure Sample.lib Sample.world true false tt []) = Normal Sample.testnet_cfg
  /\ server (options Sample.testnet_cfg)
     = "btp+wss://AAAAAAAAAAAAAAAAAAAAAAAAAAAAAAAA:"
       ++ CredentialSpec.deriveSecret Sample.lib "client.test.example"
                                      "AAAAAAAAAAAAAAAAAAAAAAAAAAAAAAAA" "sFaucet"
       ++ "@client.test.example".
Proof.
  assert (H : result (configure Sample.lib Sample.world true false tt [])
              = Normal Sample.testnet_cfg) by (vm_compute; reflexivity).
  split; [exact H|].
  destruct (configure_btp_credential Sample.lib Sample.world true false []
              Sample.testnet_cfg H) as (res & Hp & Hs & _).
  vm_compute in Hp. injection Hp as <-. exact Hs.
Defined.

(** * Further properties of the module *)

(** ** Predicates kept by the building blocks *)

Section Preserves.

Context {T : Type} (P : T -> trace -> Prop).

Lemma preserves_ret {A} (a : A) : preserves P (ret a).
Proof. intros this tr H. exact H. Qed.

Lemma preserves_throw {A} (e : Js.Error) : preserves P (@throw T A e).
Proof. intros this tr H. exact H. Qed.

Lemma preserves_get_this : preserves P get_this.
Proof. intros this tr H. exact H. Qed.

Lemma preserves_of_reply {A} (r : reply A) : preserves P (of_reply r).
Proof. destruct r; intros this tr H; exact H. Qed.

Lemma preserves_bind {A B} (m : M T A) (k : A -> M T B) :
  preserves P m -> (forall a, preserves P (k a)) -> preserves P (bind m k).
Proof.
  intros Hm Hk this tr H. unfold bind. specialize (Hm this tr H).
  destruct (result (m this tr)) as [a|e|c]; cbn [this_after trace_after];
    [now apply Hk | exact Hm | exact Hm].
Qed.

Lemma preserves_try_catch {A} (body : M T A) (handler : Js.Error -> M T A) :
  preserves P body -> (forall e, preserves P (handler e)) ->
  preserves P (try_catch body handler).
Proof.
  intros Hb Hh this tr H. unfold try_catch. specialize (Hb this tr H).
  destruct (result (body this tr)) as [a|e|c]; [exact Hb | now apply Hh | exact Hb].
Qed.

Lemma preserves_for_of {A} (xs : list A) (body : A -> M T unit) :
  (forall x, preserves P (body x)) -> preserves P (for_of xs body).
Proof.
  intros Hb. induction xs as [|x xs IH]; cbn [for_of].
  - apply preserves_ret.
  - apply preserves_bind; [apply Hb | intros _; exact IH].
Qed.

Lemma preserves_map_indexedM {A B} (f : A -> nat -> M T B) (i : nat) (xs : list A) :
  (forall x j, preserves P (f x j)) -> preserves P (map_indexedM f i xs).
Proof.
  intros Hf. revert i. induction xs as [|x xs IH]; intros i; cbn [map_indexedM].
  - apply preserves_ret.
  - apply preserves_bind; [apply Hf|]. intros y.
    apply preserves_bind; [apply IH|]. intros ys. apply preserves_ret.
Qed.

Section Closed.

Context (kind : event -> bool) (Hclosed : closed_under P kind).

Lemma preserves_emit (e : event) : kind e = true -> preserves P (emit e).
Proof. intros He this tr H. now apply Hclosed. Qed.

Lemma preserves_console_log (args : list string) :
  kind (EvConsoleLog args) = true -> preserves P (console_log args).
Proof. apply preserves_emit. Qed.

Lemma preserves_console_error (args : list string) :
  kind (EvConsoleError args) = true -> preserves P (console_error args).
Proof. apply preserves_emit. Qed.

Lemma preserves_process_exit {A} (code : Z) :
  kind (EvProcessExit code) = true -> preserves P (@process_exit T A code).
Proof. intros He this tr H. now apply Hclosed. Qed.

Lemma preserves_await {A} (ask : trace -> reply A) (ev : reply A -> event) :
  (forall r, kind (ev r) = true) -> preserves P (await ask ev).
Proof. intros He this tr H. now apply Hclosed. Qed.

Lemma preserves_observe {A} (ask : trace -> A) (ev : A -> event) :
  (forall a, kind (ev a) = true) -> preserves P (observe ask ev).
Proof. intros He this tr H. now apply Hclosed. Qed.

End Closed.

End Preserves.

Lemma closed_under_weaken {T} (P : T -> trace -> Prop) (kind kind' : event -> bool) :
  (forall e, kind' e = true -> kind e = true) ->
  closed_under P kind -> closed_under P kind'.
Proof. intros Hsub Hc this tr e He. apply Hc. now apply Hsub. Qed.

Lemma grew_by_closed {T} (kind : event -> bool) (tr0 : trace) :
  closed_under (@grew_by T kind tr0) kind.
Proof.
  intros this tr e He (evs & -> & Hall). exists (evs ++ [e])%list.
  split; [now rewrite app_assoc|].
  rewrite forallb_app, Hall. cbn. now rewrite He.
Qed.

Lemma grew_by_start {T} (kind : event -> bool) (tr0 : trace) (this : T) :
  grew_by kind tr0 this tr0.
Proof. exists []. split; [now rewrite app_nil_r | reflexivity]. Qed.

Lemma grew_by_trace_only {T} (kind : event -> bool) (tr0 : trace) :
  trace_only (@grew_by T kind tr0).
Proof. intros this this' tr H. exact H. Qed.

(** Splits a goal [preserves P m] along the structure of [m]; [Hc] is the
    closure of [P] under the events [m] emits directly. *)
Ltac keeps_step Hc :=
  first
    [ apply preserves_ret
    | apply preserves_throw
    | apply preserves_get_this
    | apply preserves_of_reply
    | assumption
    | apply preserves_bind; [|intros ?]
    | apply preserves_try_catch; [|intros ?]
    | apply preserves_for_of; intros ?
    | apply preserves_map_indexedM; intros ? ?
    | apply (preserves_console_log _ _ Hc); reflexivity
    | apply (preserves_console_error _ _ Hc); reflexivity
    | apply (preserves_process_exit _ _ Hc); reflexivity
    | apply (preserves_emit _ _ Hc); reflexivity
    | apply (preserves_await _ _ Hc); intros ?; reflexivity
    | apply (preserves_observe _ _ Hc); intros ?; reflexivity
    | match goal with
      | |- preserves _ (if ?b then _ else _) => destruct b
      | |- preserves _ (match ?x with _ => _ end) => destruct x
      end ].

Ltac keeps Hc := repeat keeps_step Hc.

(** Every event of one kind is of another. *)
Ltac kind_incl :=
  let e := fresh "e" in
  let H := fresh "H" in
  intros e; destruct e; cbn; intros H; (reflexivity || discriminate H).

(** ** What each function emits *)

Section Footprints.

Context (L : Lib) (W : World).

Lemma formatChannelExpiration_keeps {T} (P : T -> trace -> Prop) (exp : Expiration) :
  closed_under P is_date_now -> preserves P (formatChannelExpiration L W exp).
Proof. intros Hc. unfold formatChannelExpiration. keeps Hc. Qed.

Lemma formatChannelToRow_keeps {T} (P : T -> trace -> Prop) (c : Channel) (i : nat) :
  closed_under P is_date_now -> preserves P (formatChannelToRow L W c i).
Proof.
  intros Hc. unfold formatChannelToRow.
  apply preserves_bind; [now apply formatChannelExpiration_keeps | intros; apply preserves_ret].
Qed.

Lemma validateAddress_keeps {T} (P : T -> trace -> Prop) (server address : string) :
  closed_under P is_validation -> preserves P (validateAddress L W server address).
Proof. intros Hc. unfold validateAddress. keeps Hc. Qed.

Lemma fill_field_keeps {T} (P : T -> trace -> Prop) (advanced : bool) (f : Field) :
  closed_under P is_prompt -> preserves P (fill_field W advanced f).
Proof. intros Hc. unfold fill_field, inquirer_prompt. keeps Hc. Qed.

Lemma prompt_fields_keeps {T} (P : T -> trace -> Prop) (testnet advanced : bool) :
  closed_under P is_prompt -> preserves P (prompt_fields L W testnet advanced).
Proof.
  intros Hc. unfold prompt_fields. cbv zeta.
  repeat (apply preserves_bind; [now apply fill_field_keeps | intros ?]).
  apply preserves_ret.
Qed.

Lemma listChannels_keeps (P : XrpUplink -> trace -> Prop) :
  closed_under P (fun e => is_console e || is_read e) ->
  preserves P (_rippleApi W) -> preserves P (_listChannels W).
Proof. intros Hc Hapi. unfold _listChannels. keeps Hc. Qed.

Lemma _printChannels_keeps (P : XrpUplink -> trace -> Prop) (channels : list Channel) :
  closed_under P (fun e => is_console e || is_read e) ->
  preserves P (_rippleApi W) -> preserves P (_printChannels L W channels).
Proof.
  intros Hc Hapi.
  assert (Hd : closed_under P is_date_now)
    by (refine (closed_under_weaken P _ _ _ Hc); kind_incl).
  unfold _printChannels. cbv zeta.
  repeat (first [ assumption
                | apply preserves_get_this
                | apply preserves_bind; [|intros ?]
                | apply (preserves_console_log _ _ Hc); reflexivity
                | apply (preserves_await _ _ Hc); intros ?; reflexivity ]).
  destruct channels as [|c cs].
  - apply (preserves_console_error _ _ Hc); reflexivity.
  - apply preserves_bind.
    + apply preserves_map_indexedM. intros x j. now apply formatChannelToRow_keeps.
    + intros rows. apply (preserves_console_log _ _ Hc); reflexivity.
Qed.

Lemma printChannels_keeps (P : XrpUplink -> trace -> Prop) :
  closed_under P (fun e => is_console e || is_read e) ->
  preserves P (_rippleApi W) -> preserves P (printChannels L W).
Proof.
  intros Hc Hapi. unfold printChannels.
  apply preserves_bind; [now apply listChannels_keeps|].
  intros channels. now apply _printChannels_keeps.
Qed.

Lemma closeChannel_keeps (P : XrpUplink -> trace -> Prop)
      (submitter : Submitter) (channel : option Channel) :
  closed_under P (fun e => is_console e || is_submit e) ->
  preserves P (closeChannel W submitter channel).
Proof. intros Hc. unfold closeChannel. keeps Hc. Qed.

Lemma cleanupChannels_keeps (P : XrpUplink -> trace -> Prop) :
  closed_under P (fun e => is_console e || is_read e || is_checkbox e || is_submit e) ->
  preserves P (_rippleApi W) -> preserves P (_submitter W) ->
  preserves P (cleanupChannels L W).
Proof.
  intros Hc Hapi Hsub.
  assert (Hr : closed_under P (fun e => is_console e || is_read e))
    by (refine (closed_under_weaken P _ _ _ Hc); kind_incl).
  assert (Hs : closed_under P (fun e => is_console e || is_submit e))
    by (refine (closed_under_weaken P _ _ _ Hc); kind_incl).
  unfold cleanupChannels.
  apply preserves_bind; [now apply listChannels_keeps|]. intros allChannels.
  apply preserves_bind; [now apply _printChannels_keeps|]. intros _.
  destruct allChannels as [|c cs]; [apply preserves_ret|].
  cbv zeta. apply preserves_bind.
  { apply (preserves_observe _ _ Hc). intros a. reflexivity. }
  intros marked. apply preserves_bind; [exact Hsub|]. intros submitter.
  unfold closeChannels. apply preserves_for_of. intros ch.
  now apply closeChannel_keeps.
Qed.

Lemma topup_keeps (P : XrpUplink -> trace -> Prop) (amount : string) :
  closed_under P is_plugin -> preserves P (topup W amount).
Proof. intros Hc. unfold topup. cbv zeta. keeps Hc. Qed.

End Footprints.

(** ** The lazily opened connection and subscription *)

Lemma count_snoc (f : event -> bool) (tr : trace) (e : event) :
  count f (tr ++ [e])%list = (count f tr + if f e then 1 else 0)%nat.
Proof.
  unfold count. rewrite filter_app, length_app. cbn [filter].
  destruct (f e); reflexivity.
Qed.

Lemma count_app (f : event -> bool) (tr evs : trace) :
  count f (tr ++ evs)%list = (count f tr + count f evs)%nat.
Proof. unfold count. now rewrite filter_app, length_app. Qed.

Lemma subscribe_count_is_count (tr : trace) : subscribe_count tr = count is_subscribe tr.
Proof. reflexivity. Qed.

Lemma count_zero_forallb (f : event -> bool) (evs : list event) :
  forallb (fun e => negb (f e)) evs = true -> count f evs = 0%nat.
Proof.
  induction evs as [|e evs IH]; [reflexivity|]. cbn [forallb].
  intros [He Hr]%andb_true_iff. unfold count in *. cbn [filter].
  destruct (f e); [discriminate He | now apply IH].
Qed.

Lemma preserves_set_this_trace_only (P : XrpUplink -> trace -> Prop) (this' : XrpUplink) :
  trace_only P -> preserves P (set_this this').
Proof. intros Ht this tr H. exact (Ht this this' tr H). Qed.

Lemma rippleApi_keeps_trace_only (W : World) (P : XrpUplink -> trace -> Prop) :
  trace_only P -> closed_under P is_connect -> preserves P (_rippleApi W).
Proof.
  intros Ht Hc. unfold _rippleApi.
  apply preserves_bind; [apply preserves_get_this|]. intros this.
  destruct (api this) as [a|]; [apply preserves_ret|]. cbv zeta.
  apply preserves_bind; [now apply preserves_set_this_trace_only|]. intros _.
  apply preserves_bind; [|intros; apply preserves_ret].
  apply (preserves_await _ _ Hc). intros r. reflexivity.
Qed.

Lemma submitter_keeps_trace_only (W : World) (P : XrpUplink -> trace -> Prop) :
  trace_only P -> closed_under P (fun e => is_connect e || is_subscribe e) ->
  preserves P (_submitter W).
Proof.
  intros Ht Hc.
  assert (Hconn : closed_under P is_connect)
    by (refine (closed_under_weaken P _ _ _ Hc); kind_incl).
  unfold _submitter.
  apply preserves_bind; [now apply rippleApi_keeps_trace_only|]. intros a.
  apply preserves_bind; [apply preserves_get_this|]. intros this.
  apply preserves_bind; [|intros; apply preserves_ret].
  destruct (negb (subscribed this)); [|apply preserves_ret].
  apply preserves_bind; [now apply preserves_set_this_trace_only|]. intros _.
  apply (preserves_await _ _ Hc). intros r. reflexivity.
Qed.

Lemma session_inv_closed (cfg : UplinkConfig) (tr0 : trace) :
  closed_under (session_inv cfg tr0) is_neutral.
Proof.
  intros this tr e He (Hcfg & Hopts & Hconn & Hsub & Hflag).
  unfold is_neutral in He. apply andb_true_iff in He as [Hc Hs].
  repeat split; try assumption.
  - rewrite count_snoc, Hconn. destruct (is_connect e); [discriminate Hc | lia].
  - rewrite subscribe_count_is_count, count_snoc, <- subscribe_count_is_count, Hsub.
    destruct (is_subscribe e); [discriminate Hs | lia].
Qed.

Lemma session_inv_start (cfg : UplinkConfig) (tr0 : trace) :
  session_inv cfg tr0 (new_XrpUplink cfg) tr0.
Proof. repeat split; cbn; lia. Qed.

Lemma rippleApi_keeps_session (W : World) (cfg : UplinkConfig) (tr0 : trace) :
  preserves (session_inv cfg tr0) (_rippleApi W).
Proof.
  intros this tr (Hcfg & Hopts & Hconn & Hsub & Hflag).
  unfold _rippleApi. munfold. unfold has_api in *.
  destruct (api this) as [a|] eqn:Ha; cbn [result this_after trace_after].
  - unfold session_inv, has_api. rewrite Ha. repeat split; assumption.
  - destruct (api_connect W tr _) as [[]|e]; cbn [result this_after trace_after];
      unfold session_inv, has_api; cbn [set_api config pluginOpts api subscribed];
      rewrite count_snoc, subscribe_count_is_count, count_snoc,
        <- subscribe_count_is_count; cbn [is_connect is_subscribe];
      (repeat split; [assumption | assumption | lia | lia | discriminate]).
Qed.

Lemma rippleApi_sets_api (W : World) (this : XrpUplink) (tr : trace) :
  api (this_after (_rippleApi W this tr)) <> None
  /\ subscribed (this_after (_rippleApi W this tr)) = subscribed this.
Proof.
  unfold _rippleApi. munfold.
  destruct (api this) as [a|] eqn:Ha; cbn [result this_after trace_after].
  - rewrite Ha. split; [discriminate | reflexivity].
  - destruct (api_connect W tr _) as [[]|e]; cbn [result this_after trace_after];
      cbn [set_api api subscribed]; split; (discriminate || reflexivity).
Qed.

Lemma submitter_keeps_session (W : World) (cfg : UplinkConfig) (tr0 : trace) :
  preserves (session_inv cfg tr0) (_submitter W).
Proof.
  intros this tr Hinv.
  assert (Hinv1 := rippleApi_keeps_session W cfg tr0 this tr Hinv).
  destruct (rippleApi_sets_api W this tr) as [Hset _].
  unfold _submitter. unfold bind.
  destruct (_rippleApi W this tr) as [res1 this1 tr1].
  cbn [result this_after trace_after] in *.
  destruct res1 as [a|e|c]; [|exact Hinv1|exact Hinv1].
  destruct Hinv1 as (Hcfg & Hopts & Hconn & Hsub & Hflag).
  munfold. destruct (subscribed this1) eqn:Hs; cbn [negb result this_after trace_after].
  - unfold session_inv. rewrite Hs. repeat split; assumption.
  - destruct (request_subscribe W tr1 _ _) as [[]|e];
      cbn [result this_after trace_after];
      unfold session_inv, has_api in *;
      cbn [set_subscribed config pluginOpts api subscribed];
      rewrite count_snoc, subscribe_count_is_count, count_snoc,
        <- subscribe_count_is_count; cbn [is_connect is_subscribe];
      (repeat split; [assumption | assumption | lia | lia | intros; contradiction]).
Qed.

Lemma run_operation_keeps_session
      (L : Lib) (W : World) (cfg : UplinkConfig) (tr0 : trace) (op : operation) :
  preserves (session_inv cfg tr0) (run_operation L W op).
Proof.
  assert (Hn := session_inv_closed cfg tr0).
  assert (Hapi := rippleApi_keeps_session W cfg tr0).
  assert (Hsub := submitter_keeps_session W cfg tr0).
  destruct op; cbn [run_operation].
  - apply printChannels_keeps; [|exact Hapi].
    refine (closed_under_weaken _ _ _ _ Hn); kind_incl.
  - apply cleanupChannels_keeps; [|exact Hapi|exact Hsub].
    refine (closed_under_weaken _ _ _ _ Hn); kind_incl.
  - apply topup_keeps. refine (closed_under_weaken _ _ _ _ Hn); kind_incl.
  - apply preserves_bind; [|intros; apply preserves_ret].
    apply listChannels_keeps; [|exact Hapi].
    refine (closed_under_weaken _ _ _ _ Hn); kind_incl.
  - apply preserves_bind; [exact Hapi | intros; apply preserves_ret].
  - apply preserves_bind; [exact Hsub | intros; apply preserves_ret].
Qed.

Lemma run_operations_keep_session
      (L : Lib) (W : World) (cfg : UplinkConfig) (tr0 : trace) (ops : list operation) :
  forall this tr,
    session_inv cfg tr0 this tr ->
    session_inv cfg tr0 (fst (run_operations L W ops this tr))
                        (snd (run_operations L W ops this tr)).
Proof.
  induction ops as [|op ops IH]; intros this tr H; [exact H|].
  cbn [run_operations]. apply IH. now apply run_operation_keeps_session.
Qed.

(** X1.  Whatever methods are called on one [XrpUplink] instance, in any
    order and whatever they return or throw, the instance opens its ledger
    connection at most once and sends the subscribe request at most once:
    the number of connects made is 1 if [this.api] is set and 0 otherwise,
    the number of subscribe requests is 1 if [this.subscribed] is set and 0
    otherwise, a subscribed instance always has its [api] set, and [config]
    and [pluginOpts] are never changed. *)
Theorem session_connects_and_subscribes_at_most_once
        (L : Lib) (W : World) (cfg : UplinkConfig) (tr0 : trace) (ops : list operation) :
  let this := fst (run_operations L W ops (new_XrpUplink cfg) tr0) in
  let tr := snd (run_operations L W ops (new_XrpUplink cfg) tr0) in
  config this = cfg
  /\ pluginOpts this = options cfg
  /\ count is_connect tr = (count is_connect tr0 + if has_api this then 1 else 0)%nat
  /\ subscribe_count tr = (subscribe_count tr0 + if subscribed this then 1 else 0)%nat
  /\ (count is_connect tr <= count is_connect tr0 + 1)%nat
  /\ (subscribe_count tr <= subscribe_count tr0 + 1)%nat
  /\ (subscribed this = true -> has_api this = true).
Proof.
  cbv zeta.
  destruct (run_operations_keep_session L W cfg tr0 ops _ _ (session_inv_start cfg tr0))
    as (Hcfg & Hopts & Hconn & Hsub & Hflag).
  repeat split; try assumption.
  - rewrite Hconn. destruct (has_api _); lia.
  - rewrite Hsub. destruct (subscribed _); lia.
  - intros Hs. unfold has_api in *.
    destruct (api _); [reflexivity|]. rewrite (Hflag eq_refl) in Hs. discriminate Hs.
Qed.

Lemma emits_of_keeps {T A} (kind : event -> bool) (m : M T A) :
  (forall tr0, preserves (grew_by kind tr0) m) ->
  forall this tr,
    exists evs, trace_after (m this tr) = (tr ++ evs)%list /\ forallb kind evs = true.
Proof. intros H this tr. exact (H tr this tr (grew_by_start kind tr this)). Qed.

Lemma printChannels_emits (L : Lib) (W : World) (this : XrpUplink) (tr : trace) :
  exists evs,
    trace_after (printChannels L W this tr) = (tr ++ evs)%list
    /\ forallb (fun e => is_console e || is_read e || is_connect e) evs = true.
Proof.
  apply emits_of_keeps. intros tr0.
  apply printChannels_keeps.
  - refine (closed_under_weaken _ _ _ _ (grew_by_closed _ tr0)); kind_incl.
  - apply rippleApi_keeps_trace_only; [apply grew_by_trace_only|].
    refine (closed_under_weaken _ _ _ _ (grew_by_closed _ tr0)); kind_incl.
Qed.

Lemma topup_emits (W : World) (amount : string) (this : XrpUplink) (tr : trace) :
  exists evs,
    trace_after (topup W amount this tr) = (tr ++ evs)%list
    /\ forallb is_plugin evs = true.
Proof.
  apply emits_of_keeps. intros tr0. apply topup_keeps. apply grew_by_closed.
Qed.

Lemma forallb_impl (f g : event -> bool) (evs : list event) :
  (forall e, f e = true -> g e = true) -> forallb f evs = true -> forallb g evs = true.
Proof.
  intros Hfg. induction evs as [|e evs IH]; [reflexivity|]. cbn [forallb].
  intros [He Hr]%andb_true_iff. now rewrite (Hfg e He), IH.
Qed.

Lemma submit_attempts_none (evs : list event) :
  forallb (fun e => negb (is_submit e)) evs = true -> submit_attempts evs = [].
Proof.
  induction evs as [|e evs IH]; [reflexivity|]. cbn [forallb].
  intros [He Hr]%andb_true_iff. unfold submit_attempts in *. cbn [flat_map].
  rewrite (IH Hr). destruct e; try reflexivity. discriminate He.
Qed.

Lemma printChannels_is_read_only_aux
      (L : Lib) (W : World) (this : XrpUplink) (tr : trace) :
  exists evs,
    trace_after (printChannels L W this tr) = (tr ++ evs)%list
    /\ subscribe_count evs = 0%nat
    /\ submit_attempts evs = []
    /\ count is_checkbox evs = 0%nat.
Proof.
  destruct (printChannels_emits L W this tr) as (evs & Htr & Hall).
  exists evs. split; [exact Htr|]. repeat split.
  - rewrite subscribe_count_is_count. apply count_zero_forallb.
    revert Hall. apply forallb_impl. kind_incl.
  - apply submit_attempts_none. revert Hall. apply forallb_impl. kind_incl.
  - apply count_zero_forallb. revert Hall. apply forallb_impl. kind_incl.
Qed.

(** X2.  The [info] command is read-only: started on any session, at any
    point of the history, [printChannels] only writes to the console, opens
    the connection and queries the ledger (account info, server info,
    channel list) and the clock.  It never subscribes, never submits a
    transaction, never prompts and never touches the plugin. *)
Theorem printChannels_is_read_only
        (L : Lib) (W : World) (this : XrpUplink) (tr : trace) :
  exists evs,
    trace_after (printChannels L W this tr) = (tr ++ evs)%list
    /\ forallb (fun e => is_console e || is_read e || is_connect e) evs = true
    /\ subscribe_count evs = 0%nat
    /\ submit_attempts evs = []
    /\ count is_checkbox evs = 0%nat
    /\ count is_prompt evs = 0%nat
    /\ count is_plugin evs = 0%nat.
Proof.
  destruct (printChannels_emits L W this tr) as (evs & Htr & Hall).
  exists evs. split; [exact Htr|]. split; [exact Hall|].
  repeat split.
  - rewrite subscribe_count_is_count. apply count_zero_forallb.
    revert Hall. apply forallb_impl. kind_incl.
  - apply submit_attempts_none. revert Hall. apply forallb_impl. kind_incl.
  - apply count_zero_forallb. revert Hall. apply forallb_impl. kind_incl.
  - apply count_zero_forallb. revert Hall. apply forallb_impl. kind_incl.
  - apply count_zero_forallb. revert Hall. apply forallb_impl. kind_incl.
Qed.

Lemma cleanupChannels_emits (L : Lib) (W : World) (this : XrpUplink) (tr : trace) :
  exists evs,
    trace_after (cleanupChannels L W this tr) = (tr ++ evs)%list
    /\ forallb (fun e => negb (is_prompt e) && negb (is_plugin e)) evs = true.
Proof.
  apply emits_of_keeps. intros tr0.
  apply cleanupChannels_keeps.
  - refine (closed_under_weaken _ _ _ _ (grew_by_closed _ tr0)); kind_incl.
  - apply rippleApi_keeps_trace_only; [apply grew_by_trace_only|].
    refine (closed_under_weaken _ _ _ _ (grew_by_closed _ tr0)); kind_incl.
  - apply submitter_keeps_trace_only; [apply grew_by_trace_only|].
    refine (closed_under_weaken _ _ _ _ (grew_by_closed _ tr0)); kind_incl.
Qed.

(** On a fresh session one method call connects and subscribes at most
    once. *)
Lemma fresh_operation_counts
      (L : Lib) (W : World) (cfg : UplinkConfig) (op : operation) (tr : trace)
      (evs : list event) :
  trace_after (run_operation L W op (makeUplink cfg) tr) = (tr ++ evs)%list ->
  (count is_connect evs <= 1)%nat /\ (subscribe_count evs <= 1)%nat.
Proof.
  intros Htr.
  destruct (run_operation_keeps_session L W cfg tr op _ _ (session_inv_start cfg tr))
    as (_ & _ & Hconn & Hsub & _).
  unfold makeUplink in Htr. rewrite Htr in Hconn, Hsub.
  unfold subscribe_count, count in *.
  rewrite filter_app, length_app in Hconn, Hsub.
  destruct (has_api _), (subscribed _); lia.
Qed.

(** X3.  Every entry of the [commands] table runs its method on a session
    of its own, so one command opens the ledger connection at most once and
    subscribes at most once; only [cleanup] can subscribe, ask for a
    selection or submit a transaction, and [topup] talks to the plugin
    only. *)
Theorem commands_footprint
        (L : Lib) (W : World) (c : Command) (cfg : UplinkConfig)
        (amount : string) (tr : trace) :
  In c (commands L W) ->
  exists evs,
    trace_after (handler c cfg amount tr) = (tr ++ evs)%list
    /\ (count is_connect evs <= 1)%nat
    /\ (subscribe_count evs <= 1)%nat
    /\ (command c <> "cleanup" ->
        subscribe_count evs = 0%nat
        /\ submit_attempts evs = []
        /\ count is_checkbox evs = 0%nat)
    /\ (command c = "topup" -> forallb is_plugin evs = true).
Proof.
  intros [<-|[<-|[<-|[]]]]; cbn [handler command info_command cleanup_command topup_command].
  - destruct (printChannels_is_read_only_aux L W (makeUplink cfg) tr)
      as (evs & Htr & Hsub & Hsubmit & Hbox).
    exists evs. split; [exact Htr|].
    destruct (fresh_operation_counts L W cfg OpPrintChannels tr evs Htr) as [Hc Hs].
    repeat split; try assumption; try discriminate.
  - destruct (cleanupChannels_emits L W (makeUplink cfg) tr) as (evs & Htr & _).
    exists evs. split; [exact Htr|].
    destruct (fresh_operation_counts L W cfg OpCleanupChannels tr evs Htr) as [Hc Hs].
    repeat split; try assumption; try congruence.
  - destruct (topup_emits W amount (makeUplink cfg) tr) as (evs & Htr & Hall).
    exists evs. split; [exact Htr|].
    destruct (fresh_operation_counts L W cfg (OpTopup amount) tr evs Htr) as [Hc Hs].
    repeat split; try assumption.
    + rewrite subscribe_count_is_count. apply count_zero_forallb.
      revert Hall. apply forallb_impl. kind_incl.
    + apply submit_attempts_none. revert Hall. apply forallb_impl. kind_incl.
    + apply count_zero_forallb. revert Hall. apply forallb_impl. kind_incl.
    + intros _. exact Hall.
Qed.

Lemma commands_footprint_witness :
  In (info_command Sample.lib Sample.world) (commands Sample.lib Sample.world)
  /\ exists evs,
       trace_after (handler (info_command Sample.lib Sample.world) Sample.cfg "" [])
       = ([] ++ evs)%list
       /\ (count is_connect evs <= 1)%nat
       /\ subscribe_count evs = 0%nat.
Proof.
  split; [left; reflexivity|].
  destruct (commands_footprint Sample.lib Sample.world
              (info_command Sample.lib Sample.world) Sample.cfg "" []
              (or_introl eq_refl)) as (evs & Htr & Hc & _ & Hinfo & _).
  exists evs. split; [exact Htr|]. split; [exact Hc|].
  apply Hinfo. discriminate.
Defined.

(** ** [cleanup] begins as [info] *)

Lemma bind_run {T A B} (m : M T A) (k : A -> M T B) (this : T) (tr : trace) :
  bind m k this tr
  = match result (m this tr) with
    | Normal a => k a (this_after (m this tr)) (trace_after (m this tr))
    | Thrown e => mkRun (Thrown e) (this_after (m this tr)) (trace_after (m this tr))
    | Exited c => mkRun (Exited c) (this_after (m this tr)) (trace_after (m this tr))
    end.
Proof. reflexivity. Qed.

Lemma selection_and_closing_grows
      (W : World) (allChannels : list Channel) (this : XrpUplink) (tr : trace) :
  let choices := Js.map_indexed (fun _ i => Js.String_of_index i) 0 allChannels in
  exists evs,
    trace_after
      ((marked <- observe (fun tr => prompt_checkbox W tr choices) (EvCheckbox choices) ;;
        submitter <- _submitter W ;;
        closeChannels W submitter (map (channel_at allChannels) marked)) this tr)
    = (tr ++ evs)%list.
Proof.
  cbv zeta.
  match goal with
  | |- exists evs, trace_after (?m this tr) = _ =>
      destruct (emits_of_keeps (fun _ => true) m) with (this := this) (tr := tr)
        as (evs & Htr & _); [|exists evs; exact Htr]
  end.
  intros tr0.
  assert (Hc : closed_under (@grew_by XrpUplink (fun _ => true) tr0) (fun _ => true))
    by apply grew_by_closed.
  apply preserves_bind.
  { apply (preserves_observe _ _ Hc). reflexivity. }
  intros marked. apply preserves_bind.
  { apply submitter_keeps_trace_only; [apply grew_by_trace_only|].
    refine (closed_under_weaken _ _ _ _ Hc); reflexivity. }
  intros submitter. unfold closeChannels. apply preserves_for_of. intros ch.
  apply closeChannel_keeps. refine (closed_under_weaken _ _ _ _ Hc); reflexivity.
Qed.

(** X4.  [cleanupChannels] starts by doing exactly what [printChannels]
    does: its history always extends that of [printChannels] run from the
    same state, and when the channel listing fails or comes back empty the
    two runs are the same run: nothing is selected, subscribed to or
    submitted. *)
Theorem cleanupChannels_begins_as_printChannels
        (L : Lib) (W : World) (this : XrpUplink) (tr : trace) :
  (exists evs,
      trace_after (cleanupChannels L W this tr)
      = (trace_after (printChannels L W this tr) ++ evs)%list)
  /\ ((forall c cs, result (_listChannels W this tr) <> Normal (c :: cs)) ->
      cleanupChannels L W this tr = printChannels L W this tr).
Proof.
  unfold cleanupChannels, printChannels. rewrite !bind_run.
  destruct (_listChannels W this tr) as [r1 this1 tr1].
  cbn [result this_after trace_after].
  destruct r1 as [allChannels|e|c].
  2:{ split; [exists []; now rewrite app_nil_r | reflexivity]. }
  2:{ split; [exists []; now rewrite app_nil_r | reflexivity]. }
  rewrite bind_run.
  destruct (_printChannels L W allChannels this1 tr1) as [r2 this2 tr2].
  cbn [result this_after trace_after].
  destruct r2 as [[]|e|c].
  2:{ split; [exists []; now rewrite app_nil_r | reflexivity]. }
  2:{ split; [exists []; now rewrite app_nil_r | reflexivity]. }
  destruct allChannels as [|c cs].
  - split; [exists []; now rewrite app_nil_r | reflexivity].
  - split.
    + apply (selection_and_closing_grows W (c :: cs) this2 tr2).
    + intros H. exfalso. exact (H c cs eq_refl).
Qed.

Lemma cleanupChannels_begins_as_printChannels_witness :
  (forall c cs,
      result (_listChannels Sample2.no_channels Sample.session []) <> Normal (c :: cs))
  /\ cleanupChannels Sample.lib Sample2.no_channels Sample.session []
     = printChannels Sample.lib Sample2.no_channels Sample.session [].
Proof.
  assert (H : forall c cs,
             result (_listChannels Sample2.no_channels Sample.session [])
             <> Normal (c :: cs)) by (intros c cs; vm_compute; discriminate).
  split; [exact H|].
  exact (proj2 (cleanupChannels_begins_as_printChannels
                  Sample.lib Sample2.no_channels Sample.session []) H).
Defined.

(** ** Choosing channels by the index shown *)

Lemma map_indexed_seq {A B} (g : nat -> B) (k : nat) (xs : list A) :
  Js.map_indexed (fun _ i => g i) k xs = map g (seq k (List.length xs)).
Proof.
  revert k. induction xs as [|x xs IH]; intros k; [reflexivity|].
  cbn [Js.map_indexed List.length seq map]. now rewrite IH.
Qed.

Lemma choice_is_index (allChannels : list Channel) (m : string) :
  In m (Js.map_indexed (fun _ i => Js.String_of_index i) 0 allChannels) ->
  exists i c, m = Js.String_of_index i /\ nth_error allChannels i = Some c.
Proof.
  rewrite map_indexed_seq. intros [i [<- Hi]]%in_map_iff.
  apply in_seq in Hi.
  destruct (nth_error allChannels i) as [c|] eqn:E.
  - now exists i, c.
  - apply nth_error_None in E. lia.
Qed.

Lemma selection_is_defined (allChannels : list Channel) (marked : list string) :
  (forall m, In m marked ->
             In m (Js.map_indexed (fun _ i => Js.String_of_index i) 0 allChannels)) ->
  exists chs,
    map (channel_at allChannels) marked = map Some chs
    /\ Forall2 (fun m c => channel_at allChannels m = Some c) marked chs
    /\ (forall c, In c chs -> In c allChannels).
Proof.
  induction marked as [|m marked IH]; intros H.
  - exists []. repeat split; [constructor | intros c []].
  - destruct IH as (chs & Hmap & Hall & Hin); [intros m' Hm'; apply H; now right|].
    destruct (choice_is_index allChannels m (H m (or_introl eq_refl)))
      as (i & c & -> & Hnth).
    exists (c :: chs). cbn [map]. rewrite Hmap, channel_at_choice, Hnth.
    repeat split.
    + constructor; [now rewrite channel_at_choice | exact Hall].
    + intros c' [<-|Hc']; [now apply nth_error_In in Hnth | now apply Hin].
Qed.

(** X5.  When the marked entries of the checkbox are among the offered
    choices, as inquirer guarantees, every one of them is the index of a
    listed channel: the closing loop never meets [undefined], completes
    normally, and submits exactly the channels chosen, in the order they
    were marked. *)
Theorem cleanup_selection_is_well_defined
        (W : World) (submitter : Submitter) (allChannels : list Channel)
        (marked : list string) (this : XrpUplink) (tr : trace) :
  (forall m, In m marked ->
             In m (Js.map_indexed (fun _ i => Js.String_of_index i) 0 allChannels)) ->
  exists chs evs,
    Forall2 (fun m c => channel_at allChannels m = Some c) marked chs
    /\ (forall c, In c chs -> In c allChannels)
    /\ closeChannels W submitter (map (channel_at allChannels) marked) this tr
       = mkRun (Normal tt) this (tr ++ evs)%list
    /\ submit_attempts evs = map channel_id chs.
Proof.
  intros H. destruct (selection_is_defined allChannels marked H) as (chs & Hmap & Hall & Hin).
  destruct (closeChannels_run W submitter chs this tr) as (replies & Hlen & Hrun).
  exists chs, (batch_events (sub_address submitter) (combine chs replies)).
  rewrite Hmap. repeat split; try assumption.
  now destruct (submit_attempts_batch (sub_address submitter) chs replies Hlen).
Qed.

Lemma cleanup_selection_is_well_defined_witness :
  (forall m, In m ["2"; "0"] ->
             In m (Js.map_indexed (fun _ i => Js.String_of_index i) 0
                                  [Sample.chanA; Sample.chanB; Sample.chanC]))
  /\ exists chs evs,
       Forall2 (fun m c => channel_at [Sample.chanA; Sample.chanB; Sample.chanC] m = Some c)
               ["2"; "0"] chs
       /\ (forall c, In c chs -> In c [Sample.chanA; Sample.chanB; Sample.chanC])
       /\ closeChannels Sample.world
            (createSubmitter (new_RippleAPI "wss://live.example") "rAccount" "sSeedOfTheUser")
            (map (channel_at [Sample.chanA; Sample.chanB; Sample.chanC]) ["2"; "0"])
            Sample.session []
          = mkRun (Normal tt) Sample.session ([] ++ evs)%list
       /\ submit_attempts evs = map channel_id chs.
Proof.
  assert (H : forall m, In m ["2"; "0"] ->
                        In m (Js.map_indexed (fun _ i => Js.String_of_index i) 0
                                [Sample.chanA; Sample.chanB; Sample.chanC])).
  { intros m [<-|[<-|[]]]; cbn; auto. }
  split; [exact H|].
  exact (cleanup_selection_is_well_defined Sample.world _ _ _ Sample.session [] H).
Defined.

Lemma closeChannel_undefined (W : World) (submitter : Submitter)
      (this : XrpUplink) (tr : trace) :
  closeChannel W submitter None this tr
  = mkRun (Thrown (Js.TypeError_undefined "channel_id")) this tr.
Proof. reflexivity. Qed.

Lemma closeChannels_undefined_run
      (W : World) (submitter : Submitter) (after : list (option Channel))
      (this : XrpUplink) (before : list Channel) :
  forall tr,
    closeChannels W submitter (map Some before ++ None :: after)%list this tr
    = mkRun (Thrown (Js.TypeError_undefined "channel_id")) this
            (trace_after (closeChannels W submitter (map Some before) this tr)).
Proof.
  unfold closeChannels.
  induction before as [|c before IH]; intros tr.
  - cbn [map app for_of]. rewrite bind_run, closeChannel_undefined. reflexivity.
  - cbn [map app for_of]. rewrite !bind_run, closeChannel_run.
    cbn [result this_after trace_after]. apply IH.
Qed.

(** X6.  An entry of [channels] that is [undefined] (an index naming no
    listed channel) stops the closing loop with a TypeError: the channels
    before it were submitted, nothing is logged or submitted for it or for
    any channel after it. *)
Theorem closeChannels_stops_at_undefined
        (W : World) (submitter : Submitter) (before : list Channel)
        (after : list (option Channel)) (this : XrpUplink) (tr : trace) :
  let r := closeChannels W submitter (map Some before ++ None :: after)%list this tr in
  result r = Thrown (Js.TypeError_undefined "channel_id")
  /\ trace_after r = trace_after (closeChannels W submitter (map Some before) this tr)
  /\ exists evs,
       trace_after r = (tr ++ evs)%list
       /\ submit_attempts evs = map channel_id before.
Proof.
  cbv zeta. rewrite closeChannels_undefined_run. cbn [result trace_after].
  split; [reflexivity|]. split; [reflexivity|].
  destruct (closeChannels_run W submitter before this tr) as (replies & Hlen & Hrun).
  rewrite Hrun. cbn [trace_after]. eexists. split; [reflexivity|].
  now destruct (submit_attempts_batch (sub_address submitter) before replies Hlen).
Qed.

(** ** The table of channels *)

Lemma formatChannelToRow_run
      (L : Lib) (W : World) (T : Type) (this : T) (tr : trace) (c : Channel) (i : nat) :
  exists label evs,
    formatChannelToRow L W c i this tr
    = mkRun (Normal [ Js.String_of_index i;
                      substring 0 8 (channel_id c) ++ "...";
                      destination_account c;
                      comma (amount c);
                      comma (balance c);
                      label ])
            this (tr ++ evs)%list.
Proof.
  unfold formatChannelToRow. rewrite bind_run.
  destruct (formatChannelExpiration_returns L W T this tr (expiration c))
    as (label & evs & E).
  rewrite E. cbn [result this_after trace_after]. now exists label, evs.
Qed.

Lemma rows_run (L : Lib) (W : World) (T : Type) (this : T) (channels : list Channel) :
  forall (k : nat) (tr : trace),
  exists rows evs,
    map_indexedM (formatChannelToRow L W) k channels this tr
    = mkRun (Normal rows) this (tr ++ evs)%list
    /\ map (fun row => nth 0 row "") rows
       = map Js.String_of_index (seq k (List.length channels))
    /\ Forall2 (fun row c =>
                  List.length row = 6%nat
                  /\ nth 1 row "" = substring 0 8 (channel_id c) ++ "..."
                  /\ nth 2 row "" = destination_account c
                  /\ nth 3 row "" = comma (amount c)
                  /\ nth 4 row "" = comma (balance c))
               rows channels.
Proof.
  induction channels as [|c channels IH]; intros k tr.
  - exists [], []. cbn [map_indexedM]. unfold ret. rewrite app_nil_r.
    repeat split. constructor.
  - cbn [map_indexedM]. rewrite bind_run.
    destruct (formatChannelToRow_run L W T this tr c k) as (label & evs1 & E1).
    rewrite E1. cbn [result this_after trace_after]. rewrite bind_run.
    destruct (IH (S k) (tr ++ evs1)%list) as (rows & evs2 & E2 & Hidx & Hall).
    rewrite E2. cbn [result this_after trace_after]. unfold ret.
    eexists. exists (evs1 ++ evs2)%list. rewrite app_assoc.
    split; [reflexivity|]. split.
    + cbn [map nth List.length seq]. now rewrite Hidx.
    + constructor; [|exact Hall]. repeat split.
Qed.

(** The rows are made one after the other: before the row of a channel is
    made, the history is the one left by the rows of the channels listed
    before it, and the sixth column is what [formatChannelExpiration] returns
    at that moment. *)
Lemma rows_labels (L : Lib) (W : World) (T : Type) (this : T) (channels : list Channel) :
  forall (k : nat) (tr : trace) (rows : list (list string)),
    result (map_indexedM (formatChannelToRow L W) k channels this tr) = Normal rows ->
    forall i row c,
      nth_error rows i = Some row ->
      nth_error channels i = Some c ->
      result (formatChannelExpiration L W (expiration c) this
                (trace_after (map_indexedM (formatChannelToRow L W) k
                                           (firstn i channels) this tr)))
      = Normal (nth 5 row "").
Proof.
  induction channels as [|c0 channels IH]; intros k tr rows Hrows i row c Hrow Hc.
  - destruct i; discriminate Hc.
  - cbn [map_indexedM] in Hrows. rewrite bind_run in Hrows.
    destruct (formatChannelExpiration_returns L W T this tr (expiration c0))
      as (label & evs1 & E0).
    assert (E1 : formatChannelToRow L W c0 k this tr
                 = mkRun (Normal [ Js.String_of_index k;
                                   substring 0 8 (channel_id c0) ++ "...";
                                   destination_account c0;
                                   comma (amount c0);
                                   comma (balance c0);
                                   label ])
                         this (tr ++ evs1)%list).
    { unfold formatChannelToRow. rewrite bind_run, E0. reflexivity. }
    rewrite E1 in Hrows. cbn [result this_after trace_after] in Hrows.
    rewrite bind_run in Hrows.
    destruct (rows_run L W T this channels (S k) (tr ++ evs1)%list)
      as (rest & evs2 & E2 & _ & _).
    rewrite E2 in Hrows. cbn [result this_after trace_after] in Hrows.
    unfold ret in Hrows. cbn [result] in Hrows. injection Hrows as <-.
    destruct i as [|i].
    + cbn [nth_error] in Hrow, Hc. injection Hrow as <-. injection Hc as <-.
      cbn [firstn map_indexedM]. unfold ret. cbn [trace_after nth].
      rewrite E0. reflexivity.
    + cbn [nth_error] in Hrow, Hc.
      cbn [firstn map_indexedM]. rewrite bind_run, E1.
      cbn [result this_after trace_after]. rewrite bind_run.
      destruct (rows_run L W T this (firstn i channels) (S k) (tr ++ evs1)%list)
        as (rows' & evs3 & E3 & _ & _).
      rewrite E3. cbn [result this_after trace_after]. unfold ret. cbn [trace_after].
      change ((tr ++ evs1) ++ evs3)%list
        with (trace_after (mkRun (Normal rows') this ((tr ++ evs1) ++ evs3)%list)).
      rewrite <- E3.
      apply (IH (S k) (tr ++ evs1)%list rest); [|assumption|assumption].
      rewrite E2. reflexivity.
Qed.

(** X7.  The table printed by [info] and [cleanup] has one row of six
    columns per channel, in the order of the listing: the index, the first
    eight characters of the channel id followed by [...], the destination,
    the amount and the balance with thousands separators, and the expiry
    label, which is what [formatChannelExpiration] returns for the channel's
    expiration when the row is made, after the rows above it.  The index
    shown in the first column of a row is exactly the checkbox choice that
    selects that row's channel: feeding a row's index to
    [allChannels[+index]] gives back the channel the row was made from. *)
Theorem table_index_selects_its_channel
        (L : Lib) (W : World) (T : Type) (this : T) (tr : trace)
        (channels : list Channel) :
  exists rows,
    result (map_indexedM (formatChannelToRow L W) 0 channels this tr) = Normal rows
    /\ map (fun row => nth 0 row "") rows
       = Js.map_indexed (fun _ i => Js.String_of_index i) 0 channels
    /\ Forall2 (fun row c =>
                  List.length row = 6%nat
                  /\ nth 1 row "" = substring 0 8 (channel_id c) ++ "..."
                  /\ nth 2 row "" = destination_account c
                  /\ nth 3 row "" = comma (amount c)
                  /\ nth 4 row "" = comma (balance c))
               rows channels
    /\ (forall i row,
          nth_error rows i = Some row ->
          channel_at channels (nth 0 row "") = nth_error channels i
          /\ nth_error channels i <> None)
    /\ forall i row c,
         nth_error rows i = Some row ->
         nth_error channels i = Some c ->
         let before :=
           trace_after (map_indexedM (formatChannelToRow L W) 0
                                     (firstn i channels) this tr) in
         result (formatChannelExpiration L W (expiration c) this before)
         = Normal (nth 5 row "").
Proof.
  destruct (rows_run L W T this channels 0 tr) as (rows & evs & E & Hidx & Hall).
  exists rows. split; [rewrite E; reflexivity|].
  split; [now rewrite map_indexed_seq|]. split; [exact Hall|].
  split;
    [|intros i row c Hrow Hc; cbv zeta;
      apply (rows_labels L W T this channels 0 tr rows); try assumption;
      rewrite E; reflexivity].
  intros i row Hrow.
  assert (Hlen : List.length rows = List.length channels)
    by (apply (f_equal (@List.length _)) in Hidx; now rewrite !length_map, length_seq in Hidx).
  assert (Hi : (i < List.length channels)%nat)
    by (rewrite <- Hlen; apply nth_error_Some; congruence).
  assert (Hcol : nth_error (map (fun row => nth 0 row "") rows) i = Some (nth 0 row ""))
    by (rewrite nth_error_map, Hrow; reflexivity).
  rewrite Hidx, nth_error_map, nth_error_seq in Hcol.
  destruct (Nat.ltb_spec i (List.length channels)) as [_|Hge]; [|lia].
  cbn [option_map Nat.add] in Hcol. injection Hcol as <-.
  rewrite channel_at_choice. split; [reflexivity|]. now apply nth_error_Some.
Qed.

(** ** [base64url] *)

Lemma replace_all_remove (from : ascii) (s : string) :
  chars (replace_all from "" s) = filter (fun c => negb (Ascii.eqb c from)) (chars s).
Proof.
  induction s as [|c s IH]; [reflexivity|].
  cbn [replace_all chars list_ascii_of_string filter]. fold (chars s).
  destruct (Ascii.eqb c from); cbn [negb append chars list_ascii_of_string];
    fold (chars (replace_all from "" s)); now rewrite IH.
Qed.

Lemma replace_all_char (from to : ascii) (s : string) :
  chars (replace_all from (String to "") s)
  = map (fun c => if Ascii.eqb c from then to else c) (chars s).
Proof.
  induction s as [|c s IH]; [reflexivity|].
  cbn [replace_all chars list_ascii_of_string map]. fold (chars s).
  destruct (Ascii.eqb c from); cbn [append chars list_ascii_of_string];
    fold (chars (replace_all from (String to "") s)); now rewrite IH.
Qed.

Lemma url_safe_not_special (c : ascii) :
  is_padding c = false ->
  url_safe c <> "="%char /\ url_safe c <> "+"%char /\ url_safe c <> "/"%char.
Proof.
  unfold is_padding, url_safe. intros Hp.
  destruct (Ascii.eqb_spec c "+") as [->|Hplus]; [repeat split; discriminate|].
  destruct (Ascii.eqb_spec c "/") as [->|Hslash]; [repeat split; discriminate|].
  apply Ascii.eqb_neq in Hp.
  repeat split; assumption.
Qed.

Lemma url_safe_clean (l : list ascii) :
  (forall c, In c l -> c <> "="%char /\ c <> "+"%char /\ c <> "/"%char) ->
  map url_safe (filter (fun c => negb (is_padding c)) l) = l.
Proof.
  induction l as [|c l IH]; intros Hclean; [reflexivity|].
  destruct (Hclean c (or_introl eq_refl)) as (Heq & Hplus & Hslash).
  cbn [filter]. unfold is_padding at 1.
  destruct (Ascii.eqb_spec c "="); [contradiction|]. cbn [negb map].
  unfold url_safe at 1.
  destruct (Ascii.eqb_spec c "+"); [contradiction|].
  destruct (Ascii.eqb_spec c "/"); [contradiction|].
  f_equal. apply IH. intros x Hx. apply Hclean. now right.
Qed.

(** X8.  [base64url] drops every '=' of the base64 text and turns '+' into
    '-' and '/' into '_', leaving all other characters in place and in
    order; so its result contains none of '=', '+' and '/', is never longer
    than the base64 text, and is that text itself when it has none of the
    three characters. *)
Theorem base64url_is_url_safe (L : Lib) (buf : list Byte.byte) :
  let b64 := chars (toString_base64 L buf) in
  let out := chars (base64url L buf) in
  out = map url_safe (filter (fun c => negb (is_padding c)) b64)
  /\ (forall c, In c out -> c <> "="%char /\ c <> "+"%char /\ c <> "/"%char)
  /\ (List.length out <= List.length b64)%nat
  /\ ((forall c, In c b64 -> c <> "="%char /\ c <> "+"%char /\ c <> "/"%char) ->
      base64url L buf = toString_base64 L buf).
Proof.
  cbv zeta.
  assert (E : chars (base64url L buf)
              = map url_safe (filter (fun c => negb (is_padding c))
                                     (chars (toString_base64 L buf)))).
  { unfold base64url. rewrite !replace_all_char, replace_all_remove, map_map.
    apply map_ext. intros c. unfold url_safe.
    destruct (Ascii.eqb_spec c "+") as [->|Hplus]; [reflexivity|].
    destruct (Ascii.eqb_spec c "/"); reflexivity. }
  split; [exact E|]. split; [|split].
  - rewrite E. intros c [x [<- Hx]]%in_map_iff.
    apply filter_In in Hx as [_ Hx]. apply url_safe_not_special.
    now destruct (is_padding x).
  - rewrite E, length_map. apply filter_length_le.
  - intros Hclean. apply chars_inj. rewrite E. now apply url_safe_clean.
Qed.

Example base64url_sample :
  replace_all "/" "_" (replace_all "+" "-" (replace_all "=" "" "ab+/cd+Q==")) = "ab-_cd-Q".
Proof. reflexivity. Qed.

(** ** More on [comma] *)

Lemma sep_suffix_length (l : list ascii) :
  List.length (sep_suffix l) = (List.length l + (List.length l - 1) / 3)%nat.
Proof.
  induction l as [|e rest IH]; [reflexivity|].
  rewrite sep_suffix_cons.
  destruct ((S (List.length rest) mod 3 =? 1) && (0 <? List.length rest))%nat eqn:E;
    cbn [List.length]; rewrite IH;
    revert E; nat_bool; intros _; lia.
Qed.

(** X9.  On any string, digits or not, [comma] adds exactly
    floor((length - 1) / 3) separators: the result is that much longer than
    the argument; the empty string stays empty; and when the argument has no
    comma of its own, deleting the commas from the result gives the argument
    back, so [comma] loses no information. *)
Theorem comma_length_and_inverse (a : string) :
  String.length (comma a) = (String.length a + (String.length a - 1) / 3)%nat
  /\ (a = "" -> comma a = "")
  /\ (forallb (fun c => negb (Ascii.eqb c ",")) (chars a) = true ->
      remove_commas (chars (comma a)) = chars a).
Proof.
  split; [|split].
  - rewrite <- (chars_length (comma a)), comma_chars, sep_suffix_length.
    now rewrite chars_length.
  - intros ->. reflexivity.
  - intros Hclean. rewrite comma_chars, remove_commas_sep_suffix.
    unfold remove_commas. induction (chars a) as [|c l IH]; [reflexivity|].
    cbn [forallb filter] in *. apply andb_true_iff in Hclean as [Hc Hl].
    rewrite Hc. f_equal. now apply IH.
Qed.

Lemma base64url_is_url_safe_witness :
  (forall c, In c (chars (toString_base64 Sample.lib [Byte.x41; Byte.x42])) ->
             c <> "="%char /\ c <> "+"%char /\ c <> "/"%char)
  /\ base64url Sample.lib [Byte.x41; Byte.x42] = toString_base64 Sample.lib [Byte.x41; Byte.x42].
Proof.
  assert (H : forall c, In c (chars (toString_base64 Sample.lib [Byte.x41; Byte.x42])) ->
                        c <> "="%char /\ c <> "+"%char /\ c <> "/"%char).
  { intros c [<-|[<-|[]]]; repeat split; discriminate. }
  split; [exact H|].
  exact (proj2 (proj2 (proj2 (base64url_is_url_safe Sample.lib [Byte.x41; Byte.x42]))) H).
Defined.

Lemma comma_length_and_inverse_witness :
  forallb (fun c => negb (Ascii.eqb c ",")) (chars "-1234.5") = true
  /\ remove_commas (chars (comma "-1234.5")) = chars "-1234.5"
  /\ String.length (comma "-1234.5") = 9%nat.
Proof.
  split; [reflexivity|].
  destruct (comma_length_and_inverse "-1234.5") as (Hlen & _ & Hinv).
  split; [exact (Hinv eq_refl) | exact Hlen].
Defined.

(** ** The secret inside the URI *)

Lemma hex_digit_is_lower_hex (n : N) : (n < 16)%N -> is_lower_hex (hex_digit n) = true.
Proof.
  intros H. unfold hex_digit.
  assert (Hn : (N.to_nat n < 16)%nat) by lia.
  destruct (N.to_nat n) as [|[|[|[|[|[|[|[|[|[|[|[|[|[|[|[|k]]]]]]]]]]]]]]]];
    [reflexivity ..|lia].
Qed.

Lemma toString_hex_chars (buf : list Byte.byte) :
  forallb is_lower_hex (chars (toString_hex buf)) = true
  /\ String.length (toString_hex buf) = (2 * List.length buf)%nat.
Proof.
  induction buf as [|b buf [IHc IHl]]; [split; reflexivity|].
  cbn [toString_hex chars list_ascii_of_string forallb String.length List.length].
  fold (chars (toString_hex buf)).
  assert (Hb : (Byte.to_N b < 256)%N) by (pose proof (Byte.to_N_bounded b); lia).
  rewrite !hex_digit_is_lower_hex, IHc, IHl.
  - split; [reflexivity | lia].
  - apply N.mod_lt. discriminate.
  - apply N.Div0.div_lt_upper_bound. lia.
Qed.

(** X10.  In every configuration [configure] returns, the secret placed
    between ':' and '@' of [options.server] consists of lowercase
    hexadecimal digits only, two for each byte of the HMAC digest; the
    characters that delimit it in the URI cannot occur inside it. *)
Theorem configure_secret_is_hex
        (L : Lib) (W : World) (testnet advanced : bool) (tr : trace) (cfg : UplinkConfig) :
  result (configure L W testnet advanced tt tr) = Normal cfg ->
  exists parentHost channelName btpSecret digest,
    server (options cfg)
    = "btp+wss://" ++ channelName ++ ":" ++ btpSecret ++ "@" ++ parentHost
    /\ digest = hmac L (Buf (hmac L (Str parentBtpHmacKey) (Str (parentHost ++ channelName))))
                       (Str (secret (options cfg)))
    /\ btpSecret = toString_hex digest
    /\ String.length btpSecret = (2 * List.length digest)%nat
    /\ forallb is_lower_hex (chars btpSecret) = true
    /\ (forall c, In c (chars btpSecret) -> c <> ":"%char /\ c <> "@"%char).
Proof.
  intros H. destruct (configure_server L W testnet advanced tr cfg H) as (res & _ & Hs).
  set (digest := hmac L (Buf (hmac L (Str parentBtpHmacKey)
                                     (Str (res_parent res ++ res_name res))))
                        (Str (secret (options cfg)))).
  exists (res_parent res), (res_name res), (toString_hex digest), digest.
  split; [exact Hs|]. split; [reflexivity|]. split; [reflexivity|].
  destruct (toString_hex_chars digest) as [Hhex Hlen].
  split; [exact Hlen|]. split; [exact Hhex|].
  intros c Hc. rewrite forallb_forall in Hhex. specialize (Hhex c Hc).
  split; intros ->; discriminate Hhex.
Qed.

Lemma configure_secret_is_hex_witness :
  result (configure Sample.lib Sample.world true false tt []) = Normal Sample.testnet_cfg
  /\ exists parentHost channelName btpSecret digest,
       server (options Sample.testnet_cfg)
       = "btp+wss://" ++ channelName ++ ":" ++ btpSecret ++ "@" ++ parentHost
       /\ digest = hmac Sample.lib
                       (Buf (hmac Sample.lib (Str parentBtpHmacKey)
                                  (Str (parentHost ++ channelName))))
                       (Str (secret (options Sample.testnet_cfg)))
       /\ btpSecret = toString_hex digest
       /\ String.length btpSecret = (2 * List.length digest)%nat
       /\ forallb is_lower_hex (chars btpSecret) = true
       /\ (forall c, In c (chars btpSecret) -> c <> ":"%char /\ c <> "@"%char).
Proof.
  assert (H : result (configure Sample.lib Sample.world true false tt [])
              = Normal Sample.testnet_cfg) by (vm_compute; reflexivity).
  split; [exact H|].
  exact (configure_secret_is_hex Sample.lib Sample.world true false []
           Sample.testnet_cfg H).
Defined.

(** ** A connection attempt that fails *)

(** X11.  [_rippleApi] stores the API object in [this.api] before it
    awaits [connect]: when the connection attempt of a session throws, the
    error reaches the caller, but the object stays stored, and every later
    call of [_rippleApi] on that session returns it at once, without any
    further connection attempt. *)
Theorem rippleApi_failed_connect_is_not_retried
        (W : World) (this : XrpUplink) (tr : trace) (e : Js.Error) :
  api this = None ->
  api_connect W tr (xrpServer (pluginOpts this)) = Fail e ->
  let r := _rippleApi W this tr in
  let a := new_RippleAPI (xrpServer (pluginOpts this)) in
  result r = Thrown e
  /\ this_after r = set_api a this
  /\ trace_after r = (tr ++ [EvConnect (xrpServer (pluginOpts this)) (Fail e)])%list
  /\ forall tr', _rippleApi W (this_after r) tr' = mkRun (Normal a) (this_after r) tr'.
Proof.
  intros Ha Hc. cbv zeta.
  assert (E : _rippleApi W this tr
              = mkRun (Thrown e)
                      (set_api (new_RippleAPI (xrpServer (pluginOpts this))) this)
                      (tr ++ [EvConnect (xrpServer (pluginOpts this)) (Fail e)])%list).
  { unfold _rippleApi. munfold. rewrite Ha. cbn [result this_after trace_after api_server].
    rewrite Hc. reflexivity. }
  rewrite E. cbn [result this_after trace_after]. repeat split.
Qed.

Lemma rippleApi_failed_connect_is_not_retried_witness :
  api Sample.session = None
  /\ api_connect (Sample.with_connect (Fail Sample.connect_error) Sample.world) []
                 (xrpServer (pluginOpts Sample.session))
     = Fail Sample.connect_error
  /\ result (_rippleApi (Sample.with_connect (Fail Sample.connect_error) Sample.world)
                        Sample.session [])
     = Thrown Sample.connect_error
  /\ forall tr',
       _rippleApi (Sample.with_connect (Fail Sample.connect_error) Sample.world)
                  (this_after (_rippleApi (Sample.with_connect (Fail Sample.connect_error)
                                                               Sample.world)
                                          Sample.session []))
                  tr'
       = mkRun (Normal (new_RippleAPI (xrpServer (pluginOpts Sample.session))))
               (this_after (_rippleApi (Sample.with_connect (Fail Sample.connect_error)
                                                            Sample.world)
                                       Sample.session []))
               tr'.
Proof.
  split; [reflexivity|]. split; [reflexivity|].
  destruct (rippleApi_failed_connect_is_not_retried
              (Sample.with_connect (Fail Sample.connect_error) Sample.world)
              Sample.session [] Sample.connect_error eq_refl eq_refl)
    as (Hres & _ & _ & Hlater).
  split; [exact Hres | exact Hlater].
Defined.

(** ** Failures inside [validateAddress] *)

(** X12.  [validateAddress] works on a connection of its own and asks the
    ledger at most three things, in this order: connect, account info,
    server info.  It stops at the first failure: an error of [connect] or of
    [getServerInfo] reaches the caller unchanged, and after a failed
    [connect] nothing else is asked.  It never subscribes or submits and
    leaves the caller's object alone. *)
Theorem validateAddress_stops_at_first_failure
        (L : Lib) (W : World) (T : Type) (this : T) (tr : trace)
        (server address : string) :
  let r := validateAddress L W server address this tr in
  exists evs,
    trace_after r = (tr ++ EvConnect server (api_connect W tr server) :: evs)%list
    /\ this_after r = this
    /\ forallb (fun e => match e with
                         | EvGetAccountInfo _ _ _ | EvGetServerInfo _ _ => true
                         | _ => false
                         end) evs = true
    /\ (List.length evs <= 2)%nat
    /\ (forall e, api_connect W tr server = Fail e -> result r = Thrown e /\ evs = [])
    /\ (forall info e,
          api_connect W tr server = Ok tt ->
          api_getAccountInfo W (tr ++ [EvConnect server (Ok tt)])%list server address
          = Ok info ->
          api_getServerInfo W ((tr ++ [EvConnect server (Ok tt)])
                                 ++ [EvGetAccountInfo server address (Ok info)])%list server
          = Fail e ->
          result r = Thrown e
          /\ evs = [EvGetAccountInfo server address (Ok info);
                    EvGetServerInfo server (Fail e)]).
Proof.
  cbv zeta. unfold validateAddress. munfold. cbn [api_server].
  destruct (api_connect W tr server) as [[]|e0] eqn:Ec;
    cbn [result this_after trace_after].
  2:{ exists []. split; [reflexivity|]. split; [reflexivity|]. split; [reflexivity|].
      split; [cbn; lia|]. split.
      - intros e He. injection He as <-. split; reflexivity.
      - intros info e Hc. discriminate Hc. }
  destruct (api_getAccountInfo W _ server address) as [info0|e0] eqn:Ei;
    cbn [result this_after trace_after].
  2:{ exists [EvGetAccountInfo server address (Fail e0)].
      rewrite <- app_assoc. cbn [app].
      destruct (negb (Js.err_message e0 =? "actNotFound"));
        cbn [result this_after trace_after];
        (split; [reflexivity|]); (split; [reflexivity|]); (split; [reflexivity|]);
        (split; [cbn; lia|]); (split; [intros e He; discriminate He|]);
        intros info e _ Hi; discriminate Hi. }
  destruct (api_getServerInfo W _ server) as [sinfo|e0] eqn:Es;
    cbn [result this_after trace_after].
  2:{ exists [EvGetAccountInfo server address (Ok info0); EvGetServerInfo server (Fail e0)].
      rewrite <- !app_assoc. cbn [app].
      split; [reflexivity|]. split; [reflexivity|]. split; [reflexivity|].
      split; [cbn; lia|]. split; [intros e He; discriminate He|].
      intros info e _ Hi Hs. injection Hi as <-. rewrite Es in Hs.
      injection Hs as <-. split; reflexivity. }
  exists [EvGetAccountInfo server address (Ok info0); EvGetServerInfo server (Ok sinfo)].
  rewrite <- !app_assoc. cbn [app].
  destruct (Js.ltb _ _); cbn [result this_after trace_after];
    (split; [reflexivity|]); (split; [reflexivity|]); (split; [reflexivity|]);
    (split; [cbn; lia|]); (split; [intros e He; discriminate He|]);
    intros info e _ Hi Hs; injection Hi as <-; rewrite Es in Hs; discriminate Hs.
Qed.

Lemma validateAddress_stops_at_first_failure_witness :
  api_connect Sample2.no_server_info [] "wss://live.example" = Ok tt
  /\ api_getAccountInfo Sample2.no_server_info [EvConnect "wss://live.example" (Ok tt)]
                        "wss://live.example" "rAccount"
     = Ok (mkAccountInfo "1000040" 3)
  /\ api_getServerInfo Sample2.no_server_info
       [EvConnect "wss://live.example" (Ok tt);
        EvGetAccountInfo "wss://live.example" "rAccount" (Ok (mkAccountInfo "1000040" 3))]
       "wss://live.example"
     = Fail (Js.mkError "TimeoutError" "timeout")
  /\ result (validateAddress Sample.lib Sample2.no_server_info
                             "wss://live.example" "rAccount" tt [])
     = Thrown (Js.mkError "TimeoutError" "timeout").
Proof.
  repeat (split; [reflexivity|]).
  destruct (validateAddress_stops_at_first_failure
              Sample.lib Sample2.no_server_info unit tt [] "wss://live.example" "rAccount")
    as (evs & _ & _ & _ & _ & _ & Hserver).
  exact (proj1 (Hserver (mkAccountInfo "1000040" 3) (Js.mkError "TimeoutError" "timeout")
                        eq_refl eq_refl eq_refl)).
Defined.

(** ** What [configure] asks the user *)

Lemma fill_field_run
      (W : World) (T : Type) (advanced : bool) (f : Field) (this : T) (tr : trace) :
  exists v,
    fill_field W advanced f this tr
    = mkRun (Normal v) this
            (tr ++ if asks advanced f then [EvPrompt (f_name f) v] else [])%list
    /\ (asks advanced f = false -> f_default f = Some v).
Proof.
  unfold fill_field, inquirer_prompt, asks. munfold.
  destruct (f_default f) as [d|]; [destruct advanced|]; cbn [orb].
  - eexists. split; [reflexivity | discriminate].
  - exists d. rewrite app_nil_r. split; reflexivity.
  - rewrite orb_true_r. eexists. split; [reflexivity | discriminate].
Qed.

(** Without [advanced] the testnet secret is not asked for and is empty. *)
Lemma prompt_fields_testnet_default
      (L : Lib) (W : World) (T : Type) (this : T) (tr : trace) :
  exists res evs,
    prompt_fields L W true false this tr = mkRun (Normal res) this (tr ++ evs)%list
    /\ forallb is_prompt evs = true
    /\ ~ In "secret" (prompted_names evs)
    /\ res_secret res = "".
Proof.
  unfold prompt_fields. cbv zeta.
  set (fp := field_parent _). set (fx := field_xrpServer _).
  rewrite bind_run.
  destruct (fill_field_run W T false fp this tr) as (v1 & E1 & _).
  rewrite E1. cbn [result this_after trace_after].
  unfold fill_field at 1 2. cbn [f_default field_name field_secret]. munfold.
  match goal with
  | |- context [fill_field W false fx this ?t] =>
      destruct (fill_field_run W T false fx this t) as (v4 & E4 & _)
  end.
  rewrite E4. cbn [result this_after trace_after].
  eexists. eexists. rewrite <- !app_assoc. split; [reflexivity|].
  subst fp fx. cbn [f_name field_parent field_xrpServer res_secret].
  destruct (asks false (field_parent _)), (asks false (field_xrpServer _));
    cbn [app forallb is_prompt andb prompted_names flat_map In];
    (split; [reflexivity|]); (split; [|reflexivity]);
    intros Hin; repeat (destruct Hin as [Hin|Hin]; [discriminate Hin|]); exact Hin.
Qed.

(** X13.  The loop over [fields] prompts for a field exactly when
    [advanced] is set or the field has no default, in the order parent,
    name, secret, xrpServer, and does nothing else; a field it does not
    prompt for gets its default.  So without [advanced] the channel name is
    always the random default, on the live network the secret is always
    asked for, and on the testnet it is not asked for and stays empty. *)
Theorem prompt_fields_asks_when_needed
        (L : Lib) (W : World) (T : Type) (testnet advanced : bool) (this : T) (tr : trace) :
  exists res evs,
    prompt_fields L W testnet advanced this tr = mkRun (Normal res) this (tr ++ evs)%list
    /\ forallb is_prompt evs = true
    /\ prompted_names evs = map f_name (filter (asks advanced) (fields L W testnet))
    /\ Forall (fun f => In (EvPrompt (f_name f) (answer res (f_name f))) evs
                        \/ (asks advanced f = false
                            /\ f_default f = Some (answer res (f_name f))))
              (fields L W testnet)
    /\ (advanced = false -> res_name res = base64url L (randomBytes W 32))
    /\ (advanced = false -> testnet = true -> res_secret res = "")
    /\ (testnet = false -> In "secret" (prompted_names evs)).
Proof.
  unfold prompt_fields, fields. cbv zeta.
  set (fp := field_parent _). set (fx := field_xrpServer _).
  rewrite bind_run.
  destruct (fill_field_run W T advanced fp this tr) as (v1 & E1 & D1).
  rewrite E1. cbn [result this_after trace_after]. rewrite bind_run.
  destruct (fill_field_run W T advanced (field_name L W) this
              (tr ++ if asks advanced fp then [EvPrompt (f_name fp) v1] else [])%list)
    as (v2 & E2 & D2).
  rewrite E2. cbn [result this_after trace_after]. rewrite bind_run.
  match goal with
  | |- context [fill_field W advanced (field_secret L testnet) this ?t] =>
      destruct (fill_field_run W T advanced (field_secret L testnet) this t)
        as (v3 & E3 & D3)
  end.
  rewrite E3. cbn [result this_after trace_after]. rewrite bind_run.
  match goal with
  | |- context [fill_field W advanced fx this ?t] =>
      destruct (fill_field_run W T advanced fx this t) as (v4 & E4 & D4)
  end.
  rewrite E4. cbn [result this_after trace_after]. unfold ret.
  eexists. eexists. rewrite <- !app_assoc. split; [reflexivity|].
  cbn [answer String.eqb Ascii.eqb Bool.eqb f_name field_name field_secret
       res_parent res_name res_secret res_xrpServer filter map].
  subst fp fx. cbn [f_name field_parent field_xrpServer] in *.
  assert (Hsecret : testnet = false -> asks advanced (field_secret L testnet) = true)
    by (intros ->; unfold asks; cbn; apply orb_true_r).
  assert (Hname : advanced = false -> v2 = base64url L (randomBytes W 32)).
  { intros ->. specialize (D2 eq_refl). cbn in D2. now injection D2 as <-. }
  assert (Hempty : advanced = false -> testnet = true -> v3 = "").
  { intros -> ->. specialize (D3 eq_refl). cbn in D3. now injection D3 as <-. }
  destruct (asks advanced (field_parent _)) eqn:A1,
    (asks advanced (field_name L W)) eqn:A2,
    (asks advanced (field_secret L testnet)) eqn:A3,
    (asks advanced (field_xrpServer _)) eqn:A4;
    cbn [app forallb is_prompt andb prompted_names flat_map map f_name
         field_parent field_name field_secret field_xrpServer];
    (split; [reflexivity|]); (split; [reflexivity|]);
    (split;
     [apply Forall_cons;
      [|apply Forall_cons; [|apply Forall_cons; [|apply Forall_cons; [|apply Forall_nil]]]];
      first [ left; vm_compute; solve [auto 10]
            | right; split; [assumption|];
              first [exact (D1 eq_refl) | exact (D2 eq_refl)
                    | exact (D3 eq_refl) | exact (D4 eq_refl)] ]|]);
    (split; [exact Hname|]); (split; [exact Hempty|]);
    intros Ht; specialize (Hsecret Ht); first [discriminate Hsecret | cbn [In]; tauto].
Qed.

Lemma prompt_fields_asks_when_needed_witness :
  exists res evs,
    prompt_fields Sample.lib Sample.world true false tt []
    = mkRun (Normal res) tt ([] ++ evs)%list
    /\ res_secret res = ""
    /\ res_name res = base64url Sample.lib (randomBytes Sample.world 32).
Proof.
  destruct (prompt_fields_asks_when_needed Sample.lib Sample.world unit true false tt [])
    as (res & evs & E & _ & _ & _ & Hname & Hsecret & _).
  exists res, evs. split; [exact E|].
  split; [exact (Hsecret eq_refl eq_refl) | exact (Hname eq_refl)].
Defined.

(** ** The faucet path of [configure] *)

(** What the faucet path adds to the history after the prompts. *)
Lemma configure_faucet_events
      (L : Lib) (W : World) (advanced : bool) (tr : trace) (res : Answers) :
  result (prompt_fields L W true advanced tt tr) = Normal res ->
  Js.truthy (res_secret res) = false ->
  exists evs,
    trace_after (configure L W true advanced tt tr)
    = (trace_after (prompt_fields L W true advanced tt tr) ++ evs)%list
    /\ count is_fetch_faucet evs = 1%nat
    /\ existsb is_fetch_faucet evs = true
    /\ existsb is_connect evs = false
    /\ prompted_names evs = []
    /\ (forall c, result (configure L W true advanced tt tr) <> Exited c).
Proof.
  intros Hp Hs. unfold configure. rewrite bind_run.
  destruct (prompt_fields L W true advanced tt tr) as [rp thisp trp].
  cbn [result this_after trace_after] in *. subst rp.
  rewrite Hs. cbn [andb negb]. munfold.
  destruct (fetch_faucet W _) as [account|e]; cbn [result this_after trace_after];
    eexists; rewrite <- !app_assoc; (split; [reflexivity|]);
    repeat split; discriminate.
Qed.

(** X15.  On the faucet path (testnet, and the secret left empty)
    [configure] asks the faucet exactly once.  If the faucet answers, the
    returned configuration carries the faucet's address and secret, its BTP
    secret is derived from the faucet's secret, and the run ends with the
    10000 ms wait; if the faucet request fails, the error is thrown to the
    caller at once, nothing is waited for and no configuration is
    returned. *)
Theorem configure_faucet_path
        (L : Lib) (W : World) (advanced : bool) (tr : trace) (res : Answers) :
  result (prompt_fields L W true advanced tt tr) = Normal res ->
  Js.truthy (res_secret res) = false ->
  let tr1 := (trace_after (prompt_fields L W true advanced tt tr)
              ++ [EvConsoleLog ["acquiring testnet account..."]])%list in
  let r := configure L W true advanced tt tr in
  match fetch_faucet W tr1 with
  | Ok account =>
      trace_after r
      = (tr1 ++ [EvFetchFaucet (Ok account);
                 EvConsoleLog [("got testnet address " ++ dquote
                                ++ faucet_address account ++ dquote)%string];
                 EvConsoleLog ["waiting for testnet API to fund address..."];
                 EvSetTimeout 10000])%list
      /\ exists cfg,
           result r = Normal cfg
           /\ address (options cfg) = faucet_address account
           /\ secret (options cfg) = faucet_secret account
           /\ xrpServer (options cfg) = res_xrpServer res
           /\ server (options cfg)
              = CredentialSpec.connection_uri L (res_parent res) (res_name res)
                                              (faucet_secret account)
  | Fail e =>
      result r = Thrown e
      /\ trace_after r = (tr1 ++ [EvFetchFaucet (Fail e)])%list
  end.
Proof.
  intros Hp Hs. cbv zeta. unfold configure. rewrite bind_run.
  destruct (prompt_fields L W true advanced tt tr) as [rp thisp trp].
  cbn [result this_after trace_after] in *. subst rp.
  rewrite Hs. cbn [andb negb]. munfold.
  destruct (fetch_faucet W _) as [account|e]; cbn [result this_after trace_after].
  - rewrite <- !app_assoc. cbn [app]. split; [reflexivity|].
    eexists. split; [reflexivity|]. cbn [options address secret xrpServer server fst snd].
    repeat split.
    unfold CredentialSpec.connection_uri, CredentialSpec.deriveSecret, hmac,
      parentBtpHmacKey. cbn [bytes_of]. now rewrite or_else_empty.
  - split; reflexivity.
Qed.

Lemma configure_faucet_path_witness :
  result (prompt_fields Sample.lib Sample2.no_faucet true false tt [])
  = Normal (mkAnswers "client.test.example" "AAAAAAAAAAAAAAAAAAAAAAAAAAAAAAAA" ""
                      "wss://test.example")
  /\ Js.truthy "" = false
  /\ result (configure Sample.lib Sample2.no_faucet true false tt [])
     = Thrown (Js.mkError "FetchError" "ECONNREFUSED").
Proof.
  assert (Hp : result (prompt_fields Sample.lib Sample2.no_faucet true false tt [])
               = Normal (mkAnswers "client.test.example"
                                   "AAAAAAAAAAAAAAAAAAAAAAAAAAAAAAAA" ""
                                   "wss://test.example")) by reflexivity.
  split; [exact Hp|]. split; [reflexivity|].
  assert (H := configure_faucet_path Sample.lib Sample2.no_faucet false [] _ Hp eq_refl).
  cbv zeta in H. cbn [fetch_faucet Sample2.no_faucet] in H.
  exact (proj1 H).
Defined.

Lemma existsb_false_forallb (f g : event -> bool) (evs : list event) :
  (forall e, g e = true -> f e = false) ->
  forallb g evs = true -> existsb f evs = false.
Proof.
  intros Hfg. induction evs as [|e evs IH]; [reflexivity|]. cbn [forallb existsb].
  intros [He Hr]%andb_true_iff. now rewrite (Hfg e He), IH.
Qed.

Lemma prompted_names_app (evs evs' : list event) :
  prompted_names (evs ++ evs') = (prompted_names evs ++ prompted_names evs')%list.
Proof. unfold prompted_names. apply flat_map_app. Qed.

(** X14.  Run for the testnet without [advanced], [configure] never asks
    for a secret: it always takes the faucet path, asks the faucet exactly
    once, never validates an account, and never ends the process. *)
Theorem configure_testnet_default_uses_faucet (L : Lib) (W : World) (tr : trace) :
  let r := configure L W true false tt tr in
  exists evs,
    trace_after r = (tr ++ evs)%list
    /\ ~ In "secret" (prompted_names evs)
    /\ count is_fetch_faucet evs = 1%nat
    /\ faucet_requested evs = true
    /\ validation_started evs = false
    /\ (forall c, result r <> Exited c).
Proof.
  cbv zeta.
  destruct (prompt_fields_testnet_default L W unit tt tr)
    as (res & evs0 & E & Hall & Hno & Hsecret).
  assert (Hp : result (prompt_fields L W true false tt tr) = Normal res)
    by (rewrite E; reflexivity).
  assert (Ht : Js.truthy (res_secret res) = false) by (rewrite Hsecret; reflexivity).
  destruct (configure_faucet_events L W false tr res Hp Ht)
    as (evs & Htr & Hone & Hf & Hv & Hnames & Hexit).
  rewrite E in Htr. cbn [trace_after] in Htr.
  exists (evs0 ++ evs)%list. rewrite Htr, <- app_assoc. split; [reflexivity|].
  split; [rewrite prompted_names_app, Hnames, app_nil_r; exact Hno|].
  split.
  { rewrite count_app, Hone.
    rewrite (count_zero_forallb is_fetch_faucet evs0); [reflexivity|].
    revert Hall. apply forallb_impl. kind_incl. }
  unfold faucet_requested, validation_started. rewrite !existsb_app, Hf, Hv.
  split; [apply orb_true_r|]. split; [|exact Hexit].
  rewrite orb_false_r. revert Hall. apply existsb_false_forallb. kind_incl.
Qed.

(** ** What [configure] never does *)

Lemma configure_keeps (L : Lib) (W : World) (P : unit -> trace -> Prop)
      (testnet advanced : bool) :
  closed_under P (configure_kind testnet) ->
  preserves P (configure L W testnet advanced).
Proof.
  intros Hc.
  assert (Hprompt : closed_under P is_prompt)
    by (refine (closed_under_weaken P _ _ _ Hc); destruct testnet; kind_incl).
  assert (Hval : closed_under P is_validation)
    by (refine (closed_under_weaken P _ _ _ Hc); destruct testnet; kind_incl).
  unfold configure.
  apply preserves_bind; [now apply prompt_fields_keeps|]. intros res. cbv zeta.
  apply preserves_bind; [|intros; apply preserves_ret].
  destruct testnet; cbn [andb].
  - destruct (negb (Js.truthy (res_secret res))).
    + keeps Hc.
    + apply preserves_bind; [apply preserves_of_reply|]. intros kp.
      apply preserves_bind; [|intros; apply preserves_ret].
      apply preserves_try_catch; [now apply validateAddress_keeps|].
      intros err. keeps Hc.
  - apply preserves_bind; [apply preserves_of_reply|]. intros kp.
    apply preserves_bind; [|intros; apply preserves_ret].
    apply preserves_try_catch; [now apply validateAddress_keeps|].
    intros err. keeps Hc.
Qed.

(** X16.  Whatever the prompts, the ledger and the faucet answer,
    [configure] only prompts, writes to the console, validates the account
    (connect, account info, server info), contacts the faucet and waits for
    it, or ends the process: it never subscribes, never lists channels and
    never submits a transaction.  On the live network it also never contacts
    the faucet and never waits. *)
Theorem configure_footprint
        (L : Lib) (W : World) (testnet advanced : bool) (tr : trace) :
  exists evs,
    trace_after (configure L W testnet advanced tt tr) = (tr ++ evs)%list
    /\ forallb (configure_kind testnet) evs = true
    /\ subscribe_count evs = 0%nat
    /\ submit_attempts evs = []
    /\ count (fun e => match e with EvAccountChannels _ _ _ => true | _ => false end) evs
       = 0%nat
    /\ (testnet = false ->
        faucet_requested evs = false /\ count is_set_timeout evs = 0%nat).
Proof.
  destruct (emits_of_keeps (configure_kind testnet) (configure L W testnet advanced))
    with (this := tt) (tr := tr) as (evs & Htr & Hall).
  { intros tr0. apply configure_keeps. apply grew_by_closed. }
  exists evs. split; [exact Htr|]. split; [exact Hall|].
  split; [|split; [|split]].
  - rewrite subscribe_count_is_count. apply count_zero_forallb.
    revert Hall. apply forallb_impl. destruct testnet; kind_incl.
  - apply submit_attempts_none. revert Hall. apply forallb_impl.
    destruct testnet; kind_incl.
  - apply count_zero_forallb. revert Hall. apply forallb_impl.
    destruct testnet; kind_incl.
  - intros ->. split.
    + unfold faucet_requested. revert Hall. apply existsb_false_forallb. kind_incl.
    + apply count_zero_forallb. revert Hall. apply forallb_impl. kind_incl.
Qed.

Lemma configure_footprint_witness :
  exists evs,
    trace_after (configure Sample.lib Sample.funded_world false false tt []) = ([] ++ evs)%list
    /\ faucet_requested evs = false
    /\ count is_set_timeout evs = 0%nat
    /\ subscribe_count evs = 0%nat.
Proof.
  destruct (configure_footprint Sample.lib Sample.funded_world false false [])
    as (evs & Htr & _ & Hsub & _ & _ & Hlive).
  exists evs. split; [exact Htr|].
  destruct (Hlive eq_refl) as [Hf Ht]. repeat split; assumption.
Defined.

Lemma table_index_selects_its_channel_witness :
  exists rows,
    result (map_indexedM (formatChannelToRow Sample.lib Sample.world) 0
                         [Sample.chanA; Sample.chanB] tt [])
    = Normal rows
    /\ (forall i row,
          nth_error rows i = Some row ->
          channel_at [Sample.chanA; Sample.chanB] (nth 0 row "")
          = nth_error [Sample.chanA; Sample.chanB] i)
    /\ forall row,
         nth_error rows 1 = Some row ->
         let before :=
           trace_after (map_indexedM (formatChannelToRow Sample.lib Sample.world) 0
                                     (firstn 1 [Sample.chanA; Sample.chanB]) tt []) in
         result (formatChannelExpiration Sample.lib Sample.world
                                         (expiration Sample.chanB) tt before)
         = Normal (nth 5 row "").
Proof.
  destruct (table_index_selects_its_channel Sample.lib Sample.world unit tt []
              [Sample.chanA; Sample.chanB]) as (rows & Hres & _ & _ & Hsel & Hlabel).
  exists rows. split; [exact Hres|]. split.
  - intros i row Hrow. exact (proj1 (Hsel i row Hrow)).
  - intros row Hrow. exact (Hlabel 1%nat row Sample.chanB Hrow eq_refl).
Defined.

(** * The earlier [buildConfig] *)

Lemma truthy_false_empty (s : string) : Js.truthy s = false -> s = "".
Proof. destruct s; [reflexivity | discriminate]. Qed.

Lemma legacy_prompt_all_run (L : Lib) (W : World) (T : Type) (testnet : bool)
      (this : T) (tr : trace) :
  exists res,
    Legacy.prompt_all L W testnet this tr
    = mkRun (Normal res) this
            (tr ++ [EvPrompt "parent" (Legacy.parent res);
                    EvPrompt "name" (Legacy.name res);
                    EvPrompt "secret" (Legacy.res_secret res);
                    EvPrompt "address" (Legacy.res_address res);
                    EvPrompt "xrpServer" (Legacy.res_xrpServer res)])%list.
Proof.
  unfold Legacy.prompt_all, inquirer_prompt. cbv zeta. munfold.
  cbn [f_name f_default]. eexists (Legacy.mkRes _ _ _ _ _).
  cbn [Legacy.parent Legacy.name Legacy.res_secret Legacy.res_address
       Legacy.res_xrpServer].
  rewrite <- !app_assoc. cbn [app]. reflexivity.
Qed.

(** X17.  In the earlier [buildConfig], the faucet block declares its own
    [res] for the fetch response, so the account it acquires never reaches
    the configuration: on the faucet path (testnet, empty secret) with a
    faucet that answers, the returned [options.secret] is still the empty
    string, [options.address] is whatever was typed at the address prompt
    ([undefined] if nothing), and the BTP secret is derived from the empty
    secret; only the log line shows the acquired address. *)
Theorem legacy_buildConfig_drops_faucet_account
        (L : Lib) (W : World) (tr : trace) (res : Legacy.Res) (account : FaucetAccount) :
  result (Legacy.prompt_all L W true tt tr) = Normal res ->
  Js.truthy (Legacy.res_secret res) = false ->
  fetch_faucet W (trace_after (Legacy.prompt_all L W true tt tr)
                  ++ [EvConsoleLog ["acquiring testnet account..."]])%list
  = Ok account ->
  let r := Legacy.buildConfig L W true tt tr in
  exists cfg,
    result r = Normal cfg
    /\ Legacy.secret (Legacy.options cfg) = ""
    /\ Legacy.address (Legacy.options cfg)
       = (if Js.truthy (Legacy.res_address res)
          then Some (Legacy.res_address res) else None)
    /\ Legacy.server (Legacy.options cfg)
       = CredentialSpec.connection_uri L (Legacy.parent res) (Legacy.name res) ""
    /\ last_event (trace_after r) = Some (EvSetTimeout 10000)
    /\ In (EvConsoleLog [("got testnet address " ++ dquote
                          ++ faucet_address account ++ dquote)%string])
          (trace_after r).
Proof.
  intros Hp Hs Hf. cbv zeta. unfold Legacy.buildConfig. rewrite bind_run.
  destruct (Legacy.prompt_all L W true tt tr) as [rp thisp trp].
  cbn [result this_after trace_after] in *. subst rp.
  rewrite Hs. cbn [andb negb]. munfold. rewrite Hf.
  cbn [result this_after trace_after].
  eexists. split; [reflexivity|].
  cbn [Legacy.options Legacy.secret Legacy.address Legacy.server].
  apply truthy_false_empty in Hs. rewrite Hs.
  split; [reflexivity|]. split; [reflexivity|]. split.
  - unfold CredentialSpec.connection_uri, CredentialSpec.deriveSecret, hmac,
      parentBtpHmacKey. cbn [bytes_of]. now rewrite or_else_empty.
  - split.
    + unfold last_event. rewrite map_app. cbn [map]. rewrite last_last. reflexivity.
    + rewrite !in_app_iff. cbn [In]. tauto.
Qed.

Lemma legacy_buildConfig_drops_faucet_account_witness :
  result (Legacy.prompt_all Sample.lib Sample2.silent_user true tt [])
  = Normal (Legacy.mkRes "client.test.example" "" "" ""
                         "wss://s.altnet.rippletest.net:51233")
  /\ Js.truthy "" = false
  /\ fetch_faucet Sample2.silent_user
       (trace_after (Legacy.prompt_all Sample.lib Sample2.silent_user true tt [])
        ++ [EvConsoleLog ["acquiring testnet account..."]])%list
     = Ok (mkFaucetAccount "rFaucet" "sFaucet")
  /\ exists cfg,
       result (Legacy.buildConfig Sample.lib Sample2.silent_user true tt []) = Normal cfg
       /\ Legacy.secret (Legacy.options cfg) = ""
       /\ Legacy.address (Legacy.options cfg) = None.
Proof.
  assert (Hp : result (Legacy.prompt_all Sample.lib Sample2.silent_user true tt [])
               = Normal (Legacy.mkRes "client.test.example" "" "" ""
                                      "wss://s.altnet.rippletest.net:51233"))
    by reflexivity.
  split; [exact Hp|]. split; [reflexivity|]. split; [reflexivity|].
  destruct (legacy_buildConfig_drops_faucet_account
              Sample.lib Sample2.silent_user [] _ (mkFaucetAccount "rFaucet" "sFaucet")
              Hp eq_refl eq_refl) as (cfg & Hres & Hsecret & Haddr & _).
  exists cfg. split; [exact Hres|]. split; [exact Hsecret | exact Haddr].
Defined.

(** X18.  The earlier [buildConfig] always asks its five questions, in the
    order parent, name, secret, address, xrpServer, and never looks at the
    ledger: it opens no connection and validates nothing.  On the live
    network it does nothing but prompt and always returns a configuration,
    whose secret and xrpServer are the answers given and whose address is
    the answer given, or [undefined] for an empty answer. *)
Theorem legacy_buildConfig_never_validates
        (L : Lib) (W : World) (testnet : bool) (tr : trace) :
  let r := Legacy.buildConfig L W testnet tt tr in
  exists res evs,
    result (Legacy.prompt_all L W testnet tt tr) = Normal res
    /\ trace_after r = (tr ++ evs)%list
    /\ prompted_names evs = ["parent"; "name"; "secret"; "address"; "xrpServer"]
    /\ validation_started evs = false
    /\ (forall c, result r <> Exited c)
    /\ (testnet = false ->
        forallb is_prompt evs = true
        /\ exists cfg,
             result r = Normal cfg
             /\ Legacy.secret (Legacy.options cfg) = Legacy.res_secret res
             /\ Legacy.xrpServer (Legacy.options cfg) = Legacy.res_xrpServer res
             /\ Legacy.address (Legacy.options cfg)
                = (if Js.truthy (Legacy.res_address res)
                   then Some (Legacy.res_address res) else None)).
Proof.
  cbv zeta. unfold Legacy.buildConfig. rewrite bind_run.
  destruct (legacy_prompt_all_run L W unit testnet tt tr) as (res & E).
  rewrite E. cbn [result this_after trace_after]. exists res.
  destruct testnet; cbn [andb].
  - destruct (negb (Js.truthy (Legacy.res_secret res))).
    + munfold. destruct (fetch_faucet W _) as [json|e];
        cbn [result this_after trace_after];
        eexists; rewrite <- !app_assoc; cbn [app];
        (split; [reflexivity|]); (split; [reflexivity|]);
        (split; [reflexivity|]); (split; [reflexivity|]);
        (split; [discriminate|]); intros H; discriminate H.
    + munfold. eexists. split; [reflexivity|]. split; [reflexivity|].
      split; [reflexivity|]. split; [reflexivity|].
      split; [discriminate|]. intros H; discriminate H.
  - munfold. eexists. split; [reflexivity|]. split; [reflexivity|].
    split; [reflexivity|]. split; [reflexivity|]. split; [discriminate|].
    intros _. split; [reflexivity|]. eexists. repeat split.
Qed.

Lemma legacy_buildConfig_never_validates_witness :
  exists cfg,
    result (Legacy.buildConfig Sample.lib Sample.world false tt []) = Normal cfg
    /\ Legacy.secret (Legacy.options cfg) = "sSeedOfTheUser".
Proof.
  destruct (legacy_buildConfig_never_validates Sample.lib Sample.world false [])
    as (res & evs & Hp & _ & _ & _ & _ & Hlive).
  destruct (Hlive eq_refl) as (_ & cfg & Hres & Hsecret & _).
  exists cfg. split; [exact Hres|]. rewrite Hsecret.
  vm_compute in Hp. injection Hp as <-. reflexivity.
Defined.
